(** * TestCafe builder: a shallow embedding of
      [packages/builders/src/test-cafe/test-cafe.builder.ts]

    The builder is a thin piece of orchestration over four collaborators:
    the architect (target resolution, validation, execution), Node's [url]
    module, the TestCafe library and [tree-kill].  The class itself is
    embedded definition by definition; the collaborators appear as records
    of what they answer, and every call to them is recorded in a trace so
    that ordering and counting properties can be stated. *)

From Stdlib Require Import String Ascii List ZArith Lia Bool.
From Stdlib Require Import DecimalString DecimalPos.
Import ListNotations.
Local Open Scope string_scope.
Local Open Scope Z_scope.
Local Set Warnings "-register-all".

(* ===================================================================== *)
(** ** JavaScript values and primitives *)
(* ===================================================================== *)

Module Js.

(** The values that reach the builder from callbacks.  Arrays and objects
    are finite; an object is its list of own properties. *)
Inductive value : Type :=
| Undefined
| Null
| Boolean (b : bool)
| Number (z : Z)
| Str (s : string)
| Array (items : list value)
| Object (fields : list (string * value)).

(** [if (v)]: ToBoolean. *)
Definition truthy (v : value) : bool :=
  match v with
  | Undefined | Null => false
  | Boolean b => b
  | Number z => negb (z =? 0)
  | Str s => negb (String.eqb s "")
  | Array _ | Object _ => true
  end.

(** [Array.isArray(v)]. *)
Definition isArray (v : value) : bool :=
  match v with Array _ => true | _ => false end.

(** [v[i]] for an array index; anything else has no such element. *)
Definition index (v : value) (i : nat) : value :=
  match v with
  | Array items => nth i items Undefined
  | _ => Undefined
  end.

Fixpoint lookup (k : string) (fields : list (string * value)) : value :=
  match fields with
  | [] => Undefined
  | (k', v) :: rest => if String.eqb k k' then v else lookup k rest
  end.

(** [v.name] on a value that is neither null nor undefined. *)
Definition prop (v : value) (name : string) : value :=
  match v with
  | Object fields => lookup name fields
  | _ => Undefined
  end.

(** What a [throw] or a rejection carries: an [Error] instance, or some
    other value known by its string form. *)
Inductive thrown : Type :=
| Err (name message : string)
| Raw (text : string).

(** [String(e)]: [Error.prototype.toString] for an error. *)
Definition to_string (e : thrown) : string :=
  match e with
  | Err name message =>
      if String.eqb name "" then message
      else if String.eqb message "" then name
      else name ++ ": " ++ message
  | Raw text => text
  end.

(** [new Error(e)]. *)
Definition new_Error (e : thrown) : thrown := Err "Error" (to_string e).

(** [TypeError] raised by reading a property of [null]. *)
Definition null_deref (name : string) : thrown :=
  Err "TypeError" ("Cannot read property '" ++ name ++ "' of null").

(** [s] as a condition: a string is truthy when it is not empty. *)
Definition truthy_string (s : string) : bool := negb (String.eqb s "").

(** An optional string property as a condition. *)
Definition truthy_opt (o : option string) : bool :=
  match o with Some s => truthy_string s | None => false end.

(** The decimal digits of [n], with a leading minus sign when negative. *)
Definition decimal (n : Z) : string :=
  NilZero.string_of_int (Z.to_int n).

(** [Number.isSafeInteger(n)]: up to 2^53 - 1 in magnitude. *)
Definition safe_integer (n : Z) : bool := Z.abs n <=? 9007199254740991.

(** What the engine answers where the embedding does not compute it. *)
Record engine : Type := {
  (** [n.toString()] for an integer beyond the safe ones, where the
      digits are those of the double that holds [n] and the exponent form
      sets in at 10^21 *)
  toString_beyond : Z -> string
}.

(** [n.toString()] for an integral number: its decimal digits when it is
    a safe integer, the engine's answer otherwise. *)
Definition number_toString (en : engine) (n : Z) : string :=
  if safe_integer n then decimal n else toString_beyond en n.

(** [s.split(sep)] for a separator of one character. *)
Fixpoint split (sep : ascii) (s : string) : list string :=
  match s with
  | EmptyString => [EmptyString]
  | String c rest =>
      if Ascii.eqb c sep then EmptyString :: split sep rest
      else match split sep rest with
           | piece :: pieces => String c piece :: pieces
           | [] => [String c EmptyString]
           end
  end.

(** Does [s] contain the character [c]? ([s.includes(c)]) *)
Fixpoint includes (c : ascii) (s : string) : bool :=
  match s with
  | EmptyString => false
  | String d rest => Ascii.eqb d c || includes c rest
  end.

End Js.

(* ===================================================================== *)
(** ** Observables and promises *)
(* ===================================================================== *)

(** An observable is embedded as the script it plays to its subscriber:
    values, side effects of the code that produces them, and the way it
    ends.  Each notification runs through the whole pipeline before the
    producer continues, so cutting a script (as [take] does) is
    unsubscription: what the producer would have done later does not
    happen.  A script says in which order one stream does things, not
    when: where two streams are open at the same time, as the outer and
    the inner stream of [concatMap] are, the order in which their
    notifications arrive is given by a schedule, and what is stated for
    every schedule holds whatever the timing. *)
Module Rx.

Inductive ending : Type :=
| Completes
| Fails (e : Js.thrown)
| StaysOpen.

(** What an external observable delivers, as far as the builder can see. *)
Record source (A : Type) : Type := Source { emits : list A; ends : ending }.
Arguments Source {A} _ _.
Arguments emits {A} _.
Arguments ends {A} _.

Section WithEffects.
Context {E : Type}.

(** Synchronous code: the effects it performed, then a value or a throw. *)
Definition sync (A : Type) : Type := (list E * (Js.thrown + A))%type.

Definition ret {A} (a : A) : sync A := ([], inr a).
Definition throw {A} (e : Js.thrown) : sync A := ([], inl e).
Definition perform (e : E) : sync unit := ([e], inr tt).
Definition bind {A B} (m : sync A) (f : A -> sync B) : sync B :=
  match m with
  | (es, inl e) => (es, inl e)
  | (es, inr a) => let '(es', r) := f a in ((es ++ es')%list, r)
  end.

Inductive obs (A : Type) : Type :=
| Next (a : A) (k : obs A)
| Do (e : E) (k : obs A)
| Complete
| Error (e : Js.thrown)
| Pending.
Arguments Next {A} _ _.
Arguments Do {A} _ _.
Arguments Complete {A}.
Arguments Error {A} _.
Arguments Pending {A}.

Inductive promise (A : Type) : Type :=
| Resolved (a : A)
| Rejected (e : Js.thrown)
| Then (e : E) (k : promise A)
| Unsettled.
Arguments Resolved {A} _.
Arguments Rejected {A} _.
Arguments Then {A} _ _.
Arguments Unsettled {A}.

(** [p.then(f)], where [f] returns a value, returns a promise, or throws. *)
Fixpoint then_ {A B} (p : promise A) (f : A -> promise B) : promise B :=
  match p with
  | Resolved a => f a
  | Rejected e => Rejected e
  | Then e k => Then e (then_ k f)
  | Unsettled => Unsettled
  end.

(** A synchronous block run inside a promise callback: a throw rejects. *)
Fixpoint effects_then {A} (es : list E) (p : promise A) : promise A :=
  match es with
  | [] => p
  | e :: es' => Then e (effects_then es' p)
  end.

Definition of_sync {A} (m : sync A) : promise A :=
  effects_then (fst m)
    (match snd m with inl e => Rejected e | inr a => Resolved a end).

(** [fromPromise(p)]. *)
Fixpoint fromPromise {A} (p : promise A) : obs A :=
  match p with
  | Resolved a => Next a Complete
  | Rejected e => Error e
  | Then e k => Do e (fromPromise k)
  | Unsettled => Pending
  end.

(** [of(a)]. *)
Definition of_ {A} (a : A) : obs A := Next a Complete.

(** Subscribing to an external observable. *)
Fixpoint deliver {A} (vs : list A) (e : ending) : obs A :=
  match vs with
  | v :: vs' => Next v (deliver vs' e)
  | [] => match e with
          | Completes => Complete
          | Fails err => Error err
          | StaysOpen => Pending
          end
  end.

Definition subscribe {A} (s : source A) : obs A := deliver (emits s) (ends s).

(** [inner] followed, once it completes, by [rest]. *)
Fixpoint concat {A} (inner rest : obs A) : obs A :=
  match inner with
  | Next a k => Next a (concat k rest)
  | Do e k => Do e (concat k rest)
  | Complete => rest
  | Error e => Error e
  | Pending => Pending
  end.

Fixpoint effects_before {A} (es : list E) (o : obs A) : obs A :=
  match es with
  | [] => o
  | e :: es' => Do e (effects_before es' o)
  end.

(** A method that makes a call and returns the observable of what the
    call started, embedded as one script, is called: the first step of the
    script, the call, is made before the method returns; the rest is the
    observable returned. *)
Definition called {A} (o : obs A) : sync (obs A) :=
  match o with
  | Do e k => ([e], inr k)
  | _ => ([], inr o)
  end.

(** Whose notification arrives next, when both streams of a [concatMap]
    are open. *)
Inductive turn : Type := Outer | Inner.

(** A projection: the function given to [concatMap] is run on the outer
    value within the notification that delivers it.  What it does comes
    first; if it throws, the stream fails; otherwise [k] goes on with the
    inner stream it returned. *)
Definition projected {B} (m : sync (obs B)) (k : obs B -> obs B) : obs B :=
  effects_before (fst m)
    match snd m with
    | inl e => Error e
    | inr inner => k inner
    end.

(** The outer stream is over, having ended as [last] does: the buffered
    values are projected one after the other, each when the inner stream
    before it has completed. *)
Fixpoint projectAll {A B} (f : A -> sync (obs B)) (buffer : list A) (last : obs B)
  : obs B :=
  match buffer with
  | [] => last
  | a :: buffer' =>
      projected (f a) (fun inner => concat inner (projectAll f buffer' last))
  end.

(** The inner stream is silent until the outer one is over: the outer
    one goes on, its values are buffered and its failure ends everything
    at once; then the inner stream and the buffer have their turn.  An
    outer stream that completes lets the result complete after the last
    inner stream; one that stays open keeps the result open. *)
Fixpoint drain {A B} (f : A -> sync (obs B)) (o : obs A) (buffer : list A)
  (inner : obs B) : obs B :=
  match o with
  | Next a k => drain f k (buffer ++ [a]) inner
  | Do e k => Do e (drain f k buffer inner)
  | Error e => Error e
  | Complete => concat inner (projectAll f buffer Complete)
  | Pending => concat inner (projectAll f buffer Pending)
  end.

(** No inner stream is open and the buffer is empty: the outer stream
    goes on until its next value, which is projected at once; [open] goes
    on from there with the rest of the outer stream and the inner one. *)
Fixpoint idle {A B} (f : A -> sync (obs B)) (open : obs A -> obs B -> obs B)
  (o : obs A) : obs B :=
  match o with
  | Next a k => projected (f a) (open k)
  | Do e k => Do e (idle f open k)
  | Complete => Complete
  | Error e => Error e
  | Pending => Pending
  end.

(** An inner stream is open.  At each turn of the schedule either the
    outer stream takes a step (a value is buffered, a failure ends
    everything) or the inner one does (its values pass, its failure ends
    everything, its completion lets the next buffered value be
    projected).  A stream that has nothing more to deliver leaves the turn
    to the other; a schedule that is used up lets the outer stream go
    first. *)
Fixpoint active {A B} (f : A -> sync (obs B)) (schedule : list turn) (o : obs A)
  (buffer : list A) (inner : obs B) : obs B :=
  match schedule with
  | [] => drain f o buffer inner
  | Outer :: schedule' =>
      match o with
      | Next a k => active f schedule' k (buffer ++ [a]) inner
      | Do e k => Do e (active f schedule' k buffer inner)
      | Error e => Error e
      | Complete | Pending => drain f o buffer inner
      end
  | Inner :: schedule' =>
      match inner with
      | Next b k => Next b (active f schedule' o buffer k)
      | Do e k => Do e (active f schedule' o buffer k)
      | Error e => Error e
      | Pending => drain f o buffer inner
      | Complete =>
          match buffer with
          | a :: buffer' => projected (f a) (active f schedule' o buffer')
          | [] => idle f (fun k inner' => active f schedule' k [] inner') o
          end
      end
  end.

(** [concatMap(f)], that is [mergeMap(f, 1)]: one inner stream at a time,
    in the order of the outer values.  The outer stream stays subscribed
    while an inner one is open: what it delivers meanwhile is buffered,
    and what its producer does meanwhile is done. *)
Definition concatMap {A B} (schedule : list turn) (f : A -> sync (obs B))
  (o : obs A) : obs B :=
  idle f (fun k inner => active f schedule k [] inner) o.

(** [tap(f)]: [f] runs on every value; if it throws, the stream fails. *)
Fixpoint tap {A} (f : A -> sync unit) (o : obs A) : obs A :=
  match o with
  | Next a k =>
      effects_before (fst (f a))
        (match snd (f a) with
         | inl e => Error e
         | inr _ => Next a (tap f k)
         end)
  | Do e k => Do e (tap f k)
  | Complete => Complete
  | Error e => Error e
  | Pending => Pending
  end.

(** [map(f)]. *)
Fixpoint map {A B} (f : A -> B) (o : obs A) : obs B :=
  match o with
  | Next a k => Next (f a) (map f k)
  | Do e k => Do e (map f k)
  | Complete => Complete
  | Error e => Error e
  | Pending => Pending
  end.

(** [take(n)]: completes with the n-th value and unsubscribes. *)
Fixpoint take {A} (n : nat) (o : obs A) : obs A :=
  match n with
  | O => Complete
  | S n' =>
      match o with
      | Next a k => Next a (take n' k)
      | Do e k => Do e (take n k)
      | Complete => Complete
      | Error e => Error e
      | Pending => Pending
      end
  end.

(** [catchError(h)]: on failure, continue with what the handler returns. *)
Fixpoint catchError {A} (h : Js.thrown -> obs A) (o : obs A) : obs A :=
  match o with
  | Next a k => Next a (catchError h k)
  | Do e k => Do e (catchError h k)
  | Complete => Complete
  | Error e => h e
  | Pending => Pending
  end.

(** What a subscriber observes, in order: effects ([inl]) and values
    ([inr]). *)
Fixpoint log {A} (o : obs A) : list (E + A) :=
  match o with
  | Next a k => inr a :: log k
  | Do e k => inl e :: log k
  | _ => []
  end.

Fixpoint effects {A} (o : obs A) : list E :=
  match o with
  | Next _ k => effects k
  | Do e k => e :: effects k
  | _ => []
  end.

Fixpoint values {A} (o : obs A) : list A :=
  match o with
  | Next a k => a :: values k
  | Do _ k => values k
  | _ => []
  end.

Fixpoint outcome {A} (o : obs A) : ending :=
  match o with
  | Next _ k | Do _ k => outcome k
  | Complete => Completes
  | Error e => Fails e
  | Pending => StaysOpen
  end.

End WithEffects.

Arguments sync : clear implicits.
Arguments obs : clear implicits.
Arguments promise : clear implicits.
Arguments Next {E A} _ _.
Arguments Do {E A} _ _.
Arguments Complete {E A}.
Arguments Error {E A} _.
Arguments Pending {E A}.
Arguments Resolved {E A} _.
Arguments Rejected {E A} _.
Arguments Then {E A} _ _.
Arguments Unsettled {E A}.

End Rx.

(* ===================================================================== *)
(** ** Node's legacy [url] module *)
(* ===================================================================== *)

(** The builder imports [url] and calls [url.parse] and [url.format].
    The module belongs to Node, not to the repository; it is transcribed
    here from [lib/url.js] (Node 10).  [format] is transcribed for url
    objects whose [query] is absent or a string.  [parse] is transcribed for
    plain input: printable ASCII without the characters that need trimming,
    backslash conversion, escaping or credentials.  What Node does beyond
    that (Unicode, IDNA, percent-coding of credentials) is left to the
    [runtime] record and never computed here. *)
Module NodeUrl.
Local Open Scope nat_scope.

Record UrlObject : Type := {
  protocol : option string;
  slashes : bool;
  auth : option string;
  host : option string;
  port : option string;
  hostname : option string;
  hash : option string;
  search : option string;
  query : option string;
  pathname : option string;
  path : option string;
  href : option string
}.

Definition empty : UrlObject :=
  {| protocol := None; slashes := false; auth := None; host := None;
     port := None; hostname := None; hash := None; search := None;
     query := None; pathname := None; path := None; href := None |}.

Record runtime : Type := {
  (** [encodeStr(auth, noEscapeAuth, hexTable)] *)
  escape_auth : string -> string;
  (** [toASCII(hostname)] where IDNA has work to do *)
  idna : string -> Js.thrown + string;
  (** [url.parse] on input that is not plain *)
  parse_beyond : string -> Js.thrown + UrlObject
}.

(** [x || ''] *)
Definition or_empty (o : option string) : string :=
  match o with Some s => s | None => "" end.

Definition in_range (lo hi : nat) (c : ascii) : bool :=
  let n := nat_of_ascii c in (Nat.leb lo n && Nat.leb n hi)%bool.

Definition is_digit (c : ascii) : bool := in_range 48 57 c.
Definition is_lower (c : ascii) : bool := in_range 97 122 c.
Definition is_upper (c : ascii) : bool := in_range 65 90 c.

Definition lower_char (c : ascii) : ascii :=
  if is_upper c then ascii_of_nat (nat_of_ascii c + 32) else c.

Definition upper_char (c : ascii) : ascii :=
  if is_lower c then ascii_of_nat (nat_of_ascii c - 32) else c.

Fixpoint map_string (f : ascii -> ascii) (s : string) : string :=
  match s with
  | EmptyString => EmptyString
  | String c r => String (f c) (map_string f r)
  end.

Definition toLowerCase : string -> string := map_string lower_char.
Definition toUpperCase : string -> string := map_string upper_char.

Fixpoint all_chars (p : ascii -> bool) (s : string) : bool :=
  match s with
  | EmptyString => true
  | String c r => p c && all_chars p r
  end.

(** The longest prefix of [s] whose characters satisfy [p], and the rest. *)
Fixpoint span (p : ascii -> bool) (s : string) : string * string :=
  match s with
  | EmptyString => (EmptyString, EmptyString)
  | String c r =>
      if p c then let '(a, b) := span p r in (String c a, b)
      else (EmptyString, s)
  end.

Definition first_char_is (c : ascii) (s : string) : bool :=
  match s with String d _ => Ascii.eqb d c | EmptyString => false end.

Fixpoint last_char_is (c : ascii) (s : string) : bool :=
  match s with
  | EmptyString => false
  | String d EmptyString => Ascii.eqb d c
  | String _ r => last_char_is c r
  end.

(** [s.slice(0, -1)] *)
Fixpoint drop_last (s : string) : string :=
  match s with
  | EmptyString => EmptyString
  | String _ EmptyString => EmptyString
  | String c r => String c (drop_last r)
  end.

Definition member (s : string) (l : list string) : bool :=
  existsb (String.eqb s) l.

(** Protocols that always contain a [//] bit. *)
Definition slashedProtocol (p : string) : bool :=
  member p ["http"; "http:"; "https"; "https:"; "ftp"; "ftp:";
            "gopher"; "gopher:"; "file"; "file:"].

(** Protocols that never have a hostname. *)
Definition hostlessProtocol (p : string) : bool :=
  member p ["javascript"; "javascript:"].

(** [s.replace(/#/g, '%23')], and the same for [?] when [question] is set
    (the loop over [pathname] in [format]). *)
Fixpoint escape_marks (question : bool) (s : string) : string :=
  match s with
  | EmptyString => EmptyString
  | String c r =>
      if Ascii.eqb c "#" then "%23" ++ escape_marks question r
      else if question && Ascii.eqb c "?" then "%3F" ++ escape_marks question r
      else String c (escape_marks question r)
  end.

(** [s.startsWith(p)] *)
Fixpoint starts_with (p s : string) : bool :=
  match p, s with
  | EmptyString, _ => true
  | String a p', String b s' => Ascii.eqb a b && starts_with p' s'
  | String _ _, EmptyString => false
  end.

(** [Url.prototype.format] *)
Definition format (rt : runtime) (u : UrlObject) : string :=
  let auth0 := or_empty (auth u) in
  let auth1 :=
    if Js.truthy_string auth0 then escape_auth rt auth0 ++ "@" else auth0 in
  let protocol0 := or_empty (protocol u) in
  let pathname0 := or_empty (pathname u) in
  let hash0 := or_empty (hash u) in
  let host0 :=
    if Js.truthy_opt (host u) then auth1 ++ or_empty (host u)
    else if Js.truthy_opt (hostname u) then
      let h := or_empty (hostname u) in
      let named := auth1 ++ (if Js.includes ":" h then "[" ++ h ++ "]" else h) in
      if Js.truthy_opt (port u) then named ++ ":" ++ or_empty (port u)
      else named
    else "" in
  let search0 := or_empty (search u) in
  let protocol1 :=
    if Js.truthy_string protocol0 && negb (last_char_is ":" protocol0)
    then protocol0 ++ ":" else protocol0 in
  let pathname1 := escape_marks true pathname0 in
  let '(host1, pathname2) :=
    if slashes u || slashedProtocol protocol1 then
      if slashes u || Js.truthy_string host0 then
        ("//" ++ host0,
         if Js.truthy_string pathname1 && negb (first_char_is "/" pathname1)
         then "/" ++ pathname1 else pathname1)
      else if starts_with "file" protocol1 then ("//", pathname1)
      else (host0, pathname1)
    else (host0, pathname1) in
  let search1 := escape_marks false search0 in
  let hash1 :=
    if Js.truthy_string hash0 && negb (first_char_is "#" hash0)
    then "#" ++ hash0 else hash0 in
  let search2 :=
    if Js.truthy_string search1 && negb (first_char_is "?" search1)
    then "?" ++ search1 else search1 in
  protocol1 ++ host1 ++ pathname2 ++ search2 ++ hash1.

(** *** [url.parse] on plain input *)

Definition code_in (codes : list nat) (c : ascii) : bool :=
  existsb (Nat.eqb (nat_of_ascii c)) codes.

(** Printable ASCII, minus the characters [parse] would trim, convert or
    escape (blank, quotes, angle brackets, backslash, caret, backquote,
    braces, bar) and minus the at sign that introduces credentials. *)
Definition plain_char (c : ascii) : bool :=
  in_range 33 126 c
  && negb (code_in [34; 39; 60; 62; 64; 92; 94; 96; 123; 124; 125] c).

Definition plain (s : string) : bool := all_chars plain_char s.

(** [simplePathPattern]: one or two leading slashes not followed by a
    third, then a path without white space and an optional query.  On
    input without white space only the leading slashes decide. *)
Definition simple_path (s : string) : bool :=
  starts_with "/" s && negb (starts_with "///" s).

(** [protocolPattern = /^([a-z0-9.+-]+:)/i] *)
Definition proto_char (c : ascii) : bool :=
  is_lower c || is_upper c || is_digit c || code_in [46; 43; 45] c.

Definition proto_match (s : string) : option (string * string) :=
  let '(name, rest) := span proto_char s in
  match name, rest with
  | String _ _, String c rest' =>
      if Ascii.eqb c ":" then Some (name ++ ":", rest') else None
  | _, _ => None
  end.

(** The characters that end the host: those never allowed in a hostname,
    and [#], [/], [?]. *)
Definition host_stop (c : ascii) : bool :=
  code_in [9; 10; 13; 32; 34; 37; 39; 59; 60; 62; 92; 94; 96; 123; 124; 125;
           35; 47; 63] c.

(** [portPattern = /:[0-9]*$/]: the text before the match and the digits. *)
Fixpoint port_match (s : string) : option (string * string) :=
  match s with
  | EmptyString => None
  | String c r =>
      if Ascii.eqb c ":" && all_chars is_digit r then Some (EmptyString, r)
      else match port_match r with
           | Some (before, digits) => Some (String c before, digits)
           | None => None
           end
  end.

(** [getHostname]: the characters a hostname may hold. *)
Definition hostname_char (c : ascii) : bool :=
  is_lower c || is_upper c || is_digit c || code_in [46; 45; 43; 95] c
  || Nat.ltb 127 (nat_of_ascii c).

(** [toASCII]: nothing to convert in lower-case letters, digits and dots. *)
Definition toASCII (rt : runtime) (h : string) : Js.thrown + string :=
  if all_chars (fun c => is_lower c || is_digit c || code_in [46] c) h
  then inr h else idna rt h.

Definition drop2 (s : string) : string :=
  match s with String _ (String _ r) => r | _ => s end.

Definition some_if_truthy (s : string) : option string :=
  if Js.truthy_string s then Some s else None.

(** The host part of [Url.prototype.parse]: fills [host], [port] and
    [hostname] of [u] from the front of [rest]; returns what is left. *)
Definition parse_host (rt : runtime) (u : UrlObject) (rest : string)
  : Js.thrown + (UrlObject * string) :=
  let '(host0, rest1) := span (fun c => negb (host_stop c)) rest in
  (* parseHost *)
  let '(host1, port1) :=
    match port_match host0 with
    | Some (before, digits) =>
        (before, if Js.truthy_string digits then Some digits else None)
    | None => (host0, None)
    end in
  let hostname0 := host1 in
  let ipv6Hostname := first_char_is "[" hostname0 && last_char_is "]" hostname0 in
  (* getHostname *)
  let '(hostname1, rest2) :=
    if ipv6Hostname then (hostname0, rest1)
    else match span hostname_char hostname0 with
         | (valid, String c r) => (valid, "/" ++ String c r ++ rest1)
         | (_, EmptyString) => (hostname0, rest1)
         end in
  let hostname2 :=
    if Nat.ltb 255 (String.length hostname1) then "" else toLowerCase hostname1 in
  match (if ipv6Hostname then inr hostname2 else toASCII rt hostname2) with
  | inl e => inl e
  | inr hostname3 =>
      let p := match port1 with Some d => ":" ++ d | None => "" end in
      let host2 := hostname3 ++ p in
      let hostname4 :=
        if ipv6Hostname then drop_last (match hostname3 with
                                        | String _ r => r
                                        | EmptyString => EmptyString
                                        end)
        else hostname3 in
      let rest3 :=
        if ipv6Hostname && negb (first_char_is "/" rest2) then "/" ++ rest2
        else rest2 in
      inr ({| protocol := protocol u; slashes := slashes u; auth := auth u;
              host := Some host2; port := port1; hostname := Some hostname4;
              hash := hash u; search := search u; query := query u;
              pathname := pathname u; path := path u; href := href u |},
           rest3)
  end.

(** The end of [Url.prototype.parse]: hash, search, query, pathname, path
    and href from what follows the host. *)
Definition parse_tail (rt : runtime) (lowerProto : string) (u : UrlObject)
  (rest : string) : UrlObject :=
  let '(before_hash, from_hash) := span (fun c => negb (Ascii.eqb c "#")) rest in
  let '(before_question, from_question) :=
    span (fun c => negb (Ascii.eqb c "?")) before_hash in
  let hash0 := some_if_truthy from_hash in
  let search0 := some_if_truthy from_question in
  let query0 :=
    match from_question with String _ q => Some q | EmptyString => None end in
  let pathname0 := some_if_truthy before_question in
  let pathname1 :=
    if slashedProtocol lowerProto && Js.truthy_opt (hostname u)
       && negb (Js.truthy_opt pathname0)
    then Some "/" else pathname0 in
  let path0 :=
    if Js.truthy_opt pathname1 || Js.truthy_opt search0
    then Some (or_empty pathname1 ++ or_empty search0) else None in
  let v :=
    {| protocol := protocol u; slashes := slashes u; auth := auth u;
       host := host u; port := port u; hostname := hostname u;
       hash := hash0; search := search0; query := query0;
       pathname := pathname1; path := path0; href := None |} in
  {| protocol := protocol v; slashes := slashes v; auth := auth v;
     host := host v; port := port v; hostname := hostname v;
     hash := hash v; search := search v; query := query v;
     pathname := pathname v; path := path v; href := Some (format rt v) |}.

(** [Url.prototype.parse] on plain input. *)
Definition parse_plain (rt : runtime) (url : string) : Js.thrown + UrlObject :=
  let hasHash := Js.includes "#" url in
  if negb hasHash && simple_path url then
    let '(pathname0, from_question) :=
      span (fun c => negb (Ascii.eqb c "?")) url in
    inr {| protocol := None; slashes := false; auth := None; host := None;
           port := None; hostname := None; hash := None;
           search := some_if_truthy from_question;
           query := match from_question with
                    | String _ q => Some q
                    | EmptyString => None
                    end;
           pathname := Some pathname0; path := Some url; href := Some url |}
  else
    let '(proto, rest1) :=
      match proto_match url with
      | Some (p, r) => (Some p, r)
      | None => (None, url)
      end in
    let lowerProto := or_empty (option_map toLowerCase proto) in
    let has_proto := match proto with Some _ => true | None => false end in
    let slashes0 := has_proto && starts_with "//" rest1 in
    let this_slashes := slashes0 && negb (hostlessProtocol lowerProto) in
    let rest2 := if this_slashes then drop2 rest1 else rest1 in
    let u :=
      {| protocol := option_map toLowerCase proto; slashes := this_slashes;
         auth := None; host := None; port := None; hostname := None;
         hash := None; search := None; query := None; pathname := None;
         path := None; href := None |} in
    if negb (hostlessProtocol lowerProto)
       && (slashes0 || (has_proto && negb (slashedProtocol (or_empty proto))))
    then
      match parse_host rt u rest2 with
      | inl e => inl e
      | inr (u', rest3) => inr (parse_tail rt lowerProto u' rest3)
      end
    else inr (parse_tail rt lowerProto u rest2).

(** [url.parse(s)] *)
Definition parse (rt : runtime) (s : string) : Js.thrown + UrlObject :=
  if plain s then parse_plain rt s else parse_beyond rt s.

End NodeUrl.


(* ===================================================================== *)
(** ** The collaborators of the builder *)
(* ===================================================================== *)

Record BuildEvent : Type := { success : bool }.

Record BuilderConfiguration (O : Type) : Type := {
  root : string;
  builder : string;
  options : O
}.
Arguments root {O} _.
Arguments builder {O} _.
Arguments options {O} _.

Record TestCafeBuilderOptions : Type := {
  browsers : option (list string);
  devServerTarget : option string
}.

(** The options of the dev-server builder that this builder reads. *)
Record DevServerBuilderOptions : Type := {
  host : string;
  port : Z;
  ssl : bool;
  publicHost : option string;
  watch : bool
}.

(** [Partial<DevServerBuilderOptions>] *)
Record PartialDevServerBuilderOptions : Type := {
  host_override : option string;
  port_override : option Z;
  ssl_override : option bool;
  publicHost_override : option string;
  watch_override : option bool
}.

Record TargetSpecifier : Type := {
  project : option string;
  target : option string;
  configuration : option string;
  overrides : PartialDevServerBuilderOptions
}.

Record BuilderDescription : Type := {
  name : string;
  schema : string
}.

Record ChildProcess : Type := { pid : Z }.

Module Architect.
(** [context.architect], by what it answers. *)
Record t : Type := {
  getBuilderConfiguration :
    TargetSpecifier -> Js.thrown + BuilderConfiguration DevServerBuilderOptions;
  getBuilderDescription :
    BuilderConfiguration DevServerBuilderOptions -> Rx.source BuilderDescription;
  validateBuilderOptions :
    BuilderConfiguration DevServerBuilderOptions -> BuilderDescription ->
    Rx.source (BuilderConfiguration DevServerBuilderOptions);
  run : BuilderConfiguration DevServerBuilderOptions -> Rx.source BuildEvent
}.
End Architect.

Record BuilderContext : Type := { architect : Architect.t }.

(** How a promise handed out by a library settles. *)
Inductive settlement (A : Type) : Type :=
| Fulfils (a : A)
| Rejects (e : Js.thrown)
| Never.
Arguments Fulfils {A} _.
Arguments Rejects {A} _.
Arguments Never {A}.

Module TestCafeLib.
(** [require('testcafe')], by what it answers. *)
Record t : Type := {
  TestCafe : Type;
  Runner : Type;
  createTestCafe : string -> Z -> Z -> settlement TestCafe;
  createRunner : TestCafe -> Js.thrown + Runner;
  src : Runner -> string -> Js.thrown + Runner;
  browsers : Runner -> option (list string) -> Js.thrown + Runner;
  run : Runner -> settlement Z
}.
End TestCafeLib.

(** The order of arrival at each [concatMap] of the file: descriptions
    against validated options, validated options against the events of
    the dev server, and those events against the steps of the TestCafe
    session. *)
Record Arrival : Type := {
  atValidation : list Rx.turn;
  atExecution : list Rx.turn;
  atSession : list Rx.turn
}.

(** What the file runs on: the modules it imports, the engine, and the
    order in which what is pending arrives. [treeKill] is known by the
    error it hands to its callback, which it calls once. *)
Record Imports : Type := {
  url : NodeUrl.runtime;
  testcafe : TestCafeLib.t;
  treeKill : Z -> string -> Js.value;
  engine : Js.engine;
  arrival : Arrival
}.

(** Calls that leave the builder. *)
Inductive Event : Type :=
| GetBuilderConfiguration (spec : TargetSpecifier)
| GetBuilderDescription (config : BuilderConfiguration DevServerBuilderOptions)
| ValidateBuilderOptions (config : BuilderConfiguration DevServerBuilderOptions)
    (description : BuilderDescription)
| ArchitectRun (config : BuilderConfiguration DevServerBuilderOptions)
| CreateTestCafe (hostname : string) (port1 port2 : Z)
| CreateRunner
| RunnerSrc (srcPath : string)
| RunnerBrowsers (list : option (list string))
| RunnerRun
| TestCafeClose
| TreeKill (pid : Z) (signal : string)
| LoggerError (message : Js.value).

(** Side effects of the builder: calls, and assignments to its fields. *)
Inductive Effect : Type :=
| Call (e : Event)
| AssignComputedTestCafeBaseUrl (value : string)
| AssignTscProcess (value : option ChildProcess).

(* ===================================================================== *)
(** ** The builder *)
(* ===================================================================== *)

Record TestCafeBuilder : Type := {
  context : BuilderContext;
  computedTestCafeBaseUrl : option string;
  tscProcess : option ChildProcess
}.

(** [new TestCafeBuilder(context)] *)
Definition new (context : BuilderContext) : TestCafeBuilder :=
  {| context := context; computedTestCafeBaseUrl := None; tscProcess := None |}.

Definition apply (this : TestCafeBuilder) (e : Effect) : TestCafeBuilder :=
  match e with
  | Call _ => this
  | AssignComputedTestCafeBaseUrl v =>
      {| context := context this; computedTestCafeBaseUrl := Some v;
         tscProcess := tscProcess this |}
  | AssignTscProcess v =>
      {| context := context this;
         computedTestCafeBaseUrl := computedTestCafeBaseUrl this;
         tscProcess := v |}
  end.

(** The builder after a sequence of effects. *)
Definition after (es : list Effect) (this : TestCafeBuilder) : TestCafeBuilder :=
  fold_left apply es this.

(** The calls among a sequence of effects. *)
Fixpoint calls (es : list Effect) : list Event :=
  match es with
  | [] => []
  | Call e :: es' => e :: calls es'
  | _ :: es' => calls es'
  end.

Notation "x <- m ;; k" := (Rx.bind m (fun x => k))
  (at level 61, m at next level, right associativity).
Notation "m ;;; k" := (Rx.bind m (fun _ => k))
  (at level 61, right associativity).

Definition sync := Rx.sync Effect.
Definition Observable := Rx.obs Effect.
Definition Promise := Rx.promise Effect.

(** A call that may throw. *)
Definition call {A} (e : Event) (answer : Js.thrown + A) : sync A :=
  (([Call e], answer) : sync A).

(** A call that returns a promise. *)
Definition call_async {A} (e : Event) (answer : settlement A) : Promise A :=
  Rx.Then (Call e)
    match answer with
    | Fulfils a => Rx.Resolved a
    | Rejects err => Rx.Rejected err
    | Never => Rx.Unsettled
    end.

(** [\w]: a letter of either case, a digit or the underscore. *)
Definition word_char (c : ascii) : bool :=
  NodeUrl.is_lower c || NodeUrl.is_upper c || NodeUrl.is_digit c
  || Ascii.eqb c "_".

(** The pattern of [startDevServer]: word characters, at least one, from
    the start of the string, then a colon and two slashes. *)
Definition scheme_pattern_test (s : string) : bool :=
  match NodeUrl.span word_char s with
  | (String _ _, rest) => NodeUrl.starts_with "://" rest
  | (EmptyString, _) => false
  end.

Section Builder.
Variable imports : Imports.

(** [initTestCafe]. The variable [testCafe] of the enclosing function,
    assigned in the first callback and read in the second, travels with
    the count from the first callback to the second. *)
Definition initTestCafe (this : TestCafeBuilder) (srcPath : string)
  (browsers : option (list string)) : Observable BuildEvent :=
  let lib := testcafe imports in
  Rx.fromPromise
    (Rx.then_
       (Rx.then_
          (call_async (CreateTestCafe "localhost" 1337 1338)
             (TestCafeLib.createTestCafe lib "localhost" 1337 1338))
          (fun tc =>
             let testCafe := tc in
             Rx.then_
               (Rx.of_sync
                  (runner <- call CreateRunner (TestCafeLib.createRunner lib testCafe) ;;
                   runner1 <- call (RunnerSrc srcPath)
                                (TestCafeLib.src lib runner srcPath) ;;
                   call (RunnerBrowsers browsers)
                     (TestCafeLib.browsers lib runner1 browsers)))
               (fun runner2 =>
                  Rx.then_ (call_async RunnerRun (TestCafeLib.run lib runner2))
                    (fun failedCount => Rx.Resolved (testCafe, failedCount)))))
       (fun '(testCafe, failedCount) =>
          Rx.Then (Call TestCafeClose)
            (Rx.Resolved {| success := failedCount =? 0 |}))).

(** The target specifier built at the head of [startDevServer]. *)
Definition targetSpec (devServerTarget : string) (isWatching : bool)
  : TargetSpecifier :=
  let parts := Js.split ":" devServerTarget in
  let project := nth_error parts 0 in
  let targetName := nth_error parts 1 in
  let configuration := nth_error parts 2 in
  (* Overrides dev server watch setting. *)
  let overrides :=
    {| host_override := None; port_override := None; ssl_override := None;
       publicHost_override := None; watch_override := Some isWatching |} in
  {| project := project; target := targetName;
     configuration := configuration; overrides := overrides |}.

(** The callback given to [tap] in [startDevServer]. *)
Definition recordBaseUrl (devServerTarget : string)
  (builderConfig : BuilderConfiguration DevServerBuilderOptions) : sync unit :=
  let opts := options builderConfig in
  if Js.truthy_string devServerTarget && Js.truthy_opt (publicHost opts) then
    let publicHost0 := NodeUrl.or_empty (publicHost opts) in
    let publicHost1 :=
      if negb (scheme_pattern_test publicHost0)
      then (if ssl opts then "https" else "http") ++ "://" ++ publicHost0
      else publicHost0 in
    match NodeUrl.parse (url imports) publicHost1 with
    | inl e => Rx.throw e
    | inr clientUrl =>
        Rx.perform
          (AssignComputedTestCafeBaseUrl (NodeUrl.format (url imports) clientUrl))
    end
  else if Js.truthy_string devServerTarget then
    Rx.perform
      (AssignComputedTestCafeBaseUrl
         (NodeUrl.format (url imports)
            {| NodeUrl.protocol := Some (if ssl opts then "https" else "http");
               NodeUrl.slashes := false;
               NodeUrl.auth := None;
               NodeUrl.host := None;
               NodeUrl.port := Some (Js.number_toString (engine imports) (port opts));
               NodeUrl.hostname := Some (host opts);
               NodeUrl.hash := None;
               NodeUrl.search := None;
               NodeUrl.query := None;
               NodeUrl.pathname := None;
               NodeUrl.path := None;
               NodeUrl.href := None |}))
  else Rx.ret tt.

Definition startDevServer (this : TestCafeBuilder) (devServerTarget : string)
  (isWatching : bool) : sync (Observable BuildEvent) :=
  let architect := architect (context this) in
  let targetSpec := targetSpec devServerTarget isWatching in
  builderConfig <- call (GetBuilderConfiguration targetSpec)
                     (Architect.getBuilderConfiguration architect targetSpec) ;;
  Rx.perform (Call (GetBuilderDescription builderConfig)) ;;;
  Rx.ret
    (Rx.concatMap (atExecution (arrival imports))
       (fun builderConfig' =>
          Rx.perform (Call (ArchitectRun builderConfig')) ;;;
          Rx.ret (Rx.subscribe (Architect.run architect builderConfig')))
       (Rx.tap (recordBaseUrl devServerTarget)
          (Rx.concatMap (atValidation (arrival imports))
             (fun devServerDescription =>
                Rx.perform
                  (Call (ValidateBuilderOptions builderConfig devServerDescription)) ;;;
                Rx.ret
                  (Rx.subscribe
                     (Architect.validateBuilderOptions architect builderConfig
                        devServerDescription)))
             (Rx.subscribe (Architect.getBuilderDescription architect builderConfig))))).

(** [run]. The stream [build] holds build events or the [null] of
    [of(null)]; [concatMap] ignores which.  [initTestCafe] calls
    [createTestCafe] before it returns, within the notification that is
    projected; what follows happens in the callbacks of the promise. *)
Definition run (this : TestCafeBuilder)
  (builderConfig : BuilderConfiguration TestCafeBuilderOptions)
  : sync (Observable BuildEvent) :=
  let options := options builderConfig in
  build <- (if Js.truthy_opt (devServerTarget options)
            then started <- startDevServer this
                              (NodeUrl.or_empty (devServerTarget options)) false ;;
                 Rx.ret (Rx.map Some started)
            else Rx.ret (Rx.of_ None)) ;;
  Rx.ret
    (Rx.catchError (fun error => Rx.Error (Js.new_Error error))
       (Rx.take 1
          (Rx.concatMap (atSession (arrival imports))
             (fun _ : option BuildEvent =>
                Rx.called (initTestCafe this (root builderConfig) (browsers options)))
             build))).

(** [killProcess]: the call to [treeKill], then its callback. *)
Definition killProcess (this : TestCafeBuilder) : sync unit :=
  match tscProcess this with
  | None => Rx.throw (Js.null_deref "pid")
  | Some process =>
      Rx.perform (Call (TreeKill (pid process) "SIGTERM")) ;;;
      let error := treeKill imports (pid process) "SIGTERM" in
      Rx.perform (AssignTscProcess None) ;;;
      if Js.truthy error then
        if Js.isArray error && Js.truthy (Js.index error 0)
           && Js.truthy (Js.index error 2)
        then
          let errorMessage := Js.index error 2 in
          Rx.perform (Call (LoggerError errorMessage))
        else if Js.truthy (Js.prop error "message") then
          Rx.perform (Call (LoggerError (Js.prop error "message")))
        else Rx.ret tt
      else Rx.ret tt
  end.

End Builder.

(* ===================================================================== *)
(** ** Reading a run *)
(* ===================================================================== *)

(** Everything a call did: what it did before returning, then what its
    stream did. *)
Definition all_effects {A} (m : sync (Observable A)) : list Effect :=
  (fst m ++ match snd m with
            | inr o => Rx.effects o
            | inl _ => []
            end)%list.

(** The values its stream delivered. *)
Definition emitted {A} (m : sync (Observable A)) : list A :=
  match snd m with
  | inr o => Rx.values o
  | inl _ => []
  end.

Definition is_close (e : Event) : bool :=
  match e with TestCafeClose => true | _ => false end.

Definition is_log (e : Event) : bool :=
  match e with LoggerError _ => true | _ => false end.

Definition is_treeKill (e : Event) : bool :=
  match e with TreeKill _ _ => true | _ => false end.

Definition count (p : Event -> bool) (es : list Effect) : nat :=
  List.length (filter p (calls es)).


(** *** Example collaborators *)

(** A TestCafe library in which every step succeeds and the run reports
    [failedCount]. *)
Definition obliging_testcafe (failedCount : Z) : TestCafeLib.t :=
  {| TestCafeLib.TestCafe := unit;
     TestCafeLib.Runner := unit;
     TestCafeLib.createTestCafe := fun _ _ _ => Fulfils tt;
     TestCafeLib.createRunner := fun _ => inr tt;
     TestCafeLib.src := fun _ _ => inr tt;
     TestCafeLib.browsers := fun _ _ => inr tt;
     TestCafeLib.run := fun _ => Fulfils failedCount |}.

(** A TestCafe library whose session cannot be created. *)
Definition refusing_testcafe (e : Js.thrown) : TestCafeLib.t :=
  {| TestCafeLib.TestCafe := unit;
     TestCafeLib.Runner := unit;
     TestCafeLib.createTestCafe := fun _ _ _ => Rejects e;
     TestCafeLib.createRunner := fun _ => inr tt;
     TestCafeLib.src := fun _ _ => inr tt;
     TestCafeLib.browsers := fun _ _ => inr tt;
     TestCafeLib.run := fun _ => Fulfils 0 |}.

(** A TestCafe library whose run rejects once the session exists. *)
Definition crashing_testcafe (e : Js.thrown) : TestCafeLib.t :=
  {| TestCafeLib.TestCafe := unit;
     TestCafeLib.Runner := unit;
     TestCafeLib.createTestCafe := fun _ _ _ => Fulfils tt;
     TestCafeLib.createRunner := fun _ => inr tt;
     TestCafeLib.src := fun _ _ => inr tt;
     TestCafeLib.browsers := fun _ _ => inr tt;
     TestCafeLib.run := fun _ => Rejects e |}.

(** A runtime for [url] whose unmodelled parts answer with an error. *)
Definition bare_url : NodeUrl.runtime :=
  {| NodeUrl.escape_auth := fun s => s;
     NodeUrl.idna := fun _ => inl (Js.Raw "idna");
     NodeUrl.parse_beyond := fun _ => inl (Js.Raw "not plain") |}.

(** An engine whose unmodelled part is never asked. *)
Definition bare_engine : Js.engine :=
  {| Js.toString_beyond := fun _ => "beyond" |}.

(** At every [concatMap] the outer stream goes first. *)
Definition outer_first : Arrival :=
  {| atValidation := []; atExecution := []; atSession := [] |}.

Definition imports_with (lib : TestCafeLib.t) (killed : Js.value) : Imports :=
  {| url := bare_url; testcafe := lib; treeKill := fun _ _ => killed;
     engine := bare_engine; arrival := outer_first |}.

(** *** The shape of [run] *)

(** The stream that [run] returns, given the one of the dev server (or
    [of(null)]). *)
Definition piped (imports : Imports) (this : TestCafeBuilder)
  (builderConfig : BuilderConfiguration TestCafeBuilderOptions)
  (build : Observable (option BuildEvent)) : Observable BuildEvent :=
  Rx.catchError (fun error => Rx.Error (Js.new_Error error))
    (Rx.take 1
       (Rx.concatMap (atSession (arrival imports))
          (fun _ : option BuildEvent =>
             Rx.called
               (initTestCafe imports this (root builderConfig)
                  (browsers (options builderConfig))))
          build)).


(** A stream whose first value is [event]. *)
Definition first_is {A} (event : A) (o : Observable A) : Prop :=
  exists later, Rx.values o = event :: later.

(** A stream that does not end in failure. *)
Definition never_fails {A} (o : Observable A) : Prop :=
  forall e, Rx.outcome o <> Rx.Fails e.

(** Does [o] deliver a value? *)
Fixpoint has_value {A} (o : Observable A) : bool :=
  match o with
  | Rx.Next _ _ => true
  | Rx.Do _ o' => has_value o'
  | _ => false
  end.

(** Effects of the dev-server side: calls to the architect and the
    assignment of the base URL. *)
Definition dev_effect (e : Effect) : bool :=
  match e with
  | Call (GetBuilderConfiguration _) | Call (GetBuilderDescription _)
  | Call (ValidateBuilderOptions _ _) | Call (ArchitectRun _)
  | AssignComputedTestCafeBaseUrl _ => true
  | _ => false
  end.

(** Effects of the TestCafe side: calls to the library. *)
Definition runner_effect (e : Effect) : bool :=
  match e with
  | Call (CreateTestCafe _ _ _) | Call CreateRunner | Call (RunnerSrc _)
  | Call (RunnerBrowsers _) | Call RunnerRun | Call TestCafeClose => true
  | _ => false
  end.

(** An architect that knows no target. *)
Definition empty_architect : Architect.t :=
  {| Architect.getBuilderConfiguration := fun _ => inl (Js.Err "Error" "Project does not exist.");
     Architect.getBuilderDescription := fun _ => Rx.Source [] Rx.Completes;
     Architect.validateBuilderOptions := fun _ _ => Rx.Source [] Rx.Completes;
     Architect.run := fun _ => Rx.Source [] Rx.Completes |}.

Definition e2e_config (devServerTarget : option string)
  : BuilderConfiguration TestCafeBuilderOptions :=
  {| root := "apps/app-e2e"; builder := "@nrwl/builders:test-cafe";
     options := {| browsers := Some ["chrome"];
                   devServerTarget := devServerTarget |} |}.

(** The builder after running one configuration after the other. *)
Fixpoint after_runs (imports : Imports)
  (configs : list (BuilderConfiguration TestCafeBuilderOptions))
  (this : TestCafeBuilder) : TestCafeBuilder :=
  match configs with
  | [] => this
  | config :: rest =>
      after_runs imports rest (after (all_effects (run imports this config)) this)
  end.

(** A builder that tracks [process]. *)
Definition tracking (context : BuilderContext) (baseUrl : option string)
  (process : ChildProcess) : TestCafeBuilder :=
  {| context := context; computedTestCafeBaseUrl := baseUrl;
     tscProcess := Some process |}.

(** The dev-server configuration of a project served on [host]:[port]. *)
Definition served (host : string) (port : Z) (ssl : bool)
  (publicHost : option string) (watch : bool)
  : BuilderConfiguration DevServerBuilderOptions :=
  {| root := "apps/app"; builder := "@angular-devkit/build-angular:dev-server";
     options := {| host := host; port := port; ssl := ssl;
                   publicHost := publicHost; watch := watch |} |}.

(** *** Order *)

(** Every effect of [o] satisfies [Q], which is told the effects so far. *)
Fixpoint each_effect {A} (Q : list Effect -> Effect -> Prop)
  (past : list Effect) (o : Observable A) : Prop :=
  match o with
  | Rx.Next _ k => each_effect Q past k
  | Rx.Do e k => Q past e /\ each_effect Q (past ++ [e]) k
  | _ => True
  end.

(** Every value of [o] satisfies [Q], which is told the effects so far. *)
Fixpoint each_value {A} (Q : list Effect -> A -> Prop)
  (past : list Effect) (o : Observable A) : Prop :=
  match o with
  | Rx.Next a k => Q past a /\ each_value Q past k
  | Rx.Do e k => each_value Q (past ++ [e]) k
  | _ => True
  end.

(** [config] has come out of a validation that was asked for in [past]. *)
Definition validated (architect : Architect.t) (past : list Effect)
  (config : BuilderConfiguration DevServerBuilderOptions) : Prop :=
  exists resolved description,
    In (Call (ValidateBuilderOptions resolved description)) past
    /\ In config
         (Rx.emits (Architect.validateBuilderOptions architect resolved description)).

(** An execution of a target is an execution of a validated one. *)
Definition runs_validated (architect : Architect.t) (past : list Effect)
  (e : Effect) : Prop :=
  forall config, e = Call (ArchitectRun config) -> validated architect past config.

Definition is_architectRun (e : Event) : bool :=
  match e with ArchitectRun _ => true | _ => false end.

(** A call as one script: what it did before returning, then its stream;
    a throw ends it. *)
Definition script {A} (m : sync (Observable A)) : Observable A :=
  Rx.effects_before (fst m)
    match snd m with
    | inr o => o
    | inl e => Rx.Error e
    end.

Definition is_getBuilderConfiguration (e : Event) : bool :=
  match e with GetBuilderConfiguration _ => true | _ => false end.

Definition is_validateBuilderOptions (e : Event) : bool :=
  match e with ValidateBuilderOptions _ _ => true | _ => false end.

Definition dev_server_description : BuilderDescription :=
  {| name := "@angular-devkit/build-angular:dev-server";
     schema := "dev-server/schema.json" |}.

(** A workspace with one project, [app], served on 0.0.0.0:4200 without
    ssl and, unless overridden, in watch mode.  Its options pass
    [validate]; the server reports one build when it does not watch and
    goes on reporting when it does, and stays up either way. *)
Definition workspace (validate :
    BuilderConfiguration DevServerBuilderOptions ->
    Rx.source (BuilderConfiguration DevServerBuilderOptions)) : Architect.t :=
  {| Architect.getBuilderConfiguration := fun spec =>
       match project spec, target spec with
       | Some p, Some t =>
           if String.eqb p "app" && String.eqb t "serve" then
             inr (served "0.0.0.0" 4200 false None
                    match watch_override (overrides spec) with
                    | Some w => w
                    | None => true
                    end)
           else inl (Js.Err "Error" "Project or target does not exist.")
       | _, _ => inl (Js.Err "Error" "Project or target does not exist.")
       end;
     Architect.getBuilderDescription := fun _ =>
       Rx.Source [dev_server_description] Rx.Completes;
     Architect.validateBuilderOptions := fun config _ => validate config;
     Architect.run := fun config =>
       Rx.Source
         (if watch (options config)
          then [{| success := true |}; {| success := true |}]
          else [{| success := true |}])
         Rx.StaysOpen |}.

(** Validation that accepts the options as they are. *)
Definition accepting (config : BuilderConfiguration DevServerBuilderOptions)
  : Rx.source (BuilderConfiguration DevServerBuilderOptions) :=
  Rx.Source [config] Rx.Completes.

(** Validation that refuses them. *)
Definition refusing (config : BuilderConfiguration DevServerBuilderOptions)
  : Rx.source (BuilderConfiguration DevServerBuilderOptions) :=
  Rx.Source [] (Rx.Fails (Js.Err "SchemaValidationException" "Schema validation failed.")).

(** The same workspace with a dev server that delivers [events] and then
    ends as [ending] says, whatever it is asked to serve. *)
Definition serving (validate :
    BuilderConfiguration DevServerBuilderOptions ->
    Rx.source (BuilderConfiguration DevServerBuilderOptions))
  (events : list BuildEvent) (ending : Rx.ending) : Architect.t :=
  {| Architect.getBuilderConfiguration :=
       Architect.getBuilderConfiguration (workspace validate);
     Architect.getBuilderDescription :=
       Architect.getBuilderDescription (workspace validate);
     Architect.validateBuilderOptions :=
       Architect.validateBuilderOptions (workspace validate);
     Architect.run := fun _ => Rx.Source events ending |}.

(** Validation that lets the options through and then, once more, with
    another port. *)
Definition moving (config : BuilderConfiguration DevServerBuilderOptions)
  : Rx.source (BuilderConfiguration DevServerBuilderOptions) :=
  Rx.Source
    [config;
     served (host (options config)) 4201 (ssl (options config))
       (publicHost (options config)) (watch (options config))]
    Rx.Completes.

(** The events of the dev server and the steps of the session arrive
    before anything else does. *)
Definition inner_first : Arrival :=
  {| atValidation := repeat Rx.Inner 8;
     atExecution := repeat Rx.Inner 8;
     atSession := repeat Rx.Inner 8 |}.

(** As [inner_first], but the next step of the dev-server side comes
    before the first callback of the session. *)
Definition session_last : Arrival :=
  {| atValidation := repeat Rx.Inner 8;
     atExecution := repeat Rx.Inner 8;
     atSession := Rx.Outer :: repeat Rx.Inner 8 |}.

Definition imports_at (order : Arrival) (lib : TestCafeLib.t) : Imports :=
  {| url := bare_url; testcafe := lib; treeKill := fun _ _ => Js.Undefined;
     engine := bare_engine; arrival := order |}.

(** Effects that come after the target has been resolved. *)
Definition after_resolution (e : Effect) : bool :=
  match e with
  | Call (GetBuilderConfiguration _) => false
  | _ => true
  end.

(** *** The base URL and the execution *)

(** The URL derived from [config] has been assigned in [past]. *)
Definition assigned (imports : Imports) (devServerTarget : string)
  (past : list Effect)
  (config : BuilderConfiguration DevServerBuilderOptions) : Prop :=
  exists u,
    recordBaseUrl imports devServerTarget config
    = Rx.perform (AssignComputedTestCafeBaseUrl u)
    /\ In (AssignComputedTestCafeBaseUrl u) past.

(** An execution of a target comes after the assignment of the base URL
    derived from the configuration it executes. *)
Definition runs_assigned (imports : Imports) (devServerTarget : string)
  (past : list Effect) (e : Effect) : Prop :=
  forall config,
    e = Call (ArchitectRun config) -> assigned imports devServerTarget past config.

(** A stream that does not complete before it has delivered a value, as
    the stream of a promise. *)
Fixpoint one_shot {A} (o : Observable A) : Prop :=
  match o with
  | Rx.Do _ k => one_shot k
  | Rx.Complete => False
  | _ => True
  end.

(* ===================================================================== *)
(** ** More ways to read a run *)
(* ===================================================================== *)

(** What [catchError] in [run] makes of the way a stream ends. *)
Definition rethrown (e : Rx.ending) : Rx.ending :=
  match e with
  | Rx.Fails error => Rx.Fails (Js.new_Error error)
  | other => other
  end.

Definition is_createTestCafe (e : Event) : bool :=
  match e with CreateTestCafe _ _ _ => true | _ => false end.

(** The calls of a TestCafe session that runs to its end. *)
Definition session_calls (srcPath : string) (browsers : option (list string))
  : list Event :=
  [CreateTestCafe "localhost" 1337 1338; CreateRunner; RunnerSrc srcPath;
   RunnerBrowsers browsers; RunnerRun; TestCafeClose].

(** What a run can fail on: the rejection of the TestCafe session, and,
    with a dev-server target, the failure of the stream of descriptions,
    of a validation or of an execution, and what [url.parse] throws in
    the tap. *)
Definition thrown_to (imports : Imports) (this : TestCafeBuilder)
  (builderConfig : BuilderConfiguration TestCafeBuilderOptions)
  (original : Js.thrown) : Prop :=
  let architect := architect (context this) in
  Rx.outcome (initTestCafe imports this (root builderConfig)
                (browsers (options builderConfig)))
  = Rx.Fails original
  \/ exists target resolved,
       devServerTarget (options builderConfig) = Some target
       /\ Architect.getBuilderConfiguration architect (targetSpec target false)
          = inr resolved
       /\ (Rx.ends (Architect.getBuilderDescription architect resolved)
           = Rx.Fails original
           \/ (exists description,
                 Rx.ends (Architect.validateBuilderOptions architect resolved
                            description)
                 = Rx.Fails original)
           \/ (exists config,
                 snd (recordBaseUrl imports target config) = inl original)
           \/ (exists config,
                 Rx.ends (Architect.run architect config) = Rx.Fails original)).

(** Some projection by [f] throws [e], or returns a stream that fails
    with [e]. *)
Definition a_projection_fails {A B} (f : A -> sync (Observable B))
  (e : Js.thrown) : Prop :=
  exists a,
    snd (f a) = inl e
    \/ exists inner, snd (f a) = inr inner /\ Rx.outcome inner = Rx.Fails e.

(** An execution of a target has been asked for in [past]. *)
Definition run_started (past : list Effect) : Prop :=
  exists config, In (Call (ArchitectRun config)) past.

(** The first execution of a target comes right after the assignment of
    the base URL derived from the configuration it executes. *)
Definition first_run_assigned (imports : Imports) (devServerTarget : string)
  (past : list Effect) (e : Effect) : Prop :=
  forall config,
    e = Call (ArchitectRun config) ->
    ~ run_started past ->
    exists earlier u,
      past = (earlier ++ [AssignComputedTestCafeBaseUrl u])%list
      /\ recordBaseUrl imports devServerTarget config
         = Rx.perform (AssignComputedTestCafeBaseUrl u).

(** A stream of configurations in which every value comes right after
    the assignment that the tap of [startDevServer] makes for it;
    [pending] is the URL assigned by the last effect, if that was one. *)
Fixpoint tapped (imports : Imports) (devServerTarget : string)
  (pending : option string)
  (o : Observable (BuilderConfiguration DevServerBuilderOptions)) : Prop :=
  match o with
  | Rx.Next config k =>
      (exists u, pending = Some u
                 /\ recordBaseUrl imports devServerTarget config
                    = Rx.perform (AssignComputedTestCafeBaseUrl u))
      /\ tapped imports devServerTarget None k
  | Rx.Do e k =>
      tapped imports devServerTarget
        match e with
        | AssignComputedTestCafeBaseUrl u => Some u
        | _ => None
        end k
  | _ => True
  end.

(** [pieces.join(sep)] *)
Fixpoint join (sep : string) (pieces : list string) : string :=
  match pieces with
  | [] => ""
  | [piece] => piece
  | piece :: rest => piece ++ sep ++ join sep rest
  end.

(* ===================================================================== *)
(** ** JSON objects as the schematic handles them *)
(* ===================================================================== *)

(** The second part of the source is the schematic that sets up a
    TestCafe e2e project.  Its rules run through helpers of the workspace
    ([updateJsonInTree], [readJsonInTree], [getProjectConfig], [chain])
    whose code is elsewhere; what the file itself contributes are the
    functions applied to the parsed JSON, and those are embedded here.

    A parsed JSON document is a [Js.value]; an object is the list of its
    own properties, in the order of insertion, without repeated keys.  The
    operations below are exact on plain objects and ordinary keys.
    Whatever would involve an inherited member, an accessor, the place of
    an array index among the keys, or a receiver that is not a plain
    object ends in [Beyond], about which nothing is stated. *)
Module Obj.

Inductive result (A : Type) : Type :=
| Returns (a : A)
| Throws (e : Js.thrown)
| Beyond.
Arguments Returns {A} _.
Arguments Throws {A} _.
Arguments Beyond {A}.

Definition bind {A B} (m : result A) (f : A -> result B) : result B :=
  match m with
  | Returns a => f a
  | Throws e => Throws e
  | Beyond => Beyond
  end.

(** [fields] has an own property [k]. *)
Definition has (k : string) (fields : list (string * Js.value)) : bool :=
  existsb (fun entry => String.eqb k (fst entry)) fields.

(** The value of the own property [k] replaced, in place. *)
Fixpoint replace (k : string) (x : Js.value) (fields : list (string * Js.value))
  : list (string * Js.value) :=
  match fields with
  | [] => []
  | (k', v) :: rest =>
      if String.eqb k k' then (k', x) :: rest else (k', v) :: replace k x rest
  end.

(** The members every object inherits from [Object.prototype]. *)
Definition inherited (k : string) : bool :=
  existsb (String.eqb k)
    ["constructor"; "__defineGetter__"; "__defineSetter__"; "hasOwnProperty";
     "__lookupGetter__"; "__lookupSetter__"; "isPrototypeOf";
     "propertyIsEnumerable"; "toString"; "valueOf"; "__proto__";
     "toLocaleString"].

(** Keys made of digits, which an object may order before the others. *)
Definition index_like (k : string) : bool :=
  match k with
  | EmptyString => false
  | _ => NodeUrl.all_chars NodeUrl.is_digit k
  end.

(** The [TypeError] for a property of [undefined] or [null]. *)
Definition cannot (verb k receiver : string) : Js.thrown :=
  Js.Err "TypeError"
    ("Cannot " ++ verb ++ " property '" ++ k ++ "' of " ++ receiver).

(** [v[k]], read. *)
Definition get (v : Js.value) (k : string) : result Js.value :=
  match v with
  | Js.Undefined => Throws (cannot "read" k "undefined")
  | Js.Null => Throws (cannot "read" k "null")
  | Js.Object fields =>
      if has k fields then Returns (Js.lookup k fields)
      else if inherited k then Beyond
      else Returns Js.Undefined
  | _ => Beyond
  end.

(** The own property [k] created or redefined with value [x] (an object
    literal, a spread). *)
Definition define (fields : list (string * Js.value)) (k : string) (x : Js.value)
  : result (list (string * Js.value)) :=
  if has k fields then Returns (replace k x fields)
  else if index_like k then Beyond
  else Returns (fields ++ [(k, x)])%list.

(** [v[k] = x]; the result is [v] afterwards. *)
Definition set (v : Js.value) (k : string) (x : Js.value) : result Js.value :=
  match v with
  | Js.Undefined => Throws (cannot "set" k "undefined")
  | Js.Null => Throws (cannot "set" k "null")
  | Js.Object fields =>
      if negb (has k fields) && String.eqb k "__proto__" then Beyond
      else bind (define fields k x) (fun fields' => Returns (Js.Object fields'))
  | _ => Beyond
  end.

(** [...v] inside an object literal: the own properties to copy. *)
Definition spread (v : Js.value) : result (list (string * Js.value)) :=
  match v with
  | Js.Object fields => Returns fields
  | Js.Undefined | Js.Null | Js.Boolean _ | Js.Number _ => Returns []
  | Js.Array [] => Returns []
  | Js.Str EmptyString => Returns []
  | _ => Beyond
  end.

(** The properties [extra] defined one after the other on [fields]. *)
Definition define_all (fields extra : list (string * Js.value))
  : result (list (string * Js.value)) :=
  fold_left
    (fun acc entry => bind acc (fun fields' => define fields' (fst entry) (snd entry)))
    extra (Returns fields).

End Obj.

Notation "x <~ m ;; k" := (Obj.bind m (fun x => k))
  (at level 61, m at next level, right associativity).

(* ===================================================================== *)
(** ** The schematic *)
(* ===================================================================== *)

Module TestCafeProject.

(** The options of the schematic that the file reads. *)
Record TestCafeProjectSchema : Type := {
  name : string;
  appProjectRoot : string;
  e2eProjectName : string;
  e2eProjectRoot : string
}.

(** An element of [dependencyList]: [{ name, version }]. *)
Record Dependency : Type := { package : string; version : string }.

Section Versions.
(** The constants of [lib-versions]. *)
Variables testcafeVersion nxVersion : string.

(** The test of [checkArchitectTarget], on what [getProjectConfig]
    returned: [!projectConfig.architect.e2e]. *)
Definition lacks_e2e (projectConfig : Js.value) : Obj.result bool :=
  architect <~ Obj.get projectConfig "architect" ;;
  e2e <~ Obj.get architect "e2e" ;;
  Obj.Returns (negb (Js.truthy e2e)).

(** The function that [checkArchitectTarget] applies to [angular.json]
    when the test holds. *)
Definition emptyProject (options : TestCafeProjectSchema) (json : Js.value)
  : Obj.result Js.value :=
  projects <~ Obj.get json "projects" ;;
  projects' <~ Obj.set projects (e2eProjectName options) (Js.Object []) ;;
  Obj.set json "projects" projects'.

(** [addedDependencies] of [installDependencies]: the reduction of the
    list to a dictionary. *)
Definition addedDependencies (dependencyList : list Dependency)
  : Obj.result Js.value :=
  fold_left
    (fun dictionary value =>
       d <~ dictionary ;;
       Obj.set d (package value) (Js.Str (version value)))
    dependencyList (Obj.Returns (Js.Object [])).

(** [updatePackageJson] of [installDependencies]: the function applied to
    [package.json]. *)
Definition updatePackageJson (dependencyList : list Dependency) (json : Js.value)
  : Obj.result Js.value :=
  added <~ addedDependencies dependencyList ;;
  copied <~ Obj.spread json ;;
  devDependencies <~ Obj.get json "devDependencies" ;;
  base <~ Obj.spread devDependencies ;;
  extra <~ Obj.spread added ;;
  merged <~ Obj.define_all base extra ;;
  fields <~ Obj.define copied "devDependencies" (Js.Object merged) ;;
  Obj.Returns (Js.Object fields).

(** [checkDependenciesInstalled], up to the list it builds from
    [package.json]: with an empty list the rule does nothing, with any
    other it installs the list. *)
Definition checkDependenciesInstalled (packageJson : Js.value)
  : Obj.result (list Dependency) :=
  devDependencies <~ Obj.get packageJson "devDependencies" ;;
  cypress <~ Obj.get devDependencies "cypress" ;;
  let dependencyList :=
    if negb (Js.truthy cypress) then
      [ {| package := "cypress"; version := testcafeVersion |};
        (* NOTE: Need to be removed on the next Cypress release (=>3.1.1) *)
        {| package := "@types/jquery"; version := "3.3.6" |} ]
    else [] in
  devDependencies' <~ Obj.get packageJson "devDependencies" ;;
  builders <~ Obj.get devDependencies' "@nrwl/builders" ;;
  Obj.Returns
    (if negb (Js.truthy builders)
     then (dependencyList ++ [ {| package := "@nrwl/builders"; version := nxVersion |} ])%list
     else dependencyList).

End Versions.

(** The e2e target that [updateAngularJson] writes. *)
Definition e2eTarget (options : TestCafeProjectSchema) : Js.value :=
  Js.Object
    [ ("builder", Js.Str "@nrwl/builders:test-cafe");
      ("options", Js.Object [ ("devServerTarget", Js.Str (name options ++ ":serve")) ]);
      ("configurations",
       Js.Object
         [ ("production",
            Js.Object
              [ ("devServerTarget", Js.Str (name options ++ ":serve:production")) ]) ]) ].

(** The function that [updateAngularJson] applies to [angular.json].
    [projectConfig] is the object inside [json], so what is assigned to
    it and to its [architect] shows in [json]. *)
Definition updateAngularJson (options : TestCafeProjectSchema) (json : Js.value)
  : Obj.result Js.value :=
  projects <~ Obj.get json "projects" ;;
  projectConfig <~ Obj.get projects (e2eProjectName options) ;;
  projectConfig1 <~ Obj.set projectConfig "root" (Js.Str (e2eProjectRoot options)) ;;
  architect <~ Obj.get projectConfig1 "architect" ;;
  architect' <~ Obj.set architect "e2e" (e2eTarget options) ;;
  projectConfig2 <~ Obj.set projectConfig1 "architect" architect' ;;
  projects' <~ Obj.set projects (e2eProjectName options) projectConfig2 ;;
  Obj.set json "projects" projects'.

End TestCafeProject.

(** A name that [dictionary[name] = version] stores as a plain own
    property wherever it stands. *)
Definition ordinary_name (k : string) : bool :=
  negb (Obj.index_like k) && negb (String.eqb k "__proto__").

(** The version that [dependencyList] gives for the package [k], the
    last one if it gives several; [otherwise] if it gives none. *)
Definition listed (k : string) (dependencyList : list TestCafeProject.Dependency)
  (otherwise : Js.value) : Js.value :=
  fold_left
    (fun acc d =>
       if String.eqb k (TestCafeProject.package d)
       then Js.Str (TestCafeProject.version d) else acc)
    dependencyList otherwise.

(** [v[k1][k2]...]. *)
Definition at_path (path : list string) (v : Js.value) : Obj.result Js.value :=
  fold_left (fun r k => x <~ r ;; Obj.get x k) path (Obj.Returns v).

(** An [angular.json] with one application that has a [serve] target
    and an e2e project whose [e2e] target is the one of another runner. *)
Definition angular_json : list (string * Js.value) :=
  [ ("version", Js.Number 1);
    ("projects",
     Js.Object
       [ ("shop", Js.Object [ ("root", Js.Str "apps/shop");
                              ("architect", Js.Object [ ("serve", Js.Object []) ]) ]);
         ("shop-e2e",
          Js.Object [ ("root", Js.Str "");
                      ("projectType", Js.Str "application");
                      ("architect",
                       Js.Object [ ("e2e", Js.Object [ ("builder", Js.Str "protractor") ]);
                                   ("lint", Js.Object []) ]) ]) ]) ].

Definition shop_e2e : TestCafeProject.TestCafeProjectSchema :=
  {| TestCafeProject.name := "shop";
     TestCafeProject.appProjectRoot := "apps/shop";
     TestCafeProject.e2eProjectName := "shop-e2e";
     TestCafeProject.e2eProjectRoot := "apps/shop-e2e" |}.

(* ===================================================================== *)
(** ** Properties *)
(* ===================================================================== *)

(** *** Splitting the target string *)

Lemma split_without_separator (sep : ascii) (s : string) :
  Js.includes sep s = false -> Js.split sep s = [s].
Proof.
  induction s as [|c r IH]; simpl; [reflexivity|].
  intros H. apply orb_false_iff in H as [Hc Hr].
  rewrite Hc, (IH Hr). reflexivity.
Qed.

Lemma split_at_separator (sep : ascii) (p r : string) :
  Js.includes sep p = false ->
  Js.split sep (p ++ String sep r) = p :: Js.split sep r.
Proof.
  induction p as [|c p IH]; simpl.
  - intros _. rewrite Ascii.eqb_refl. reflexivity.
  - intros H. apply orb_false_iff in H as [Hc Hp].
    rewrite Hc, (IH Hp). reflexivity.
Qed.

(** C10. A target string [p:t:c] whose three segments hold no colon splits
    into project [p], target [t] and configuration [c]; a string [p:t]
    splits into project [p] and target [t], and its configuration is
    undefined. *)
Theorem targetSpec_segments (p t c : string) (isWatching : bool) :
  Js.includes ":" p = false ->
  Js.includes ":" t = false ->
  Js.includes ":" c = false ->
  (project (targetSpec (p ++ ":" ++ t ++ ":" ++ c) isWatching) = Some p
   /\ target (targetSpec (p ++ ":" ++ t ++ ":" ++ c) isWatching) = Some t
   /\ configuration (targetSpec (p ++ ":" ++ t ++ ":" ++ c) isWatching) = Some c)
  /\ (project (targetSpec (p ++ ":" ++ t) isWatching) = Some p
      /\ target (targetSpec (p ++ ":" ++ t) isWatching) = Some t
      /\ configuration (targetSpec (p ++ ":" ++ t) isWatching) = None).
Proof.
  intros Hp Ht Hc. unfold targetSpec. cbn [project target configuration].
  change (p ++ ":" ++ t ++ ":" ++ c) with (p ++ String ":" (t ++ String ":" c)).
  change (p ++ ":" ++ t) with (p ++ String ":" t).
  rewrite !split_at_separator by assumption.
  rewrite !split_without_separator by assumption.
  repeat split.
Qed.

Lemma targetSpec_segments_witness :
  (project (targetSpec "app:serve:production" false) = Some "app"
   /\ target (targetSpec "app:serve:production" false) = Some "serve"
   /\ configuration (targetSpec "app:serve:production" false) = Some "production")
  /\ (project (targetSpec "app:serve" false) = Some "app"
      /\ target (targetSpec "app:serve" false) = Some "serve"
      /\ configuration (targetSpec "app:serve" false) = None).
Proof.
  apply (targetSpec_segments "app" "serve" "production" false); reflexivity.
Defined.

(** *** The downstream invocation *)

(** Case analysis on what the TestCafe library answers, step by step. *)
Ltac case_library :=
  repeat (match goal with
          | |- context [TestCafeLib.createTestCafe ?l ?h ?p ?q] =>
              destruct (TestCafeLib.createTestCafe l h p q) eqn:?
          | |- context [TestCafeLib.createRunner ?l ?t] =>
              destruct (TestCafeLib.createRunner l t) eqn:?
          | |- context [TestCafeLib.src ?l ?r ?s] =>
              destruct (TestCafeLib.src l r s) eqn:?
          | |- context [TestCafeLib.browsers ?l ?r ?b] =>
              destruct (TestCafeLib.browsers l r b) eqn:?
          | |- context [TestCafeLib.run ?l ?r] =>
              destruct (TestCafeLib.run l r) eqn:?
          end; cbn).

Ltac case_answers :=
  repeat match goal with
         | |- context [match ?x with _ => _ end] => destruct x eqn:?; cbn
         end.

Lemma initTestCafe_resolves (imports : Imports) (this : TestCafeBuilder)
  (srcPath : string) (browsers : option (list string))
  tc r0 r1 r2 (failedCount : Z) :
  let lib := testcafe imports in
  TestCafeLib.createTestCafe lib "localhost" 1337 1338 = Fulfils tc ->
  TestCafeLib.createRunner lib tc = inr r0 ->
  TestCafeLib.src lib r0 srcPath = inr r1 ->
  TestCafeLib.browsers lib r1 browsers = inr r2 ->
  TestCafeLib.run lib r2 = Fulfils failedCount ->
  initTestCafe imports this srcPath browsers =
  Rx.Do (Call (CreateTestCafe "localhost" 1337 1338))
    (Rx.Do (Call CreateRunner)
       (Rx.Do (Call (RunnerSrc srcPath))
          (Rx.Do (Call (RunnerBrowsers browsers))
             (Rx.Do (Call RunnerRun)
                (Rx.Do (Call TestCafeClose)
                   (Rx.Next {| success := failedCount =? 0 |} Rx.Complete)))))).
Proof.
  intros lib H1 H2 H3 H4 H5. unfold initTestCafe. fold lib.
  rewrite H1. cbn. rewrite H2. cbn. rewrite H3. cbn. rewrite H4. cbn.
  rewrite H5. reflexivity.
Qed.

(** C9. When the runner reports [failedCount], the one event of the
    invocation is a success exactly when [failedCount] is 0: a positive
    count and a negative count are both failures. *)
Theorem success_iff_no_failure (imports : Imports) (this : TestCafeBuilder)
  (srcPath : string) (browsers : option (list string))
  tc r0 r1 r2 (failedCount : Z) :
  let lib := testcafe imports in
  TestCafeLib.createTestCafe lib "localhost" 1337 1338 = Fulfils tc ->
  TestCafeLib.createRunner lib tc = inr r0 ->
  TestCafeLib.src lib r0 srcPath = inr r1 ->
  TestCafeLib.browsers lib r1 browsers = inr r2 ->
  TestCafeLib.run lib r2 = Fulfils failedCount ->
  exists event,
    Rx.values (initTestCafe imports this srcPath browsers) = [event]
    /\ (success event = true <-> failedCount = 0)
    /\ (failedCount < 0 \/ 0 < failedCount -> success event = false).
Proof.
  intros lib H1 H2 H3 H4 H5.
  rewrite (initTestCafe_resolves imports this srcPath browsers
             tc r0 r1 r2 failedCount H1 H2 H3 H4 H5).
  exists {| success := failedCount =? 0 |}. cbn.
  split; [reflexivity|]. split.
  - apply Z.eqb_eq.
  - intros H. apply Z.eqb_neq. lia.
Qed.

Lemma success_iff_no_failure_witness :
  (exists event,
     Rx.values (initTestCafe (imports_with (obliging_testcafe 0) Js.Undefined)
                  (new {| architect := empty_architect |})
                  "apps/app-e2e" (Some ["chrome"])) = [event]
     /\ (success event = true <-> 0 = 0)
     /\ (0 < 0 \/ 0 < 0 -> success event = false)).
Proof.
  apply (success_iff_no_failure
           (imports_with (obliging_testcafe 0) Js.Undefined) _
           "apps/app-e2e" (Some ["chrome"]) tt tt tt tt 0);
    reflexivity.
Defined.

(** *** Streams: effects and values through the operators *)

Lemma effects_deliver {A : Type} (vs : list A) (e : Rx.ending) :
  Rx.effects (Rx.deliver (E := Effect) vs e) = [].
Proof. induction vs; [destruct e|]; simpl; auto. Qed.

Lemma effects_subscribe {A : Type} (s : Rx.source A) :
  Rx.effects (Rx.subscribe (E := Effect) s) = [].
Proof. apply effects_deliver. Qed.

Lemma values_deliver {A : Type} (vs : list A) (e : Rx.ending) :
  Rx.values (Rx.deliver (E := Effect) vs e) = vs.
Proof. induction vs; [destruct e|]; simpl; congruence. Qed.

Lemma outcome_deliver {A : Type} (vs : list A) (e : Rx.ending) :
  Rx.outcome (Rx.deliver (E := Effect) vs e) = e.
Proof. induction vs; [destruct e|]; simpl; auto. Qed.

Lemma effects_map {A B : Type} (f : A -> B) (o : Observable A) :
  Rx.effects (Rx.map f o) = Rx.effects o.
Proof. induction o; simpl; congruence. Qed.

Lemma has_value_map {A B : Type} (f : A -> B) (o : Observable A) :
  has_value (Rx.map f o) = has_value o.
Proof. induction o; simpl; congruence. Qed.

Lemma effects_rethrow {A : Type} (o : Observable A) :
  Rx.effects (Rx.catchError (fun error => Rx.Error (Js.new_Error error)) o)
  = Rx.effects o.
Proof. induction o; simpl; congruence. Qed.

Lemma values_rethrow {A : Type} (o : Observable A) :
  Rx.values (Rx.catchError (fun error => Rx.Error (Js.new_Error error)) o)
  = Rx.values o.
Proof. induction o; simpl; congruence. Qed.

Lemma take_0 {B : Type} (o : Observable B) : Rx.take 0 o = Rx.Complete.
Proof. destruct o; reflexivity. Qed.

Lemma take1_fromPromise {B : Type} (p : Promise B) :
  Rx.take 1 (Rx.fromPromise p) = Rx.fromPromise p.
Proof.
  induction p; cbn [Rx.fromPromise Rx.take]; try reflexivity.
  now rewrite IHp.
Qed.

Lemma values_take {A : Type} (n : nat) (o : Observable A) :
  Rx.values (Rx.take n o) = firstn n (Rx.values o).
Proof.
  revert n. induction o; intros [|n]; try reflexivity.
  - cbn [Rx.take Rx.values firstn]. now rewrite IHo.
  - cbn [Rx.take Rx.values]. apply IHo.
Qed.

Lemma effects_take {A : Type} (P : Effect -> Prop) (n : nat) (o : Observable A) :
  Forall P (Rx.effects o) -> Forall P (Rx.effects (Rx.take n o)).
Proof.
  revert n. induction o; intros [|n] H; cbn [Rx.take Rx.effects] in *;
    try solve [constructor]; auto.
  inversion H; subst. constructor; [assumption|]. apply (IHo (S n)); assumption.
Qed.

Lemma effects_concat {A : Type} (P : Effect -> Prop) (a b : Observable A) :
  Forall P (Rx.effects a) -> Forall P (Rx.effects b) ->
  Forall P (Rx.effects (Rx.concat a b)).
Proof.
  induction a; simpl; intros Ha Hb; auto.
  inversion Ha; subst. constructor; auto.
Qed.

Lemma effects_effects_before {A : Type} (P : Effect -> Prop) (es : list Effect)
  (o : Observable A) :
  Forall P es -> Forall P (Rx.effects o) ->
  Forall P (Rx.effects (Rx.effects_before es o)).
Proof.
  induction es; simpl; intros Hes Ho; auto.
  inversion Hes; subst. constructor; auto.
Qed.

Lemma effects_tap {A : Type} (P : Effect -> Prop) (f : A -> sync unit) (o : Observable A) :
  (forall a, Forall P (fst (f a))) ->
  Forall P (Rx.effects o) ->
  Forall P (Rx.effects (Rx.tap f o)).
Proof.
  intros Hf. induction o; simpl; intros Ho; auto.
  - apply effects_effects_before; auto.
    destruct (snd (f a)); simpl; auto.
  - inversion Ho; subst. constructor; auto.
Qed.

Lemma concat_quiet {A : Type} (a : Observable A) : Rx.concat a Rx.Complete = a.
Proof. induction a; simpl; congruence. Qed.

Lemma projected_called {A : Type} (o : Observable A) :
  Rx.projected (Rx.called o) (fun inner => inner) = o.
Proof. destruct o; reflexivity. Qed.

(** **** Effects of a kind stay of that kind through [concatMap] *)

Section Kind.
Context {A B : Type} (P : Effect -> Prop) (f : A -> sync (Observable B)).
Hypothesis f_does : forall a, Forall P (fst (f a)).
Hypothesis f_returns : forall a inner, snd (f a) = inr inner -> Forall P (Rx.effects inner).

Lemma effects_projected (a : A) (k : Observable B -> Observable B) :
  (forall inner, Forall P (Rx.effects inner) -> Forall P (Rx.effects (k inner))) ->
  Forall P (Rx.effects (Rx.projected (f a) k)).
Proof.
  intros Hk. unfold Rx.projected.
  pose proof (f_does a) as Hdoes. pose proof (f_returns a) as Hreturns.
  destruct (f a) as [es [e|inner]]; cbn [fst snd] in *;
    (apply effects_effects_before; [assumption|]); [constructor|].
  apply Hk. now apply Hreturns.
Qed.

Lemma effects_projectAll (buffer : list A) (last : Observable B) :
  Forall P (Rx.effects last) ->
  Forall P (Rx.effects (Rx.projectAll f buffer last)).
Proof.
  intros Hlast. induction buffer as [|a buffer IH]; [exact Hlast|].
  cbn [Rx.projectAll]. apply effects_projected.
  intros inner Hinner. now apply effects_concat.
Qed.

Lemma effects_drain (o : Observable A) :
  forall (buffer : list A) (inner : Observable B),
  Forall P (Rx.effects o) -> Forall P (Rx.effects inner) ->
  Forall P (Rx.effects (Rx.drain f o buffer inner)).
Proof.
  induction o; intros buffer inner Ho Hi; cbn [Rx.drain Rx.effects] in *.
  - now apply IHo.
  - inversion Ho; subst. constructor; [assumption|]. now apply IHo.
  - apply effects_concat; [assumption|]. apply effects_projectAll. constructor.
  - constructor.
  - apply effects_concat; [assumption|]. apply effects_projectAll. constructor.
Qed.

Lemma effects_idle (open : Observable A -> Observable B -> Observable B)
  (o : Observable A) :
  (forall k inner, Forall P (Rx.effects k) -> Forall P (Rx.effects inner) ->
                   Forall P (Rx.effects (open k inner))) ->
  Forall P (Rx.effects o) ->
  Forall P (Rx.effects (Rx.idle f open o)).
Proof.
  intros Hopen. induction o; intros Ho; cbn [Rx.idle Rx.effects] in *;
    try solve [constructor].
  - apply effects_projected. intros inner Hinner. now apply Hopen.
  - inversion Ho; subst. constructor; auto.
Qed.

Lemma effects_active (schedule : list Rx.turn) :
  forall (o : Observable A) (buffer : list A) (inner : Observable B),
  Forall P (Rx.effects o) -> Forall P (Rx.effects inner) ->
  Forall P (Rx.effects (Rx.active f schedule o buffer inner)).
Proof.
  induction schedule as [|[|] schedule IH]; intros o buffer inner Ho Hi;
    cbn [Rx.active].
  - now apply effects_drain.
  - destruct o; cbn [Rx.effects] in *; try solve [constructor].
    + now apply IH.
    + inversion Ho; subst. constructor; [assumption|]. now apply IH.
    + now apply effects_drain.
    + now apply effects_drain.
  - destruct inner; cbn [Rx.effects] in *; try solve [constructor].
    + now apply IH.
    + inversion Hi; subst. constructor; [assumption|]. now apply IH.
    + destruct buffer as [|a buffer].
      * apply effects_idle; [|assumption]. intros k inner Hk Hinner. now apply IH.
      * apply effects_projected. intros inner Hinner. now apply IH.
    + now apply effects_drain.
Qed.

Lemma effects_concatMap (schedule : list Rx.turn) (o : Observable A) :
  Forall P (Rx.effects o) ->
  Forall P (Rx.effects (Rx.concatMap schedule f o)).
Proof.
  intros Ho. unfold Rx.concatMap. apply effects_idle; [|assumption].
  intros k inner Hk Hinner. now apply effects_active.
Qed.

End Kind.

Lemma effects_called {A : Type} (P : Effect -> Prop) (o : Observable A) :
  Forall P (Rx.effects o) ->
  Forall P (fst (Rx.called o))
  /\ forall inner, snd (Rx.called o) = inr inner -> Forall P (Rx.effects inner).
Proof.
  intros H. destruct o; cbn [Rx.called fst snd]; (split; [|intros inner E;
    injection E as <-]); cbn [Rx.effects] in *; try assumption;
    try solve [constructor].
  - inversion H; subst. repeat constructor. assumption.
  - inversion H; subst. assumption.
Qed.

(** *** Which effects each method has *)

Lemma initTestCafe_effects (imports : Imports) (this : TestCafeBuilder)
  (srcPath : string) (browsers : option (list string)) :
  Forall (fun e => runner_effect e = true)
    (Rx.effects (initTestCafe imports this srcPath browsers)).
Proof.
  unfold initTestCafe. cbn. case_library; repeat constructor.
Qed.

Lemma recordBaseUrl_effects (imports : Imports) (devServerTarget : string)
  (builderConfig : BuilderConfiguration DevServerBuilderOptions) :
  Forall (fun e => dev_effect e = true)
    (fst (recordBaseUrl imports devServerTarget builderConfig)).
Proof.
  unfold recordBaseUrl. case_answers; repeat constructor.
Qed.

(** The stream of [startDevServer] does what validations, the tap and
    executions do, and nothing else. *)
Lemma startDevServer_stream_forall (P : Effect -> Prop) (imports : Imports)
  (this : TestCafeBuilder) (devServerTarget : string) (isWatching : bool)
  (o : Observable BuildEvent) :
  snd (startDevServer imports this devServerTarget isWatching) = inr o ->
  (forall resolved d,
      Architect.getBuilderConfiguration (architect (context this))
        (targetSpec devServerTarget isWatching) = inr resolved ->
      P (Call (ValidateBuilderOptions resolved d))) ->
  (forall c, Forall P (fst (recordBaseUrl imports devServerTarget c))) ->
  (forall c, P (Call (ArchitectRun c))) ->
  Forall P (Rx.effects o).
Proof.
  unfold startDevServer, call. cbn.
  destruct (Architect.getBuilderConfiguration _ _) as [e|resolved]; cbn;
    [discriminate|].
  intros H Hv Ha Hr. injection H as <-.
  specialize (fun d => Hv resolved d eq_refl).
  apply effects_concatMap.
  - intros c. cbn. repeat constructor. apply Hr.
  - intros c inner E. cbn in E. injection E as <-.
    rewrite effects_subscribe. constructor.
  - apply effects_tap; [exact Ha|].
    apply effects_concatMap.
    + intros d. cbn. repeat constructor. apply Hv.
    + intros d inner E. cbn in E. injection E as <-.
      rewrite effects_subscribe. constructor.
    + rewrite effects_subscribe. constructor.
Qed.

Lemma startDevServer_stream_effects (imports : Imports) (this : TestCafeBuilder)
  (devServerTarget : string) (isWatching : bool) (o : Observable BuildEvent) :
  snd (startDevServer imports this devServerTarget isWatching) = inr o ->
  Forall (fun e => dev_effect e = true) (Rx.effects o).
Proof.
  intros H.
  apply (startDevServer_stream_forall _ imports this devServerTarget isWatching o H).
  - reflexivity.
  - intros c. apply recordBaseUrl_effects.
  - reflexivity.
Qed.

Lemma startDevServer_sync_effects (imports : Imports) (this : TestCafeBuilder)
  (devServerTarget : string) (isWatching : bool) :
  Forall (fun e => dev_effect e = true)
    (fst (startDevServer imports this devServerTarget isWatching)).
Proof.
  unfold startDevServer, call. cbn.
  destruct (Architect.getBuilderConfiguration _ _); cbn; repeat constructor.
Qed.

Lemma startDevServer_effects (imports : Imports) (this : TestCafeBuilder)
  (devServerTarget : string) (isWatching : bool) :
  Forall (fun e => dev_effect e = true)
    (all_effects (startDevServer imports this devServerTarget isWatching)).
Proof.
  unfold all_effects. apply Forall_app. split.
  - apply startDevServer_sync_effects.
  - destruct (snd (startDevServer _ _ _ _)) eqn:E; [constructor|].
    eapply startDevServer_stream_effects; eauto.
Qed.

(** *** The shape of [run] *)

Lemma run_piped (imports : Imports) (this : TestCafeBuilder)
  (builderConfig : BuilderConfiguration TestCafeBuilderOptions) :
  let target := devServerTarget (options builderConfig) in
  run imports this builderConfig
  = if Js.truthy_opt target then
      match startDevServer imports this (NodeUrl.or_empty target) false with
      | (es, inr o) => (es, inr (piped imports this builderConfig (Rx.map Some o)))
      | (es, inl e) => (es, inl e)
      end
    else ([], inr (piped imports this builderConfig (Rx.of_ None))).
Proof.
  intros target. unfold run, piped. fold target.
  destruct (Js.truthy_opt target); [|reflexivity].
  destruct (startDevServer _ _ _ _) as [es [e|o]];
    unfold Rx.bind, Rx.ret; cbn [fst snd]; now rewrite ?app_nil_r.
Qed.

(** What holds of every effect of the dev-server stream and of the
    session holds of every effect of the stream of [run]. *)
Lemma piped_forall (P : Effect -> Prop) (imports : Imports) (this : TestCafeBuilder)
  (builderConfig : BuilderConfiguration TestCafeBuilderOptions)
  (build : Observable (option BuildEvent)) :
  Forall P (Rx.effects (initTestCafe imports this (root builderConfig)
                          (browsers (options builderConfig)))) ->
  Forall P (Rx.effects build) ->
  Forall P (Rx.effects (piped imports this builderConfig build)).
Proof.
  intros Hsession Hbuild. unfold piped. rewrite effects_rethrow.
  apply effects_take.
  destruct (effects_called P _ Hsession) as [Hdoes Hreturns].
  apply effects_concatMap; auto.
Qed.

Lemma run_forall (P : Effect -> Prop) (imports : Imports) (this : TestCafeBuilder)
  (builderConfig : BuilderConfiguration TestCafeBuilderOptions) :
  Forall P (Rx.effects (initTestCafe imports this (root builderConfig)
                          (browsers (options builderConfig)))) ->
  (Js.truthy_opt (devServerTarget (options builderConfig)) = true ->
   Forall P (all_effects
               (startDevServer imports this
                  (NodeUrl.or_empty (devServerTarget (options builderConfig)))
                  false))) ->
  Forall P (all_effects (run imports this builderConfig)).
Proof.
  intros Hsession Hdev. rewrite run_piped. cbv zeta.
  destruct (Js.truthy_opt (devServerTarget (options builderConfig))).
  - specialize (Hdev eq_refl). unfold all_effects in *.
    destruct (startDevServer _ _ _ _) as [es [e|o]]; cbn [fst snd] in *;
      [assumption|].
    apply Forall_app in Hdev as [Hsync Hstream].
    apply Forall_app. split; [assumption|].
    apply piped_forall; [assumption|]. now rewrite effects_map.
  - unfold all_effects. cbn [fst snd app].
    apply piped_forall; [assumption | constructor].
Qed.

(** *** Counting calls *)

Lemma calls_app (a b : list Effect) : calls (a ++ b) = (calls a ++ calls b)%list.
Proof.
  induction a as [|e a IH]; [reflexivity|].
  destruct e; simpl; now rewrite IH.
Qed.

Lemma count_app (p : Event -> bool) (a b : list Effect) :
  count p (a ++ b) = (count p a + count p b)%nat.
Proof.
  unfold count. now rewrite calls_app, filter_app, length_app.
Qed.

Lemma count_outside (p : Event -> bool) (q : Effect -> bool) (es : list Effect) :
  (forall ev, q (Call ev) = true -> p ev = false) ->
  Forall (fun e => q e = true) es ->
  count p es = 0%nat.
Proof.
  intros Hpq H. unfold count.
  induction H as [|e es He _ IH]; [reflexivity|].
  destruct e; simpl; auto.
  now rewrite (Hpq _ He).
Qed.

Lemma dev_effect_not_close ev : dev_effect (Call ev) = true -> is_close ev = false.
Proof. destruct ev; simpl; congruence. Qed.

(** What the session does with [close], case by case. *)
Lemma initTestCafe_close_cases (imports : Imports) (this : TestCafeBuilder)
  (srcPath : string) (browsers : option (list string)) :
  let session := initTestCafe imports this srcPath browsers in
  (exists before event,
      Rx.log session = (before ++ [inl (Call TestCafeClose); inr event])%list
      /\ Rx.values session = [event]
      /\ count is_close (Rx.effects session) = 1%nat
      /\ Rx.outcome session = Rx.Completes)
  \/ (Rx.values session = []
      /\ count is_close (Rx.effects session) = 0%nat
      /\ Rx.outcome session <> Rx.Completes).
Proof.
  unfold initTestCafe. cbn. case_library;
    try solve [right; split; [reflexivity | split; [reflexivity | discriminate]]].
  left.
  exists [inl (Call (CreateTestCafe "localhost" 1337 1338)); inl (Call CreateRunner);
          inl (Call (RunnerSrc srcPath)); inl (Call (RunnerBrowsers browsers));
          inl (Call RunnerRun)].
  eexists. split; [reflexivity|]. split; [reflexivity|]. split; reflexivity.
Qed.

Lemma initTestCafe_close_count (imports : Imports) (this : TestCafeBuilder)
  (srcPath : string) (browsers : option (list string)) :
  let session := initTestCafe imports this srcPath browsers in
  count is_close (Rx.effects session) = List.length (Rx.values session)
  /\ (List.length (Rx.values session) <= 1)%nat.
Proof.
  intros session.
  destruct (initTestCafe_close_cases imports this srcPath browsers)
    as [(before & event & _ & Hv & Hc & _) | (Hv & Hc & _)];
    fold session in Hv, Hc; rewrite Hv, Hc; simpl; auto.
Qed.

Lemma emitted_at_most_one (imports : Imports) (this : TestCafeBuilder)
  (builderConfig : BuilderConfiguration TestCafeBuilderOptions) :
  (List.length (emitted (run imports this builderConfig)) <= 1)%nat.
Proof.
  rewrite run_piped. cbv zeta. unfold emitted, piped.
  destruct (Js.truthy_opt _);
    [destruct (startDevServer _ _ _ _) as [es [e|o]]|]; cbn [fst snd];
    try (simpl; lia);
    rewrite values_rethrow, values_take; apply firstn_le_length.
Qed.

(** Where [close] is called. The session is closed at most once. It is
    closed exactly once, right before the outcome is delivered, when the
    creation of the session, its configuration and its run all succeed.
    When one of them rejects or never settles, [close] is not called and
    no outcome is delivered. A run delivers at most one outcome. *)
Theorem close_once_on_success_only (imports : Imports) (this : TestCafeBuilder)
  (builderConfig : BuilderConfiguration TestCafeBuilderOptions) :
  let session :=
    initTestCafe imports this (root builderConfig) (browsers (options builderConfig)) in
  ((exists before event,
       Rx.log session = (before ++ [inl (Call TestCafeClose); inr event])%list
       /\ Rx.values session = [event]
       /\ count is_close (Rx.effects session) = 1%nat
       /\ Rx.outcome session = Rx.Completes)
   \/ (Rx.values session = []
       /\ count is_close (Rx.effects session) = 0%nat
       /\ Rx.outcome session <> Rx.Completes))
  /\ (List.length (emitted (run imports this builderConfig)) <= 1)%nat.
Proof.
  intros session. split.
  - apply initTestCafe_close_cases.
  - apply emitted_at_most_one.
Qed.

(** C2 does not hold of the code: when the creation of the session
    rejects, or when the run rejects after the session was created, the
    invocation ends in that error and [close] was never called, although
    the session is closed when the run resolves. *)
Lemma close_skipped_on_rejection :
  let this := new {| architect := empty_architect |} in
  let refused :=
    initTestCafe (imports_with (refusing_testcafe (Js.Err "Error" "EADDRINUSE"))
                    Js.Undefined) this "apps/app-e2e" (Some ["chrome"]) in
  let crashed :=
    initTestCafe (imports_with (crashing_testcafe (Js.Err "Error" "no browser"))
                    Js.Undefined) this "apps/app-e2e" (Some ["chrome"]) in
  (Rx.outcome refused = Rx.Fails (Js.Err "Error" "EADDRINUSE")
   /\ count is_close (Rx.effects refused) = 0%nat)
  /\ (Rx.outcome crashed = Rx.Fails (Js.Err "Error" "no browser")
      /\ calls (Rx.effects crashed)
         = [CreateTestCafe "localhost" 1337 1338; CreateRunner;
            RunnerSrc "apps/app-e2e"; RunnerBrowsers (Some ["chrome"]); RunnerRun]
      /\ count is_close (Rx.effects crashed) = 0%nat).
Proof. repeat split. Qed.

(** *** The process handle *)

Lemma run_effects_class (imports : Imports) (this : TestCafeBuilder)
  (builderConfig : BuilderConfiguration TestCafeBuilderOptions) :
  Forall (fun e => dev_effect e || runner_effect e = true)
    (all_effects (run imports this builderConfig)).
Proof.
  apply run_forall.
  - eapply Forall_impl; [|apply initTestCafe_effects].
    intros e He. cbv beta in He. rewrite He. apply orb_true_r.
  - intros _. eapply Forall_impl; [|apply startDevServer_effects].
    intros e He. cbv beta in He. now rewrite He.
Qed.
Lemma handle_untouched (q : Effect -> bool) (es : list Effect)
  (this : TestCafeBuilder) :
  (forall v, q (AssignTscProcess v) = false) ->
  Forall (fun e => q e = true) es ->
  tscProcess (after es this) = tscProcess this.
Proof.
  intros Hq H. revert this. unfold after.
  induction H as [|e es He _ IH]; intros this; [reflexivity|].
  simpl. rewrite IH. destruct e; simpl; try reflexivity.
  rewrite Hq in He. discriminate.
Qed.

Lemma run_keeps_handle (imports : Imports) (this : TestCafeBuilder)
  (builderConfig : BuilderConfiguration TestCafeBuilderOptions) :
  tscProcess (after (all_effects (run imports this builderConfig)) this)
  = tscProcess this.
Proof.
  apply (handle_untouched (fun e => dev_effect e || runner_effect e));
    [reflexivity | apply run_effects_class].
Qed.

Lemma after_runs_keeps_handle (imports : Imports)
  (configs : list (BuilderConfiguration TestCafeBuilderOptions))
  (this : TestCafeBuilder) :
  tscProcess (after_runs imports configs this) = tscProcess this.
Proof.
  revert this. induction configs as [|c cs IH]; intros this; [reflexivity|].
  simpl. rewrite IH. apply run_keeps_handle.
Qed.

Lemma killProcess_null (imports : Imports) (this : TestCafeBuilder) :
  tscProcess this = None ->
  killProcess imports this = ([], inl (Js.null_deref "pid")).
Proof. intros H. unfold killProcess. now rewrite H. Qed.

Lemma class_not_treeKill ev :
  dev_effect (Call ev) || runner_effect (Call ev) = true -> is_treeKill ev = false.
Proof. destruct ev; simpl; congruence. Qed.

Lemma class_not_log ev :
  dev_effect (Call ev) || runner_effect (Call ev) = true -> is_log ev = false.
Proof. destruct ev; simpl; congruence. Qed.

(** C4. The handle is null in a new builder, and [run], [initTestCafe]
    and [startDevServer] leave it as they find it: none of them assigns
    it, and none of them reaches [killProcess] (no call to [treeKill]).
    The one assignment in the class, in [killProcess], assigns null.  So
    after any number of runs a call to [killProcess] reads [pid] of
    [null] and throws. *)
Theorem tscProcess_stays_null (imports : Imports) (context : BuilderContext)
  (this : TestCafeBuilder)
  (builderConfig : BuilderConfiguration TestCafeBuilderOptions)
  (configs : list (BuilderConfiguration TestCafeBuilderOptions))
  (srcPath : string) (browsers : option (list string))
  (devServerTarget : string) (isWatching : bool) :
  tscProcess (new context) = None
  /\ tscProcess (after (all_effects (run imports this builderConfig)) this)
     = tscProcess this
  /\ tscProcess (after (Rx.effects (initTestCafe imports this srcPath browsers)) this)
     = tscProcess this
  /\ tscProcess
       (after (all_effects (startDevServer imports this devServerTarget isWatching))
          this)
     = tscProcess this
  /\ count is_treeKill (all_effects (run imports this builderConfig)) = 0%nat
  /\ Forall (fun e => forall value, e = AssignTscProcess value -> value = None)
       (fst (killProcess imports this))
  /\ tscProcess (after_runs imports configs (new context)) = None
  /\ killProcess imports (after_runs imports configs (new context))
     = ([], inl (Js.null_deref "pid")).
Proof.
  split; [reflexivity|].
  split; [apply run_keeps_handle|].
  split.
  { apply (handle_untouched runner_effect); [reflexivity|].
    apply initTestCafe_effects. }
  split.
  { apply (handle_untouched dev_effect); [reflexivity|].
    apply startDevServer_effects. }
  split.
  { apply (count_outside is_treeKill (fun e => dev_effect e || runner_effect e));
      [apply class_not_treeKill | apply run_effects_class]. }
  split.
  { unfold killProcess. destruct (tscProcess this) as [process|]; [|constructor].
    unfold Rx.bind, Rx.perform, Rx.ret.
    set (error := treeKill imports (pid process) "SIGTERM").
    destruct (Js.truthy error);
      [destruct (Js.isArray error && Js.truthy (Js.index error 0)
                 && Js.truthy (Js.index error 2));
       [|destruct (Js.truthy (Js.prop error "message"))]|];
      cbn; repeat (apply Forall_cons || apply Forall_nil);
      intros value E; try discriminate; now injection E as <-. }
  split.
  - apply after_runs_keeps_handle.
  - apply killProcess_null. apply after_runs_keeps_handle.
Qed.

(** C3, as the code has it. On a builder that tracks a process,
    [killProcess] does not throw: it sends SIGTERM to the tree of the
    process, the callback clears the handle whatever error it receives,
    and at most one error is logged: the third element of an array whose
    first and third elements are truthy, or the truthy [message] of an
    object; nothing is logged without an error.  A second call, on the
    cleared handle, throws and logs nothing. *)
Theorem killProcess_tracked (imports : Imports) (context : BuilderContext)
  (baseUrl : option string) (process : ChildProcess) :
  let this := tracking context baseUrl process in
  let error := treeKill imports (pid process) "SIGTERM" in
  let result := killProcess imports this in
  snd result = inr tt
  /\ filter is_treeKill (calls (fst result)) = [TreeKill (pid process) "SIGTERM"]
  /\ tscProcess (after (fst result) this) = None
  /\ (count is_log (fst result) <= 1)%nat
  /\ (forall items,
        error = Js.Array items ->
        Js.truthy (nth 0 items Js.Undefined) = true ->
        Js.truthy (nth 2 items Js.Undefined) = true ->
        filter is_log (calls (fst result)) = [LoggerError (nth 2 items Js.Undefined)])
  /\ (forall fields,
        error = Js.Object fields ->
        Js.truthy (Js.lookup "message" fields) = true ->
        filter is_log (calls (fst result)) = [LoggerError (Js.lookup "message" fields)])
  /\ (Js.truthy error = false -> count is_log (fst result) = 0%nat)
  /\ killProcess imports (after (fst result) this)
     = ([], inl (Js.null_deref "pid")).
Proof.
  intros this error result. subst result. unfold killProcess.
  cbn [tracking tscProcess this]. fold error. clearbody error.
  unfold Rx.bind, Rx.perform, Rx.ret. cbn [fst snd app].
  destruct (Js.truthy error) eqn:Htruthy;
    [destruct (Js.isArray error && Js.truthy (Js.index error 0)
               && Js.truthy (Js.index error 2)) eqn:Hlist;
     [|destruct (Js.truthy (Js.prop error "message")) eqn:Hmessage]|];
    cbn; repeat split; auto; try discriminate;
    intros ? E; subst error; cbn in *; intros;
    repeat match goal with
           | H : Js.truthy _ = true |- _ => rewrite H in *
           end;
    try discriminate; try congruence; reflexivity.
Qed.

(** C3, as stated, fails: on a new builder, whose handle is null,
    [killProcess] throws instead of returning; and after a first call has
    cleared the handle, so does the second. *)
Lemma killProcess_throws_on_null :
  let imports := imports_with (obliging_testcafe 0) Js.Undefined in
  let context := {| architect := empty_architect |} in
  killProcess imports (new context)
  = ([], inl (Js.Err "TypeError" "Cannot read property 'pid' of null"))
  /\ snd (killProcess imports (tracking context None {| pid := 4711 |})) = inr tt
  /\ killProcess imports
       (after (fst (killProcess imports (tracking context None {| pid := 4711 |})))
          (tracking context None {| pid := 4711 |}))
     = ([], inl (Js.Err "TypeError" "Cannot read property 'pid' of null")).
Proof. repeat split. Qed.

(** *** The base URL *)

Lemma decimal_truthy (n : Z) : Js.truthy_string (Js.decimal n) = true.
Proof.
  unfold Js.decimal, Js.truthy_string, Z.to_int.
  destruct n as [|p|p]; [reflexivity| |reflexivity].
  cbn [NilZero.string_of_int NilZero.string_of_uint].
  pose proof (Unsigned.to_uint_nonnil p) as Hnil.
  destruct (Pos.to_uint p); [congruence| reflexivity ..].
Qed.

Lemma truthy_string_spec (s : string) : Js.truthy_string s = true <-> s <> "".
Proof.
  unfold Js.truthy_string. destruct s; simpl; split; congruence.
Qed.

Lemma append_empty_r (s : string) : s ++ "" = s.
Proof. induction s; simpl; congruence. Qed.

Lemma append_assoc (a b c : string) : (a ++ b) ++ c = a ++ (b ++ c).
Proof. induction a; simpl; congruence. Qed.

(** What [url.format] makes of a protocol, a hostname and a port. *)
Lemma format_protocol_hostname_port (rt : NodeUrl.runtime) (secure : bool)
  (hostname port : string) :
  Js.truthy_string port = true ->
  NodeUrl.format rt
    {| NodeUrl.protocol := Some (if secure then "https" else "http");
       NodeUrl.slashes := false; NodeUrl.auth := None; NodeUrl.host := None;
       NodeUrl.port := Some port; NodeUrl.hostname := Some hostname;
       NodeUrl.hash := None; NodeUrl.search := None; NodeUrl.query := None;
       NodeUrl.pathname := None; NodeUrl.path := None; NodeUrl.href := None |}
  = (if secure then "https" else "http") ++ ":" ++
    (if Js.truthy_string hostname
     then "//" ++ (if Js.includes ":" hostname then "[" ++ hostname ++ "]"
                   else hostname) ++ ":" ++ port
     else "").
Proof.
  intros Hport. unfold NodeUrl.format.
  cbn [NodeUrl.auth NodeUrl.protocol NodeUrl.slashes NodeUrl.host NodeUrl.port
       NodeUrl.hostname NodeUrl.hash NodeUrl.search NodeUrl.pathname
       NodeUrl.or_empty Js.truthy_opt].
  rewrite Hport.
  destruct (Js.truthy_string hostname) eqn:Hh.
  - destruct secure; cbn; destruct (Js.includes ":" hostname); cbn;
      (destruct hostname as [|c r]; [discriminate|]);
      cbn; now rewrite ?append_empty_r.
  - destruct secure; cbn; reflexivity.
Qed.

(** C5, as the code has it. Without a public host, and with a port that
    is a safe integer (so that [toString] gives its decimal digits), the
    stored base URL is what [url.format] makes of the scheme ([https]
    with ssl, [http] without), the host as hostname and the port in
    decimal: the scheme, [://], the host (in brackets when it holds a
    colon), a colon and the port, with no path and so no trailing slash;
    an empty host leaves the scheme and its colon alone.  For ssl, host
    [localhost] and port 4200 that is [https://localhost:4200]. *)
Theorem baseUrl_synthesized (imports : Imports) (this : TestCafeBuilder)
  (devServerTarget : string)
  (builderConfig : BuilderConfiguration DevServerBuilderOptions) :
  Js.truthy_string devServerTarget = true ->
  Js.truthy_opt (publicHost (options builderConfig)) = false ->
  Js.safe_integer (port (options builderConfig)) = true ->
  let opts := options builderConfig in
  let baseUrl :=
    (if ssl opts then "https" else "http") ++ ":" ++
    (if Js.truthy_string (host opts)
     then "//" ++ (if Js.includes ":" (host opts) then "[" ++ host opts ++ "]"
                   else host opts) ++ ":" ++ Js.decimal (port opts)
     else "") in
  recordBaseUrl imports devServerTarget builderConfig
  = Rx.perform (AssignComputedTestCafeBaseUrl baseUrl)
  /\ computedTestCafeBaseUrl
       (after (fst (recordBaseUrl imports devServerTarget builderConfig)) this)
     = Some baseUrl
  /\ (host opts = "localhost" -> port opts = 4200 -> ssl opts = true ->
      baseUrl = "https://localhost:4200").
Proof.
  intros Htarget Hpublic Hsafe opts baseUrl.
  assert (E : recordBaseUrl imports devServerTarget builderConfig
              = Rx.perform (AssignComputedTestCafeBaseUrl baseUrl)).
  { unfold recordBaseUrl, Js.number_toString. rewrite Htarget, Hpublic, Hsafe.
    cbn [andb].
    rewrite format_protocol_hostname_port by apply decimal_truthy.
    reflexivity. }
  split; [exact E|]. split.
  - rewrite E. reflexivity.
  - intros Hh Hp Hs. subst baseUrl. rewrite Hh, Hp, Hs. reflexivity.
Qed.

Lemma baseUrl_synthesized_witness :
  recordBaseUrl (imports_with (obliging_testcafe 0) Js.Undefined) "app:serve"
    (served "localhost" 4200 true None true)
  = Rx.perform (AssignComputedTestCafeBaseUrl "https://localhost:4200")
  /\ computedTestCafeBaseUrl
       (after (fst (recordBaseUrl (imports_with (obliging_testcafe 0) Js.Undefined)
                      "app:serve" (served "localhost" 4200 true None true)))
          (new {| architect := empty_architect |}))
     = Some "https://localhost:4200"
  /\ ("localhost" = "localhost" -> 4200 = 4200 -> true = true ->
      "https://localhost:4200" = "https://localhost:4200").
Proof.
  apply (baseUrl_synthesized (imports_with (obliging_testcafe 0) Js.Undefined)
           (new {| architect := empty_architect |}) "app:serve"
           (served "localhost" 4200 true None true)); reflexivity.
Defined.

(** C5, as stated, fails: for ssl, host [localhost] and port 4200 the
    stored base URL is [https://localhost:4200], which is not
    [https://localhost:4200/]. *)
Lemma baseUrl_has_no_trailing_slash :
  computedTestCafeBaseUrl
    (after (fst (recordBaseUrl (imports_with (obliging_testcafe 0) Js.Undefined)
                   "app:serve" (served "localhost" 4200 true None true)))
       (new {| architect := empty_architect |}))
  = Some "https://localhost:4200"
  /\ String.eqb "https://localhost:4200" "https://localhost:4200/" = false.
Proof. split; reflexivity. Qed.
(** *** The scheme pattern *)

Lemma span_split (p : ascii -> bool) (s : string) :
  s = fst (NodeUrl.span p s) ++ snd (NodeUrl.span p s)
  /\ NodeUrl.all_chars p (fst (NodeUrl.span p s)) = true.
Proof.
  induction s as [|c r [IH1 IH2]]; simpl; [auto|].
  destruct (p c) eqn:Hc; [|auto].
  destruct (NodeUrl.span p r) as [a b]. simpl in *.
  rewrite Hc, IH2. split; [congruence | reflexivity].
Qed.

Lemma span_stop (p : ascii -> bool) (w : string) (c : ascii) (r : string) :
  NodeUrl.all_chars p w = true -> p c = false ->
  NodeUrl.span p (w ++ String c r) = (w, String c r).
Proof.
  intros Hw Hc. induction w as [|d w IH]; simpl.
  - now rewrite Hc.
  - simpl in Hw. apply andb_true_iff in Hw as [Hd Hw].
    rewrite Hd, (IH Hw). reflexivity.
Qed.

Lemma starts_with_spec (p s : string) :
  NodeUrl.starts_with p s = true <-> exists r, s = p ++ r.
Proof.
  revert s. induction p as [|a p IH]; intros s; simpl.
  - split; [intros _; now exists s | reflexivity].
  - destruct s as [|b s].
    + split; [discriminate | intros [r Hr]; discriminate].
    + rewrite andb_true_iff, IH, Ascii.eqb_eq. split.
      * intros [-> [r ->]]. now exists r.
      * intros [r Hr]. injection Hr as -> ->. split; [reflexivity | now exists r].
Qed.

(** The test is the pattern: it holds of the strings that start with one
    or more word characters followed by a colon and two slashes. *)
Lemma scheme_pattern_test_spec (s : string) :
  scheme_pattern_test s = true <->
  exists word rest,
    word <> "" /\ NodeUrl.all_chars word_char word = true
    /\ s = word ++ "://" ++ rest.
Proof.
  unfold scheme_pattern_test. split.
  - destruct (span_split word_char s) as [Hs Hw].
    destruct (NodeUrl.span word_char s) as [[|c w] rest]; [discriminate|].
    simpl in Hs, Hw. intros H. apply starts_with_spec in H as [r ->].
    exists (String c w), r. split; [discriminate|]. split; assumption.
  - intros (word & rest & Hne & Hw & ->).
    change (word ++ "://" ++ rest) with (word ++ String ":" ("//" ++ rest)).
    rewrite (span_stop word_char word ":" ("//" ++ rest) Hw eq_refl).
    destruct word; [congruence|]. reflexivity.
Qed.

Lemma word_char_upper (c : ascii) :
  word_char (NodeUrl.upper_char c) = word_char c.
Proof. destruct c as [[] [] [] [] [] [] [] []]; reflexivity. Qed.

Lemma word_char_lower (c : ascii) :
  word_char (NodeUrl.lower_char c) = word_char c.
Proof. destruct c as [[] [] [] [] [] [] [] []]; reflexivity. Qed.

Lemma upper_fixes_others (c : ascii) :
  word_char c = false -> NodeUrl.upper_char c = c.
Proof. destruct c as [[] [] [] [] [] [] [] []]; (reflexivity || discriminate). Qed.

Lemma lower_fixes_others (c : ascii) :
  word_char c = false -> NodeUrl.lower_char c = c.
Proof. destruct c as [[] [] [] [] [] [] [] []]; (reflexivity || discriminate). Qed.

Lemma eqb_outside_words (f : ascii -> ascii) (a b : ascii) :
  (forall c, word_char (f c) = word_char c) ->
  (forall c, word_char c = false -> f c = c) ->
  word_char a = false ->
  Ascii.eqb a (f b) = Ascii.eqb a b.
Proof.
  intros Hword Hfix Ha. destruct (word_char b) eqn:Hb.
  - assert (Ascii.eqb a b = false) as ->
      by (apply Ascii.eqb_neq; intros <-; congruence).
    apply Ascii.eqb_neq. intros E. rewrite <- Hword, <- E in Hb. congruence.
  - now rewrite (Hfix b Hb).
Qed.

Lemma starts_with_map (f : ascii -> ascii) (p : string) :
  (forall c, word_char (f c) = word_char c) ->
  (forall c, word_char c = false -> f c = c) ->
  NodeUrl.all_chars (fun c => negb (word_char c)) p = true ->
  forall r, NodeUrl.starts_with p (NodeUrl.map_string f r) = NodeUrl.starts_with p r.
Proof.
  intros Hword Hfix. induction p as [|a p IH]; intros Hp r; [reflexivity|].
  simpl in Hp. apply andb_true_iff in Hp as [Ha Hp].
  apply negb_true_iff in Ha.
  destruct r as [|b r]; [reflexivity|]. simpl.
  rewrite (eqb_outside_words f a b Hword Hfix Ha), (IH Hp). reflexivity.
Qed.

Lemma span_map (f : ascii -> ascii) (s : string) :
  (forall c, word_char (f c) = word_char c) ->
  NodeUrl.span word_char (NodeUrl.map_string f s)
  = (NodeUrl.map_string f (fst (NodeUrl.span word_char s)),
     NodeUrl.map_string f (snd (NodeUrl.span word_char s))).
Proof.
  intros Hword. induction s as [|c r IH]; [reflexivity|].
  simpl. rewrite Hword. destruct (word_char c); [|reflexivity].
  rewrite IH. destruct (NodeUrl.span word_char r). reflexivity.
Qed.

(** The pattern does not look at the case of letters. *)
Lemma scheme_pattern_test_case (f : ascii -> ascii) (s : string) :
  (forall c, word_char (f c) = word_char c) ->
  (forall c, word_char c = false -> f c = c) ->
  scheme_pattern_test (NodeUrl.map_string f s) = scheme_pattern_test s.
Proof.
  intros Hword Hfix. unfold scheme_pattern_test.
  rewrite (span_map f s Hword).
  destruct (NodeUrl.span word_char s) as [[|c w] rest];
    cbn [fst snd NodeUrl.map_string]; [reflexivity|].
  now apply starts_with_map.
Qed.

(** C6. With a non-empty public host, the public host is the base: kept
    as it is when it starts with word characters (letters of either case,
    digits, underscore) followed by a colon and two slashes, whatever the
    ssl flag says; prefixed with [https://] under ssl and with [http://]
    otherwise.  The result goes through [url.parse] and then
    [url.format], and what comes out is stored.  So
    [https://example.com] gives [https://example.com/], and
    [example.com] without ssl gives [http://example.com/]. *)
Theorem baseUrl_from_publicHost (imports : Imports) (this : TestCafeBuilder)
  (devServerTarget : string)
  (builderConfig : BuilderConfiguration DevServerBuilderOptions)
  (given : string) :
  Js.truthy_string devServerTarget = true ->
  publicHost (options builderConfig) = Some given ->
  given <> "" ->
  let opts := options builderConfig in
  let withScheme :=
    if scheme_pattern_test given then given
    else (if ssl opts then "https" else "http") ++ "://" ++ given in
  recordBaseUrl imports devServerTarget builderConfig
  = match NodeUrl.parse (url imports) withScheme with
    | inl e => Rx.throw e
    | inr clientUrl =>
        Rx.perform
          (AssignComputedTestCafeBaseUrl (NodeUrl.format (url imports) clientUrl))
    end
  /\ (scheme_pattern_test given = true <->
      exists word rest,
        word <> "" /\ NodeUrl.all_chars word_char word = true
        /\ given = word ++ "://" ++ rest)
  /\ scheme_pattern_test (NodeUrl.toUpperCase given) = scheme_pattern_test given
  /\ scheme_pattern_test (NodeUrl.toLowerCase given) = scheme_pattern_test given
  /\ (given = "https://example.com" ->
      computedTestCafeBaseUrl
        (after (fst (recordBaseUrl imports devServerTarget builderConfig)) this)
      = Some "https://example.com/")
  /\ (given = "example.com" -> ssl opts = false ->
      computedTestCafeBaseUrl
        (after (fst (recordBaseUrl imports devServerTarget builderConfig)) this)
      = Some "http://example.com/").
Proof.
  intros Htarget Hgiven Hne opts withScheme.
  assert (E : recordBaseUrl imports devServerTarget builderConfig
              = match NodeUrl.parse (url imports) withScheme with
                | inl e => Rx.throw e
                | inr clientUrl =>
                    Rx.perform
                      (AssignComputedTestCafeBaseUrl
                         (NodeUrl.format (url imports) clientUrl))
                end).
  { unfold recordBaseUrl. rewrite Htarget, Hgiven.
    apply truthy_string_spec in Hne.
    cbn [Js.truthy_opt NodeUrl.or_empty]. rewrite Hne. cbn [andb].
    subst withScheme opts. destruct (scheme_pattern_test given); reflexivity. }
  split; [exact E|].
  split; [apply scheme_pattern_test_spec|].
  split; [apply scheme_pattern_test_case;
          [apply word_char_upper | apply upper_fixes_others]|].
  split; [apply scheme_pattern_test_case;
          [apply word_char_lower | apply lower_fixes_others]|].
  split.
  - intros ->. rewrite E. subst withScheme. reflexivity.
  - intros -> Hssl. rewrite E. subst withScheme opts. rewrite Hssl. reflexivity.
Qed.

Lemma baseUrl_from_publicHost_witness :
  recordBaseUrl (imports_with (obliging_testcafe 0) Js.Undefined) "app:serve"
    (served "localhost" 4200 false (Some "https://example.com") true)
  = Rx.perform (AssignComputedTestCafeBaseUrl "https://example.com/")
  /\ computedTestCafeBaseUrl
       (after (fst (recordBaseUrl (imports_with (obliging_testcafe 0) Js.Undefined)
                      "app:serve"
                      (served "localhost" 4200 false (Some "https://example.com") true)))
          (new {| architect := empty_architect |}))
     = Some "https://example.com/".
Proof.
  pose proof (baseUrl_from_publicHost
                (imports_with (obliging_testcafe 0) Js.Undefined)
                (new {| architect := empty_architect |}) "app:serve"
                (served "localhost" 4200 false (Some "https://example.com") true)
                "https://example.com" eq_refl eq_refl
                ltac:(discriminate)) as H.
  cbv zeta in H. destruct H as (H1 & _ & _ & _ & H2 & _).
  split; [exact H1 | exact (H2 eq_refl)].
Defined.

(** *** Validation comes first *)

Lemma effects_script {A} (m : sync (Observable A)) :
  Rx.effects (script m) = all_effects m.
Proof.
  unfold script, all_effects. destruct m as [es [e|o]]; cbn [fst snd];
    induction es; simpl; congruence.
Qed.

Lemma each_effect_split {A} (Q : list Effect -> Effect -> Prop)
  (o : Observable A) (past : list Effect) :
  each_effect Q past o ->
  forall before e later,
    Rx.effects o = (before ++ e :: later)%list -> Q (past ++ before)%list e.
Proof.
  revert past. induction o; simpl; intros past H before e' later E;
    try (destruct before; discriminate).
  - eauto.
  - destruct H as [Hq Hk]. destruct before as [|b before]; simpl in E.
    + injection E as -> _. now rewrite app_nil_r.
    + injection E as -> E. specialize (IHo _ Hk _ _ _ E).
      now rewrite <- app_assoc in IHo.
Qed.

Lemma validated_later (architect : Architect.t) (past past' : list Effect)
  (config : BuilderConfiguration DevServerBuilderOptions) :
  incl past past' -> validated architect past config ->
  validated architect past' config.
Proof.
  intros Hincl (resolved & description & Hin & Hout).
  exists resolved, description. auto.
Qed.

Lemma each_value_later {A} (Q : list Effect -> A -> Prop) (o : Observable A) :
  (forall past past' a, incl past past' -> Q past a -> Q past' a) ->
  forall past past', incl past past' ->
  each_value Q past o -> each_value Q past' o.
Proof.
  intros Hmono. induction o; simpl; intros past past' Hincl H; auto.
  - destruct H. split; eauto.
  - eapply IHo; [|exact H]. apply incl_app_app; [assumption | apply incl_refl].
Qed.

Lemma each_effect_later {A} (Q : list Effect -> Effect -> Prop) (o : Observable A) :
  (forall past past' e, incl past past' -> Q past e -> Q past' e) ->
  forall past past', incl past past' ->
  each_effect Q past o -> each_effect Q past' o.
Proof.
  intros Hmono. induction o; simpl; intros past past' Hincl H; auto.
  - eauto.
  - destruct H. split; [eauto|].
    eapply IHo; [|eassumption]. apply incl_app_app; [assumption | apply incl_refl].
Qed.

Lemma each_value_deliver {A} (Q : list Effect -> A -> Prop) (past : list Effect)
  (vs : list A) (e : Rx.ending) :
  (forall v, In v vs -> Q past v) ->
  each_value Q past (Rx.deliver vs e).
Proof.
  induction vs as [|v vs IH]; simpl; intros H; [destruct e; exact I|].
  split; auto.
Qed.

Lemma each_value_tap {A} (Q : list Effect -> A -> Prop) (f : A -> sync unit)
  (o : Observable A) :
  (forall past past' a, incl past past' -> Q past a -> Q past' a) ->
  forall past, each_value Q past o -> each_value Q past (Rx.tap f o).
Proof.
  intros Hmono. induction o; simpl; intros past H; auto.
  destruct H as [Hq Hk].
  assert (Hgen : forall es past',
    incl past past' ->
    each_value Q past'
      (Rx.effects_before es
         match snd (f a) with
         | inl e => Rx.Error e
         | inr _ => Rx.Next a (Rx.tap f o)
         end)).
  { induction es as [|e es IHes]; simpl; intros past' Hincl.
    - destruct (snd (f a)); simpl; [exact I|]. split; [eauto|].
      apply IHo. eapply each_value_later; eauto.
    - apply IHes. apply incl_appl. assumption. }
  apply Hgen. apply incl_refl.
Qed.

Lemma each_effect_of_forall {A} (Q : list Effect -> Effect -> Prop)
  (o : Observable A) :
  Forall (fun e => forall past, Q past e) (Rx.effects o) ->
  forall past, each_effect Q past o.
Proof.
  induction o; simpl; intros H past; auto.
  inversion H; subst. split; auto.
Qed.

Lemma each_effect_map {A B} (Q : list Effect -> Effect -> Prop) (f : A -> B)
  (o : Observable A) :
  forall past, each_effect Q past o -> each_effect Q past (Rx.map f o).
Proof.
  induction o; simpl; intros past H; auto.
  destruct H. split; auto.
Qed.

Lemma each_value_map {A B} (Q : list Effect -> B -> Prop) (f : A -> B)
  (o : Observable A) :
  forall past, each_value (fun past a => Q past (f a)) past o ->
               each_value Q past (Rx.map f o).
Proof.
  induction o; simpl; intros past H; auto.
  destruct H. split; auto.
Qed.

Lemma each_value_trivial {A} (o : Observable A) (past : list Effect) :
  each_value (fun _ _ => True) past o.
Proof. revert past. induction o; simpl; auto. Qed.

Lemma each_effect_rethrow {A} (Q : list Effect -> Effect -> Prop)
  (o : Observable A) :
  forall past, each_effect Q past o ->
  each_effect Q past
    (Rx.catchError (fun error => Rx.Error (Js.new_Error error)) o).
Proof.
  induction o; simpl; intros past H; auto.
  destruct H. split; auto.
Qed.

Lemma each_effect_take {A} (Q : list Effect -> Effect -> Prop) (n : nat)
  (o : Observable A) :
  forall past, each_effect Q past o -> each_effect Q past (Rx.take n o).
Proof.
  revert n. induction o; intros [|n] past H; cbn [Rx.take each_effect] in *;
    auto.
  destruct H. split; [assumption|]. apply (IHo (S n)). assumption.
Qed.

Lemma each_effect_effects_before {A} (Q : list Effect -> Effect -> Prop)
  (es : list Effect) (o : Observable A) :
  Forall (fun e => forall past, Q past e) es ->
  (forall past, each_effect Q past o) ->
  forall past, each_effect Q past (Rx.effects_before es o).
Proof.
  intros Hes Ho. induction Hes; simpl; intros past; auto.
Qed.

(** Splitting a script that begins with effects. *)
Lemma each_effect_after {A} (Q : list Effect -> Effect -> Prop)
  (es : list Effect) (o : Observable A) (past : list Effect) :
  each_effect Q past (Rx.effects_before es o) <->
  each_effect Q past (Rx.effects_before es (@Rx.Complete _ A))
  /\ each_effect Q (past ++ es) o.
Proof.
  revert past. induction es as [|e es IH]; intros past; cbn [Rx.effects_before].
  - rewrite app_nil_r. cbn. tauto.
  - cbn [each_effect]. rewrite IH, <- app_assoc. cbn [app]. tauto.
Qed.

Lemma each_value_after {A} (Q : list Effect -> A -> Prop)
  (es : list Effect) (o : Observable A) (past : list Effect) :
  each_value Q past (Rx.effects_before es o) <-> each_value Q (past ++ es) o.
Proof.
  revert past. induction es as [|e es IH]; intros past; cbn [Rx.effects_before].
  - now rewrite app_nil_r.
  - cbn [each_value]. rewrite IH, <- app_assoc. reflexivity.
Qed.

Lemma each_effect_concat {A} (Q : list Effect -> Effect -> Prop)
  (a b : Observable A) :
  forall past,
  each_effect Q past a ->
  each_effect Q (past ++ Rx.effects a) b ->
  each_effect Q past (Rx.concat a b).
Proof.
  induction a; simpl; intros past Ha Hb; auto.
  - destruct Ha. split; [assumption|]. apply IHa; [assumption|].
    now rewrite <- app_assoc.
  - now rewrite app_nil_r in Hb.
Qed.

Lemma each_value_concat {A} (Q : list Effect -> A -> Prop) (a b : Observable A) :
  forall past,
  each_value Q past a ->
  each_value Q (past ++ Rx.effects a)%list b ->
  each_value Q past (Rx.concat a b).
Proof.
  induction a; simpl; intros past Ha Hb; auto.
  - destruct Ha. split; auto.
  - apply IHa; [assumption|]. now rewrite <- app_assoc.
  - now rewrite app_nil_r in Hb.
Qed.

(** **** What the inner streams deliver *)

(** Whatever is projected, the values of the result are those of the
    inner streams: if each of them is fine given what its projection did,
    so is each value of the result. *)
Section Delivered.
Context {A B : Type} (W : list Effect -> B -> Prop) (f : A -> sync (Observable B)).
Hypothesis W_later : forall past past' b, incl past past' -> W past b -> W past' b.
Hypothesis f_delivers :
  forall past a, each_value W past (Rx.projected (f a) (fun inner => inner)).

Lemma each_value_projected (a : A) (k : Observable B -> Observable B)
  (past : list Effect) :
  (forall inner, each_value W (past ++ fst (f a)) inner ->
                 each_value W (past ++ fst (f a)) (k inner)) ->
  each_value W past (Rx.projected (f a) k).
Proof.
  intros Hk. pose proof (f_delivers past a) as Hf.
  unfold Rx.projected in Hf |- *. revert Hf Hk.
  destruct (f a) as [es [e|inner]]; cbn [fst snd]; intros Hf Hk;
    apply each_value_after; apply each_value_after in Hf; [exact I|].
  now apply Hk.
Qed.

Lemma each_value_projectAll (buffer : list A) (last : Observable B) :
  forall past, each_value W past last ->
  each_value W past (Rx.projectAll f buffer last).
Proof.
  induction buffer as [|a buffer IH]; intros past Hlast; [exact Hlast|].
  cbn [Rx.projectAll]. apply each_value_projected.
  intros inner Hinner. apply each_value_concat; [assumption|].
  apply IH. eapply each_value_later; [apply W_later| |exact Hlast].
  apply incl_appl, incl_appl, incl_refl.
Qed.

Lemma each_value_drain (o : Observable A) :
  forall (buffer : list A) (inner : Observable B) (past : list Effect),
  each_value W past inner ->
  each_value W past (Rx.drain f o buffer inner).
Proof.
  induction o; intros buffer inner past Hi; cbn [Rx.drain each_value].
  - now apply IHo.
  - apply IHo. eapply each_value_later; [apply W_later| |exact Hi].
    apply incl_appl, incl_refl.
  - apply each_value_concat; [assumption|]. now apply each_value_projectAll.
  - exact I.
  - apply each_value_concat; [assumption|]. now apply each_value_projectAll.
Qed.

Lemma each_value_idle (open : Observable A -> Observable B -> Observable B)
  (o : Observable A) :
  (forall k inner past, each_value W past inner -> each_value W past (open k inner)) ->
  forall past, each_value W past (Rx.idle f open o).
Proof.
  intros Hopen. induction o; intros past; cbn [Rx.idle each_value]; auto.
  apply each_value_projected. intros inner Hinner. now apply Hopen.
Qed.

Lemma each_value_active (schedule : list Rx.turn) :
  forall (o : Observable A) (buffer : list A) (inner : Observable B)
         (past : list Effect),
  each_value W past inner ->
  each_value W past (Rx.active f schedule o buffer inner).
Proof.
  induction schedule as [|[|] schedule IH]; intros o buffer inner past Hi;
    cbn [Rx.active].
  - now apply each_value_drain.
  - destruct o; cbn [each_value]; auto.
    + apply IH. eapply each_value_later; [apply W_later| |exact Hi].
      apply incl_appl, incl_refl.
    + now apply each_value_drain.
    + now apply each_value_drain.
  - destruct inner; cbn [each_value] in *; auto.
    + destruct Hi. split; [assumption|]. now apply IH.
    + destruct buffer as [|a buffer].
      * apply each_value_idle. intros k inner past' Hinner. now apply IH.
      * apply each_value_projected. intros inner Hinner. now apply IH.
    + now apply each_value_drain.
Qed.

Lemma each_value_concatMap (schedule : list Rx.turn) (o : Observable A)
  (past : list Effect) :
  each_value W past (Rx.concatMap schedule f o).
Proof.
  unfold Rx.concatMap. apply each_value_idle.
  intros k inner past' Hinner. now apply each_value_active.
Qed.

End Delivered.

(** **** What the projections do *)

(** The effects of the result are those of the outer stream, of the
    projections and of the inner streams.  If each outer value is fine
    when it is delivered ([V]), and a projection of a fine value does
    fine things ([Q]), then everything the result does is fine, values
    being projected when they are delivered or later. *)
Section Projected.
Context {A B : Type} (Q : list Effect -> Effect -> Prop)
  (V : list Effect -> A -> Prop) (f : A -> sync (Observable B)).
Hypothesis Q_later : forall past past' e, incl past past' -> Q past e -> Q past' e.
Hypothesis V_later : forall past past' a, incl past past' -> V past a -> V past' a.
Hypothesis f_does :
  forall past a, V past a ->
                 each_effect Q past (Rx.projected (f a) (fun inner => inner)).

Lemma each_effect_projected (a : A) (k : Observable B -> Observable B)
  (past : list Effect) :
  V past a ->
  (forall inner, each_effect Q (past ++ fst (f a)) inner ->
                 each_effect Q (past ++ fst (f a)) (k inner)) ->
  each_effect Q past (Rx.projected (f a) k).
Proof.
  intros Ha Hk. pose proof (f_does past a Ha) as Hf.
  unfold Rx.projected in Hf |- *. revert Hf Hk.
  destruct (f a) as [es [e|inner]]; cbn [fst snd]; intros Hf Hk;
    apply each_effect_after; apply each_effect_after in Hf as [Hes Hinner];
    (split; [assumption|]); [exact I|].
  now apply Hk.
Qed.

Lemma Forall_later (past past' : list Effect) (buffer : list A) :
  incl past past' -> Forall (V past) buffer -> Forall (V past') buffer.
Proof.
  intros Hincl H. eapply Forall_impl; [|exact H].
  intros a. now apply V_later.
Qed.

Lemma each_effect_projectAll (buffer : list A) (last : Observable B) :
  forall past, Forall (V past) buffer -> each_effect Q past last ->
  each_effect Q past (Rx.projectAll f buffer last).
Proof.
  induction buffer as [|a buffer IH]; intros past Hbuffer Hlast; [exact Hlast|].
  inversion Hbuffer; subst.
  cbn [Rx.projectAll]. apply each_effect_projected; [assumption|].
  intros inner Hinner. apply each_effect_concat; [assumption|].
  assert (Hincl : incl past ((past ++ fst (f a)) ++ Rx.effects inner))
    by apply incl_appl, incl_appl, incl_refl.
  apply IH.
  - now apply (Forall_later past).
  - now apply (each_effect_later Q last Q_later past).
Qed.

Lemma each_effect_drain (o : Observable A) :
  forall (buffer : list A) (inner : Observable B) (past : list Effect),
  each_effect Q past o -> each_value V past o ->
  Forall (V past) buffer -> each_effect Q past inner ->
  each_effect Q past (Rx.drain f o buffer inner).
Proof.
  induction o; intros buffer inner past Ho Hv Hbuffer Hi;
    cbn [Rx.drain each_effect each_value] in *.
  - destruct Hv as [Ha Hv]. apply IHo; try assumption.
    apply Forall_app. split; [assumption|]. now constructor.
  - destruct Ho as [He Ho]. split; [assumption|].
    assert (Hincl : incl past (past ++ [e])) by apply incl_appl, incl_refl.
    apply IHo; try assumption.
    + now apply (Forall_later past).
    + now apply (each_effect_later Q inner Q_later past).
  - apply each_effect_concat; [assumption|].
    assert (Hincl : incl past (past ++ Rx.effects inner))
      by apply incl_appl, incl_refl.
    apply each_effect_projectAll; [now apply (Forall_later past) | exact I].
  - exact I.
  - apply each_effect_concat; [assumption|].
    assert (Hincl : incl past (past ++ Rx.effects inner))
      by apply incl_appl, incl_refl.
    apply each_effect_projectAll; [now apply (Forall_later past) | exact I].
Qed.

Lemma each_effect_idle (open : Observable A -> Observable B -> Observable B)
  (o : Observable A) :
  (forall k inner past,
      each_effect Q past k -> each_value V past k -> each_effect Q past inner ->
      each_effect Q past (open k inner)) ->
  forall past, each_effect Q past o -> each_value V past o ->
  each_effect Q past (Rx.idle f open o).
Proof.
  intros Hopen. induction o; intros past Ho Hv;
    cbn [Rx.idle each_effect each_value] in *; auto.
  - destruct Hv as [Ha Hv]. apply each_effect_projected; [assumption|].
    intros inner Hinner.
    assert (Hincl : incl past (past ++ fst (f a))) by apply incl_appl, incl_refl.
    apply Hopen; [|  |assumption].
    + now apply (each_effect_later Q o Q_later past).
    + now apply (each_value_later V o V_later past).
  - destruct Ho. split; auto.
Qed.

Lemma each_effect_active (schedule : list Rx.turn) :
  forall (o : Observable A) (buffer : list A) (inner : Observable B)
         (past : list Effect),
  each_effect Q past o -> each_value V past o ->
  Forall (V past) buffer -> each_effect Q past inner ->
  each_effect Q past (Rx.active f schedule o buffer inner).
Proof.
  induction schedule as [|[|] schedule IH];
    intros o buffer inner past Ho Hv Hbuffer Hi; cbn [Rx.active].
  - now apply each_effect_drain.
  - destruct o; cbn [each_effect each_value] in *; auto.
    + destruct Hv as [Ha Hv]. apply IH; try assumption.
      apply Forall_app. split; [assumption|]. now constructor.
    + destruct Ho as [He Ho]. split; [assumption|].
      assert (Hincl : incl past (past ++ [e])) by apply incl_appl, incl_refl.
      apply IH; try assumption.
      * now apply (Forall_later past).
      * now apply (each_effect_later Q inner Q_later past).
    + now apply each_effect_drain.
    + now apply each_effect_drain.
  - destruct inner; cbn [each_effect] in *; auto.
    + destruct Hi as [He Hi]. split; [assumption|].
      assert (Hincl : incl past (past ++ [e])) by apply incl_appl, incl_refl.
      apply IH; try assumption.
      * now apply (each_effect_later Q o Q_later past).
      * now apply (each_value_later V o V_later past).
      * now apply (Forall_later past).
    + destruct buffer as [|a buffer].
      * apply each_effect_idle; [|assumption|assumption].
        intros k inner past' Hk Hkv Hinner. apply IH; auto.
      * inversion Hbuffer; subst.
        apply each_effect_projected; [assumption|].
        intros inner Hinner.
        assert (Hincl : incl past (past ++ fst (f a)))
          by apply incl_appl, incl_refl.
        apply IH; try assumption.
        -- now apply (each_effect_later Q o Q_later past).
        -- now apply (each_value_later V o V_later past).
        -- now apply (Forall_later past).
    + now apply each_effect_drain.
Qed.

Lemma each_effect_concatMap (schedule : list Rx.turn) (o : Observable A)
  (past : list Effect) :
  each_effect Q past o -> each_value V past o ->
  each_effect Q past (Rx.concatMap schedule f o).
Proof.
  unfold Rx.concatMap. apply each_effect_idle.
  intros k inner past' Hk Hkv Hinner. apply each_effect_active; auto.
Qed.

End Projected.

(** The validations of [startDevServer], as a stream of configurations. *)
Lemma validations_validated (architect : Architect.t)
  (resolved : BuilderConfiguration DevServerBuilderOptions)
  (schedule : list Rx.turn) (descriptions : Observable BuilderDescription)
  (past : list Effect) :
  each_value (validated architect) past
    (Rx.concatMap schedule
       (fun description =>
          Rx.perform (Call (ValidateBuilderOptions resolved description)) ;;;
          Rx.ret
            (Rx.subscribe
               (Architect.validateBuilderOptions architect resolved description)))
       descriptions).
Proof.
  apply each_value_concatMap.
  - intros p p' c Hincl. now apply validated_later.
  - intros p d. cbn. apply each_value_deliver. intros v Hv.
    exists resolved, d. split; [|exact Hv].
    apply in_or_app. right. now left.
Qed.

(** Executing what a stream of validated configurations delivers. *)
Lemma executions_validated (architect : Architect.t) (schedule : list Rx.turn)
  (o : Observable (BuilderConfiguration DevServerBuilderOptions)) :
  forall past,
  each_value (validated architect) past o ->
  Forall (fun e => forall config, e <> Call (ArchitectRun config)) (Rx.effects o) ->
  each_effect (runs_validated architect) past
    (Rx.concatMap schedule
       (fun config =>
          Rx.perform (Call (ArchitectRun config)) ;;;
          Rx.ret (Rx.subscribe (Architect.run architect config)))
       o).
Proof.
  intros past Hv Hne.
  apply (each_effect_concatMap (runs_validated architect) (validated architect)).
  - intros p p' e Hincl He config E. eapply validated_later; eauto.
  - intros p p' c Hincl. now apply validated_later.
  - intros p c Hc. cbn. split.
    + intros config E. injection E as <-. exact Hc.
    + apply each_effect_of_forall. rewrite effects_subscribe. constructor.
  - apply each_effect_of_forall. eapply Forall_impl; [|exact Hne].
    intros e He p config E. exfalso. eapply He; eauto.
  - exact Hv.
Qed.

Lemma recordBaseUrl_not_run (imports : Imports) (devServerTarget : string)
  (builderConfig : BuilderConfiguration DevServerBuilderOptions) :
  Forall (fun e => forall config, e <> Call (ArchitectRun config))
    (fst (recordBaseUrl imports devServerTarget builderConfig)).
Proof.
  unfold recordBaseUrl. case_answers; repeat constructor; discriminate.
Qed.

Lemma never_run_vacuous (architect : Architect.t) (es : list Effect) :
  Forall (fun e => forall config, e <> Call (ArchitectRun config)) es ->
  Forall (fun e => forall past, runs_validated architect past e) es.
Proof.
  intros H. eapply Forall_impl; [|exact H].
  intros e He past config E. exfalso. eapply He; eauto.
Qed.

(** What the tap of [startDevServer] is given, before any execution. *)
Lemma validations_not_run (P : Effect -> Prop) (imports : Imports)
  (architect : Architect.t) (devServerTarget : string)
  (resolved : BuilderConfiguration DevServerBuilderOptions) :
  (forall d, P (Call (ValidateBuilderOptions resolved d))) ->
  (forall c, Forall P (fst (recordBaseUrl imports devServerTarget c))) ->
  Forall P
    (Rx.effects
       (Rx.tap (recordBaseUrl imports devServerTarget)
          (Rx.concatMap (atValidation (arrival imports))
             (fun description =>
                Rx.perform (Call (ValidateBuilderOptions resolved description)) ;;;
                Rx.ret
                  (Rx.subscribe
                     (Architect.validateBuilderOptions architect resolved
                        description)))
             (Rx.subscribe (Architect.getBuilderDescription architect resolved))))).
Proof.
  intros Hv Ha. apply effects_tap; [exact Ha|].
  apply effects_concatMap.
  - intros d. cbn. repeat constructor. apply Hv.
  - intros d inner E. cbn in E. injection E as <-.
    rewrite effects_subscribe. constructor.
  - rewrite effects_subscribe. constructor.
Qed.

Lemma startDevServer_stream_order (imports : Imports) (this : TestCafeBuilder)
  (devServerTarget : string) (isWatching : bool) (o : Observable BuildEvent) :
  snd (startDevServer imports this devServerTarget isWatching) = inr o ->
  forall past, each_effect (runs_validated (architect (context this))) past o.
Proof.
  unfold startDevServer, call. cbn.
  destruct (Architect.getBuilderConfiguration _ _) as [e|resolved]; cbn;
    [discriminate|].
  intros H past. injection H as <-.
  apply executions_validated.
  - apply each_value_tap.
    + intros p p' c Hincl. now apply validated_later.
    + apply validations_validated.
  - apply validations_not_run; [discriminate|].
    intros c. apply recordBaseUrl_not_run.
Qed.

Lemma startDevServer_sync_not_run (imports : Imports) (this : TestCafeBuilder)
  (devServerTarget : string) (isWatching : bool) :
  Forall (fun e => forall config, e <> Call (ArchitectRun config))
    (fst (startDevServer imports this devServerTarget isWatching)).
Proof.
  unfold startDevServer, call. cbn.
  destruct (Architect.getBuilderConfiguration _ _); cbn;
    repeat constructor; discriminate.
Qed.

Lemma startDevServer_order (imports : Imports) (this : TestCafeBuilder)
  (devServerTarget : string) (isWatching : bool) :
  forall past,
  each_effect (runs_validated (architect (context this))) past
    (script (startDevServer imports this devServerTarget isWatching)).
Proof.
  unfold script. apply each_effect_effects_before.
  - apply never_run_vacuous, startDevServer_sync_not_run.
  - intros past.
    destruct (snd (startDevServer _ _ _ _)) as [e|o] eqn:E; [exact I|].
    eapply startDevServer_stream_order; eauto.
Qed.

Lemma initTestCafe_not_run (imports : Imports) (this : TestCafeBuilder)
  (srcPath : string) (browsers : option (list string)) :
  Forall (fun e => forall config, e <> Call (ArchitectRun config))
    (Rx.effects (initTestCafe imports this srcPath browsers)).
Proof.
  eapply Forall_impl; [|apply initTestCafe_effects].
  intros e He config ->. discriminate.
Qed.

(** The stream of [run] keeps an order that the dev-server stream keeps
    and the session does not disturb. *)
Lemma piped_order (Q : list Effect -> Effect -> Prop) (imports : Imports)
  (this : TestCafeBuilder)
  (builderConfig : BuilderConfiguration TestCafeBuilderOptions)
  (build : Observable (option BuildEvent)) :
  (forall past past' e, incl past past' -> Q past e -> Q past' e) ->
  (forall past,
      each_effect Q past
        (initTestCafe imports this (root builderConfig)
           (browsers (options builderConfig)))) ->
  forall past, each_effect Q past build ->
  each_effect Q past (piped imports this builderConfig build).
Proof.
  intros Hlater Hsession past Hbuild. unfold piped.
  apply each_effect_rethrow, each_effect_take.
  apply (each_effect_concatMap Q (fun _ _ => True)).
  - exact Hlater.
  - trivial.
  - intros p a _. rewrite projected_called. apply Hsession.
  - exact Hbuild.
  - apply each_value_trivial.
Qed.

Lemma run_order (imports : Imports) (this : TestCafeBuilder)
  (builderConfig : BuilderConfiguration TestCafeBuilderOptions) :
  forall past,
  each_effect (runs_validated (architect (context this))) past
    (script (run imports this builderConfig)).
Proof.
  assert (Hlater : forall past past' e, incl past past' ->
    runs_validated (architect (context this)) past e ->
    runs_validated (architect (context this)) past' e).
  { intros p p' e Hincl He config E. eapply validated_later; eauto. }
  assert (Hsession : forall past,
    each_effect (runs_validated (architect (context this))) past
      (initTestCafe imports this (root builderConfig)
         (browsers (options builderConfig)))).
  { apply each_effect_of_forall, never_run_vacuous, initTestCafe_not_run. }
  rewrite run_piped. cbv zeta. unfold script.
  destruct (Js.truthy_opt (devServerTarget (options builderConfig))).
  - pose proof (startDevServer_sync_not_run imports this
                  (NodeUrl.or_empty (devServerTarget (options builderConfig))) false)
      as Hsync.
    pose proof (startDevServer_stream_order imports this
                  (NodeUrl.or_empty (devServerTarget (options builderConfig))) false)
      as Hstream.
    destruct (startDevServer _ _ _ _) as [es [e|o]]; cbn [fst snd] in *.
    + apply each_effect_effects_before; [now apply never_run_vacuous|].
      intros past. exact I.
    + apply each_effect_effects_before; [now apply never_run_vacuous|].
      intros past. apply piped_order; [assumption | assumption|].
      apply each_effect_map. now apply Hstream.
  - cbn [fst snd Rx.effects_before]. intros past.
    apply piped_order; [assumption | assumption | exact I].
Qed.

Lemma count_positive (p : Event -> bool) (es : list Effect) :
  count p es <> 0%nat ->
  exists before e later, es = (before ++ Call e :: later)%list /\ p e = true.
Proof.
  unfold count. induction es as [|x es IH]; simpl; [congruence|].
  destruct x as [ev|v|v]; simpl.
  - destruct (p ev) eqn:Hp.
    + intros _. now exists [], ev, es.
    + intros H. destruct (IH H) as (b & e & l & -> & He).
      now exists (Call ev :: b), e, l.
  - intros H. destruct (IH H) as (b & e & l & -> & He).
    now exists (AssignComputedTestCafeBaseUrl v :: b), e, l.
  - intros H. destruct (IH H) as (b & e & l & -> & He).
    now exists (AssignTscProcess v :: b), e, l.
Qed.

(** While an inner stream that fails at once is open, only a failure of
    the outer stream can come first. *)
Lemma active_failed {A B : Type} (f : A -> sync (Observable B))
  (schedule : list Rx.turn) (e : Js.thrown) (ending : Rx.ending) :
  forall (vs buffer : list A),
  exists e',
    (e' = e \/ ending = Rx.Fails e')
    /\ Rx.active f schedule (Rx.deliver vs ending) buffer (Rx.Error e)
       = Rx.Error e'.
Proof.
  assert (Hdrain : forall (vs buffer : list A),
    exists e',
      (e' = e \/ ending = Rx.Fails e')
      /\ Rx.drain f (Rx.deliver vs ending) buffer (Rx.Error e) = Rx.Error e').
  { induction vs as [|v vs IH]; intros buffer; cbn [Rx.deliver Rx.drain].
    - destruct ending as [|e'|]; cbn; eauto.
    - apply IH. }
  induction schedule as [|[|] schedule IH]; intros vs buffer; cbn [Rx.active].
  - apply Hdrain.
  - destruct vs as [|v vs]; cbn [Rx.deliver].
    + destruct ending as [|e'|]; cbn; eauto.
    + apply IH.
  - eauto.
Qed.

(** C8. A target is executed only with a configuration that a validation,
    asked for earlier, has delivered: in [startDevServer] and in [run],
    every call that executes the target comes after the call that
    validates, and executes what that validation let through.  If no
    validation lets anything through, no target is executed; and when the
    validation of the first description fails, the run ends in an error
    right after the call that validates: the target is not executed and
    no TestCafe session is started.  The error is that of the validation,
    unless the stream of descriptions, still open, fails before it
    arrives. *)
Theorem validation_precedes_execution (imports : Imports) (this : TestCafeBuilder)
  (builderConfig : BuilderConfiguration TestCafeBuilderOptions)
  (devServerTarget0 : string) (isWatching : bool) :
  let architect := architect (context this) in
  (forall before config later,
      all_effects (startDevServer imports this devServerTarget0 isWatching)
      = (before ++ Call (ArchitectRun config) :: later)%list ->
      validated architect before config)
  /\ (forall before config later,
        all_effects (run imports this builderConfig)
        = (before ++ Call (ArchitectRun config) :: later)%list ->
        validated architect before config)
  /\ ((forall resolved description,
          Rx.emits (Architect.validateBuilderOptions architect resolved description)
          = []) ->
      count is_architectRun (all_effects (run imports this builderConfig)) = 0%nat)
  /\ (forall target resolved d ds ending e,
        devServerTarget (options builderConfig) = Some target ->
        Js.truthy_string target = true ->
        Architect.getBuilderConfiguration architect (targetSpec target false)
        = inr resolved ->
        Architect.getBuilderDescription architect resolved
        = Rx.Source (d :: ds) ending ->
        Architect.validateBuilderOptions architect resolved d
        = Rx.Source [] (Rx.Fails e) ->
        exists e',
          (e' = e \/ ending = Rx.Fails e')
          /\ run imports this builderConfig
             = ([Call (GetBuilderConfiguration (targetSpec target false));
                 Call (GetBuilderDescription resolved)],
                inr (Rx.Do (Call (ValidateBuilderOptions resolved d))
                       (Rx.Error (Js.new_Error e'))))).
Proof.
  intros architect.
  assert (Hstart : forall before config later,
    all_effects (startDevServer imports this devServerTarget0 isWatching)
    = (before ++ Call (ArchitectRun config) :: later)%list ->
    validated architect before config).
  { intros before config later E. rewrite <- effects_script in E.
    exact (each_effect_split _ _ []
             (startDevServer_order imports this devServerTarget0 isWatching [])
             before _ later E config eq_refl). }
  assert (Hrun : forall before config later,
    all_effects (run imports this builderConfig)
    = (before ++ Call (ArchitectRun config) :: later)%list ->
    validated architect before config).
  { intros before config later E. rewrite <- effects_script in E.
    exact (each_effect_split _ _ []
             (run_order imports this builderConfig [])
             before _ later E config eq_refl). }
  split; [exact Hstart|]. split; [exact Hrun|]. split.
  - intros Hnone.
    destruct (Nat.eq_dec (count is_architectRun
                            (all_effects (run imports this builderConfig))) 0)
      as [E|E]; [exact E|].
    apply count_positive in E as (before & e & later & E & He).
    destruct e; try discriminate.
    destruct (Hrun _ _ _ E) as (resolved & description & _ & Hin).
    rewrite Hnone in Hin. destruct Hin.
  - intros target resolved d ds ending e Htarget Htruthy Hconfig Hdesc Hval.
    rewrite run_piped. cbv zeta. rewrite Htarget.
    cbn [Js.truthy_opt NodeUrl.or_empty]. rewrite Htruthy.
    unfold startDevServer, call. fold architect. rewrite Hconfig.
    unfold Rx.bind at 1 2. cbn [fst snd Rx.perform Rx.ret app].
    unfold Rx.subscribe at 3. rewrite Hdesc.
    cbn [Rx.emits Rx.ends Rx.deliver]. unfold Rx.concatMap at 2.
    cbn [Rx.idle]. unfold Rx.projected at 1.
    unfold Rx.bind, Rx.perform, Rx.ret. cbn [fst snd app Rx.effects_before].
    rewrite Hval.
    change (Rx.subscribe {| Rx.emits := []; Rx.ends := Rx.Fails e |})
      with (@Rx.Error Effect (BuilderConfiguration DevServerBuilderOptions) e).
    match goal with
    | |- context [Rx.active ?f ?s (Rx.deliver ds ending) [] (Rx.Error e)] =>
        destruct (active_failed f s e ending ds []) as (e' & He' & ->)
    end.
    exists e'. split; [exact He'|]. reflexivity.
Qed.

Lemma validation_precedes_execution_witness :
  run (imports_with (obliging_testcafe 0) Js.Undefined)
    (new {| architect := workspace refusing |})
    (e2e_config (Some "app:serve:production"))
  = ([Call (GetBuilderConfiguration (targetSpec "app:serve:production" false));
      Call (GetBuilderDescription (served "0.0.0.0" 4200 false None false))],
     inr (Rx.Do (Call (ValidateBuilderOptions
                         (served "0.0.0.0" 4200 false None false)
                         dev_server_description))
            (Rx.Error
               (Js.new_Error
                  (Js.Err "SchemaValidationException" "Schema validation failed."))))).
Proof.
  pose proof (validation_precedes_execution
                (imports_with (obliging_testcafe 0) Js.Undefined)
                (new {| architect := workspace refusing |})
                (e2e_config (Some "app:serve:production")) "app:serve" false) as H.
  cbv zeta in H. destruct H as (_ & _ & _ & H).
  destruct (H "app:serve:production" (served "0.0.0.0" 4200 false None false)
              dev_server_description [] Rx.Completes
              (Js.Err "SchemaValidationException" "Schema validation failed.")
              eq_refl eq_refl eq_refl eq_refl eq_refl) as (e' & [->|E] & Hrun);
    [exact Hrun | discriminate E].
Defined.

(** *** One resolution, watch off, at most one event *)

Lemma recordBaseUrl_only_assigns (P : Effect -> Prop) (imports : Imports)
  (devServerTarget : string)
  (builderConfig : BuilderConfiguration DevServerBuilderOptions) :
  (forall u, P (AssignComputedTestCafeBaseUrl u)) ->
  Forall P (fst (recordBaseUrl imports devServerTarget builderConfig)).
Proof.
  intros HP. unfold recordBaseUrl. case_answers; repeat constructor; apply HP.
Qed.

Lemma after_resolution_not_resolution ev :
  after_resolution (Call ev) = true -> is_getBuilderConfiguration ev = false.
Proof. destruct ev; simpl; congruence. Qed.

(** What [run] does with a dev-server target, in terms of what
    [startDevServer] did and returned. *)
Lemma run_all_effects (imports : Imports) (this : TestCafeBuilder)
  (builderConfig : BuilderConfiguration TestCafeBuilderOptions) (target : string) :
  devServerTarget (options builderConfig) = Some target ->
  Js.truthy_string target = true ->
  let started := startDevServer imports this target false in
  all_effects (run imports this builderConfig)
  = (fst started ++
     match snd started with
     | inr o => Rx.effects (piped imports this builderConfig (Rx.map Some o))
     | inl _ => []
     end)%list
  /\ emitted (run imports this builderConfig)
     = match snd started with
       | inr o => Rx.values (piped imports this builderConfig (Rx.map Some o))
       | inl _ => []
       end.
Proof.
  intros Htarget Htruthy started. rewrite run_piped. cbv zeta.
  rewrite Htarget. cbn [Js.truthy_opt NodeUrl.or_empty]. rewrite Htruthy.
  subst started. unfold all_effects, emitted.
  destruct (startDevServer _ _ _ _) as [es [e|o]]; split; reflexivity.
Qed.

Lemma startDevServer_sync (imports : Imports) (this : TestCafeBuilder)
  (devServerTarget : string) (isWatching : bool) :
  exists rest,
    fst (startDevServer imports this devServerTarget isWatching)
    = Call (GetBuilderConfiguration (targetSpec devServerTarget isWatching)) :: rest
    /\ Forall (fun e => exists c, e = Call (GetBuilderDescription c)) rest.
Proof.
  unfold startDevServer, call. cbn.
  destruct (Architect.getBuilderConfiguration _ _) as [e|resolved]; cbn;
    eexists; (split; [reflexivity|]); repeat constructor. eauto.
Qed.

Lemma run_after_resolution (P : Effect -> Prop) (imports : Imports)
  (this : TestCafeBuilder)
  (builderConfig : BuilderConfiguration TestCafeBuilderOptions) (target : string) :
  devServerTarget (options builderConfig) = Some target ->
  Js.truthy_string target = true ->
  (forall c, P (Call (GetBuilderDescription c))) ->
  (forall resolved d,
      Architect.getBuilderConfiguration (architect (context this))
        (targetSpec target false) = inr resolved ->
      P (Call (ValidateBuilderOptions resolved d))) ->
  (forall u, P (AssignComputedTestCafeBaseUrl u)) ->
  (forall c, P (Call (ArchitectRun c))) ->
  (forall e, runner_effect e = true -> P e) ->
  exists rest,
    all_effects (run imports this builderConfig)
    = Call (GetBuilderConfiguration (targetSpec target false)) :: rest
    /\ Forall P rest.
Proof.
  intros Htarget Htruthy Hd Hv Ha Hr Hs.
  destruct (run_all_effects imports this builderConfig target Htarget Htruthy)
    as [-> _].
  destruct (startDevServer_sync imports this target false) as (rest & -> & Hrest).
  eexists. split; [reflexivity|].
  apply Forall_app. split.
  - eapply Forall_impl; [|exact Hrest]. intros e [c ->]. apply Hd.
  - destruct (snd (startDevServer imports this target false)) as [e|o] eqn:E;
      [constructor|].
    apply piped_forall.
    + eapply Forall_impl; [|apply initTestCafe_effects]. exact Hs.
    + rewrite effects_map.
      apply (startDevServer_stream_forall P imports this target false o E);
        try assumption.
      intros c. now apply recordBaseUrl_only_assigns.
Qed.

Lemma run_resolves_once (imports : Imports) (this : TestCafeBuilder)
  (builderConfig : BuilderConfiguration TestCafeBuilderOptions) (target : string) :
  devServerTarget (options builderConfig) = Some target ->
  Js.truthy_string target = true ->
  exists rest,
    all_effects (run imports this builderConfig)
    = Call (GetBuilderConfiguration (targetSpec target false)) :: rest
    /\ count is_getBuilderConfiguration rest = 0%nat.
Proof.
  intros Htarget Htruthy.
  destruct (run_after_resolution (fun e => after_resolution e = true)
              imports this builderConfig target Htarget Htruthy)
    as (rest & E & Hrest); try reflexivity.
  { intros e He. destruct e as [[]| |]; simpl in *; congruence. }
  exists rest. split; [exact E|].
  apply (count_outside is_getBuilderConfiguration after_resolution);
    [apply after_resolution_not_resolution | exact Hrest].
Qed.

Lemma run_validates_resolution (imports : Imports) (this : TestCafeBuilder)
  (builderConfig : BuilderConfiguration TestCafeBuilderOptions) (target : string) :
  devServerTarget (options builderConfig) = Some target ->
  Js.truthy_string target = true ->
  Forall (fun e => forall c d,
            e = Call (ValidateBuilderOptions c d) ->
            Architect.getBuilderConfiguration (architect (context this))
              (targetSpec target false) = inr c)
    (all_effects (run imports this builderConfig)).
Proof.
  intros Htarget Htruthy.
  destruct (run_after_resolution
              (fun e => forall c d,
                 e = Call (ValidateBuilderOptions c d) ->
                 Architect.getBuilderConfiguration (architect (context this))
                   (targetSpec target false) = inr c)
              imports this builderConfig target Htarget Htruthy)
    as (rest & -> & Hrest); try discriminate.
  - intros resolved d E c d' H. injection H as <- _. exact E.
  - intros e He c d ->. discriminate.
  - constructor; [discriminate | exact Hrest].
Qed.

(** **** When the one event is delivered *)

Lemma values_concat_first {A : Type} (a b : Observable A) (v : A) (vs : list A) :
  Rx.values a = v :: vs -> firstn 1 (Rx.values (Rx.concat a b)) = [v].
Proof.
  induction a; cbn [Rx.concat Rx.values]; intros H; try discriminate.
  - now injection H as -> _.
  - auto.
Qed.

Lemma outcome_take1_fails {A : Type} (o : Observable A) (e : Js.thrown) :
  Rx.outcome (Rx.take 1 o) = Rx.Fails e -> Rx.values (Rx.take 1 o) = [].
Proof.
  induction o; cbn [Rx.take Rx.outcome Rx.values]; try reflexivity; auto.
  rewrite take_0. discriminate.
Qed.

Lemma values_idle_none {A B : Type} (f : A -> sync (Observable B))
  (open : Observable A -> Observable B -> Observable B) (o : Observable A) :
  has_value o = false -> Rx.values (Rx.idle f open o) = [].
Proof. induction o; cbn; auto; discriminate. Qed.

Lemma values_all {A : Type} (P : A -> Prop) (o : Observable A) (past : list Effect) :
  each_value (fun _ a => P a) past o <-> forall a, In a (Rx.values o) -> P a.
Proof.
  revert past. induction o; intros past; cbn [each_value Rx.values];
    try (split; [intros _ a [] | trivial]).
  - rewrite IHo. split.
    + intros [Ha Hk] b [<-|Hb]; auto.
    + intros H. split; [apply H; now left | intros b Hb; apply H; now right].
  - apply IHo.
Qed.

Section FirstValue.
Context {A B : Type} (f : A -> sync (Observable B)) (event : B).

Lemma values_take1_drain (o : Observable A) :
  forall (buffer : list A) (inner : Observable B),
  never_fails o -> first_is event inner ->
  Rx.values (Rx.take 1 (Rx.drain f o buffer inner)) = [event].
Proof.
  induction o; intros buffer inner Ho [later Hi];
    cbn [Rx.drain Rx.take Rx.values].
  - apply IHo; [exact Ho | now exists later].
  - apply IHo; [exact Ho | now exists later].
  - rewrite values_take. eapply values_concat_first; eauto.
  - exfalso. now apply (Ho e).
  - rewrite values_take. eapply values_concat_first; eauto.
Qed.

Lemma values_take1_active (schedule : list Rx.turn) :
  forall (o : Observable A) (buffer : list A) (inner : Observable B),
  never_fails o -> first_is event inner ->
  Rx.values (Rx.take 1 (Rx.active f schedule o buffer inner)) = [event].
Proof.
  induction schedule as [|[|] schedule IH]; intros o buffer inner Ho Hi;
    cbn [Rx.active].
  - now apply values_take1_drain.
  - destruct o; cbn [Rx.take Rx.values].
    + now apply IH.
    + now apply IH.
    + now apply values_take1_drain.
    + exfalso. now apply (Ho e).
    + now apply values_take1_drain.
  - destruct Hi as [later Hi].
    destruct inner; cbn [Rx.values] in Hi; try discriminate;
      cbn [Rx.take Rx.values].
    + injection Hi as -> _. now rewrite take_0.
    + apply IH; [exact Ho | now exists later].
Qed.

End FirstValue.

Lemma in_firstn {A} (n : nat) (l : list A) (a : A) : In a (firstn n l) -> In a l.
Proof.
  revert l. induction n as [|n IH]; intros [|x l]; cbn; try tauto.
  intros [->|H]; auto.
Qed.

Lemma outcome_rethrow {A} (o : Observable A) :
  Rx.outcome (Rx.catchError (fun error => Rx.Error (Js.new_Error error)) o)
  = rethrown (Rx.outcome o).
Proof. induction o; simpl; auto. Qed.

Lemma outcome_map {A B} (f : A -> B) (o : Observable A) :
  Rx.outcome (Rx.map f o) = Rx.outcome o.
Proof. induction o; simpl; auto. Qed.

Lemma never_fails_map {A B} (f : A -> B) (o : Observable A) :
  never_fails o -> never_fails (Rx.map f o).
Proof. intros H e. rewrite outcome_map. apply H. Qed.

(** The stream of [run] delivers the event of the session when the
    dev-server stream delivers something and does not fail. *)
Lemma piped_first (imports : Imports) (this : TestCafeBuilder)
  (builderConfig : BuilderConfiguration TestCafeBuilderOptions)
  (event : BuildEvent) (build : Observable (option BuildEvent)) :
  has_value build = true -> never_fails build ->
  first_is event
    (initTestCafe imports this (root builderConfig)
       (browsers (options builderConfig))) ->
  Rx.values (piped imports this builderConfig build) = [event].
Proof.
  unfold piped. rewrite values_rethrow. unfold Rx.concatMap.
  generalize (initTestCafe imports this (root builderConfig)
                (browsers (options builderConfig))) as session.
  intros session Hvalue Hbuild Hsession.
  induction build; cbn [has_value] in Hvalue; try discriminate;
    cbn [Rx.idle Rx.take Rx.values].
  - destruct Hsession as [later Hsession].
    destruct session; cbn [Rx.values] in Hsession; try discriminate;
      cbn [Rx.called Rx.projected fst snd Rx.effects_before Rx.take Rx.values].
    + apply values_take1_active; [exact Hbuild|].
      exists later. exact Hsession.
    + apply values_take1_active; [exact Hbuild|].
      exists later. exact Hsession.
  - apply IHbuild; assumption.
Qed.

(** It delivers nothing but an event of the session, and nothing unless
    the dev-server stream delivers something. *)
Lemma piped_values (imports : Imports) (this : TestCafeBuilder)
  (builderConfig : BuilderConfiguration TestCafeBuilderOptions)
  (event : BuildEvent) (build : Observable (option BuildEvent)) :
  In event (Rx.values (piped imports this builderConfig build)) ->
  In event
    (Rx.values (initTestCafe imports this (root builderConfig)
                  (browsers (options builderConfig))))
  /\ has_value build = true.
Proof.
  unfold piped. rewrite values_rethrow, values_take. intros Hin.
  apply in_firstn in Hin. split.
  - revert event Hin. apply (values_all _ _ []).
    apply each_value_concatMap; [trivial|].
    intros past a. rewrite projected_called. now apply values_all.
  - destruct (has_value build) eqn:E; [reflexivity|].
    unfold Rx.concatMap in Hin. rewrite values_idle_none in Hin by assumption.
    destruct Hin.
Qed.

Lemma piped_fails (imports : Imports) (this : TestCafeBuilder)
  (builderConfig : BuilderConfiguration TestCafeBuilderOptions)
  (build : Observable (option BuildEvent)) (e : Js.thrown) :
  Rx.outcome (piped imports this builderConfig build) = Rx.Fails e ->
  Rx.values (piped imports this builderConfig build) = [].
Proof.
  unfold piped. rewrite outcome_rethrow, values_rethrow.
  match goal with |- rethrown ?x = _ -> _ => destruct x eqn:E end;
    try discriminate.
  intros _. eapply outcome_take1_fails; eauto.
Qed.

(** C7, as the code has it. A run with a dev-server target resolves the
    target once, with the watch option overridden to false whatever the
    workspace says, and what is executed is what validation made of that
    resolution: with an architect that applies the overrides it is given
    and a validation that leaves [watch] alone, the options are executed
    with watch off.  The run delivers at most one event: the event of the
    TestCafe session, and only if the dev-server stream delivers one;
    exactly one when the dev-server stream delivers an event and does not
    fail and the session resolves; none when something fails first, for a
    stream that ends in failure has delivered nothing. *)
Theorem run_watch_off_at_most_one (imports : Imports) (this : TestCafeBuilder)
  (builderConfig : BuilderConfiguration TestCafeBuilderOptions) (target : string) :
  devServerTarget (options builderConfig) = Some target ->
  Js.truthy_string target = true ->
  let architect := architect (context this) in
  let session :=
    initTestCafe imports this (root builderConfig) (browsers (options builderConfig)) in
  (exists rest,
      all_effects (run imports this builderConfig)
      = Call (GetBuilderConfiguration (targetSpec target false)) :: rest
      /\ count is_getBuilderConfiguration rest = 0%nat)
  /\ watch_override (overrides (targetSpec target false)) = Some false
  /\ (forall before config later,
        all_effects (run imports this builderConfig)
        = (before ++ Call (ArchitectRun config) :: later)%list ->
        exists resolved description,
          Architect.getBuilderConfiguration architect (targetSpec target false)
          = inr resolved
          /\ In config
               (Rx.emits (Architect.validateBuilderOptions architect resolved
                            description)))
  /\ ((forall spec resolved w,
          Architect.getBuilderConfiguration architect spec = inr resolved ->
          watch_override (overrides spec) = Some w ->
          watch (options resolved) = w) ->
      (forall resolved description config,
          In config
            (Rx.emits (Architect.validateBuilderOptions architect resolved
                         description)) ->
          watch (options config) = watch (options resolved)) ->
      forall before config later,
        all_effects (run imports this builderConfig)
        = (before ++ Call (ArchitectRun config) :: later)%list ->
        watch (options config) = false)
  /\ (List.length (emitted (run imports this builderConfig)) <= 1)%nat
  /\ (forall event,
        In event (emitted (run imports this builderConfig)) ->
        Rx.values session = [event]
        /\ exists o,
             snd (startDevServer imports this target false) = inr o
             /\ has_value o = true)
  /\ (forall o event,
        snd (startDevServer imports this target false) = inr o ->
        has_value o = true ->
        (forall e, Rx.outcome o <> Rx.Fails e) ->
        Rx.values session = [event] ->
        emitted (run imports this builderConfig) = [event])
  /\ (forall stream e,
        snd (run imports this builderConfig) = inr stream ->
        Rx.outcome stream = Rx.Fails e ->
        emitted (run imports this builderConfig) = [])
  /\ (forall e,
        snd (run imports this builderConfig) = inl e ->
        emitted (run imports this builderConfig) = []).
Proof.
  intros Htarget Htruthy architect session.
  assert (Hexecuted : forall before config later,
    all_effects (run imports this builderConfig)
    = (before ++ Call (ArchitectRun config) :: later)%list ->
    exists resolved description,
      Architect.getBuilderConfiguration architect (targetSpec target false)
      = inr resolved
      /\ In config
           (Rx.emits (Architect.validateBuilderOptions architect resolved
                        description))).
  { intros before config later E.
    pose proof (run_validates_resolution imports this builderConfig target
                  Htarget Htruthy) as Hall.
    rewrite E in Hall. rewrite <- effects_script in E.
    destruct (each_effect_split _ _ []
                (run_order imports this builderConfig [])
                before _ later E config eq_refl)
      as (resolved & description & Hin & Hout).
    exists resolved, description. split; [|exact Hout].
    apply Forall_app in Hall as [Hbefore _].
    rewrite Forall_forall in Hbefore.
    exact (Hbefore _ Hin resolved description eq_refl). }
  destruct (run_all_effects imports this builderConfig target Htarget Htruthy)
    as [_ Hemitted].
  split; [now apply run_resolves_once|].
  split; [reflexivity|].
  split; [exact Hexecuted|].
  split.
  { intros Hoverrides Hkept before config later E.
    destruct (Hexecuted before config later E)
      as (resolved & description & Hresolved & Hin).
    rewrite (Hkept _ _ _ Hin). now apply (Hoverrides _ _ _ Hresolved). }
  split; [apply emitted_at_most_one|].
  split.
  { intros event Hin. rewrite Hemitted in Hin.
    destruct (snd (startDevServer imports this target false)) as [e|o];
      [destruct Hin|].
    apply piped_values in Hin as [Hsession Hvalue].
    rewrite has_value_map in Hvalue. split; [|now exists o].
    pose proof (initTestCafe_close_count imports this (root builderConfig)
                  (browsers (options builderConfig))) as [_ Hle].
    cbv zeta in Hle. fold session in Hsession, Hle.
    destruct (Rx.values session) as [|v [|w vs]]; cbn in *;
      [tauto | destruct Hsession as [->|[]]; reflexivity | lia]. }
  split.
  { intros o event Ho Hvalue Hnever Hsession.
    rewrite Hemitted, Ho. apply piped_first.
    - now rewrite has_value_map.
    - apply never_fails_map. exact Hnever.
    - exists []. exact Hsession. }
  split.
  { intros stream e Hstream Hfails. unfold emitted. rewrite Hstream.
    revert Hstream Hfails. rewrite run_piped. cbv zeta. rewrite Htarget.
    cbn [Js.truthy_opt NodeUrl.or_empty]. rewrite Htruthy.
    destruct (startDevServer imports this target false) as [es [e0|o]];
      cbn [snd]; [discriminate|].
    intros E. injection E as <-. apply piped_fails. }
  intros e Hthrows. unfold emitted. now rewrite Hthrows.
Qed.

Lemma run_watch_off_at_most_one_witness :
  (exists rest,
      all_effects (run (imports_with (obliging_testcafe 0) Js.Undefined)
                     (new {| architect := workspace accepting |})
                     (e2e_config (Some "app:serve:production")))
      = Call (GetBuilderConfiguration (targetSpec "app:serve:production" false))
        :: rest
      /\ count is_getBuilderConfiguration rest = 0%nat)
  /\ watch_override (overrides (targetSpec "app:serve:production" false))
     = Some false
  /\ (forall before config later,
        all_effects (run (imports_with (obliging_testcafe 0) Js.Undefined)
                       (new {| architect := workspace accepting |})
                       (e2e_config (Some "app:serve:production")))
        = (before ++ Call (ArchitectRun config) :: later)%list ->
        watch (options config) = false)
  /\ (List.length
        (emitted (run (imports_with (obliging_testcafe 0) Js.Undefined)
                    (new {| architect := workspace accepting |})
                    (e2e_config (Some "app:serve:production")))) <= 1)%nat
  /\ emitted (run (imports_with (obliging_testcafe 0) Js.Undefined)
                (new {| architect := workspace accepting |})
                (e2e_config (Some "app:serve:production")))
     = [{| success := true |}].
Proof.
  pose proof (run_watch_off_at_most_one
                (imports_with (obliging_testcafe 0) Js.Undefined)
                (new {| architect := workspace accepting |})
                (e2e_config (Some "app:serve:production"))
                "app:serve:production" eq_refl eq_refl)
    as (H1 & H2 & _ & Hwatch & H3 & _ & H4 & _).
  split; [exact H1|]. split; [exact H2|]. split.
  { apply Hwatch.
    - intros spec resolved w. cbn.
      destruct (project spec) as [p|]; [|discriminate].
      destruct (target spec) as [t|]; [|discriminate].
      destruct (String.eqb p "app" && String.eqb t "serve"); [|discriminate].
      intros E Hw. injection E as <-. rewrite Hw. reflexivity.
    - intros resolved description config [<-|[]]. reflexivity. }
  split; [exact H3|].
  refine (H4 _ {| success := true |} eq_refl eq_refl _ eq_refl).
  intros e. discriminate.
Defined.

(** C7, as stated, fails: with a dev-server target whose options do not
    pass validation, the run resolves the target with watch off and then
    ends in an error without delivering any event. *)
Lemma run_without_event :
  let refused :=
    run (imports_with (obliging_testcafe 0) Js.Undefined)
      (new {| architect := workspace refusing |})
      (e2e_config (Some "app:serve:production")) in
  emitted refused = []
  /\ List.length (emitted refused) = 0%nat
  /\ calls (all_effects refused)
     = [GetBuilderConfiguration (targetSpec "app:serve:production" false);
        GetBuilderDescription (served "0.0.0.0" 4200 false None false);
        ValidateBuilderOptions (served "0.0.0.0" 4200 false None false)
          dev_server_description].
Proof. repeat split. Qed.

(** Whether the event is delivered can depend on what arrives first.  A
    dev server that reports a build and then fails ends the run without
    an event when its failure arrives while the session is on its way,
    and lets the event through when the session is faster. *)
Example failure_races_session :
  let this :=
    new {| architect :=
             serving accepting [{| success := true |}]
               (Rx.Fails (Js.Err "Error" "EADDRINUSE")) |} in
  let config := e2e_config (Some "app:serve") in
  let slow := run (imports_at outer_first (obliging_testcafe 0)) this config in
  let fast := run (imports_at inner_first (obliging_testcafe 0)) this config in
  (emitted slow = []
   /\ Rx.outcome (script slow) = Rx.Fails (Js.Err "Error" "Error: EADDRINUSE")
   /\ calls (all_effects slow)
      = [GetBuilderConfiguration (targetSpec "app:serve" false);
         GetBuilderDescription (served "0.0.0.0" 4200 false None false);
         ValidateBuilderOptions (served "0.0.0.0" 4200 false None false)
           dev_server_description;
         ArchitectRun (served "0.0.0.0" 4200 false None false);
         CreateTestCafe "localhost" 1337 1338])
  /\ (emitted fast = [{| success := true |}]
      /\ Rx.outcome (script fast) = Rx.Completes).
Proof. repeat split. Qed.

(** A validation that delivers a second configuration has it tapped
    while the first one is being served: the base URL is assigned again
    after the session was created, the second configuration is not
    executed while the first server stays up, and when the run is over the
    builder holds the URL of a server that was never started. *)
Example second_configuration_is_tapped :
  let this := new {| architect := workspace moving |} in
  let done :=
    run (imports_at session_last (obliging_testcafe 0)) this
      (e2e_config (Some "app:serve")) in
  all_effects done
  = [Call (GetBuilderConfiguration (targetSpec "app:serve" false));
     Call (GetBuilderDescription (served "0.0.0.0" 4200 false None false));
     Call (ValidateBuilderOptions (served "0.0.0.0" 4200 false None false)
             dev_server_description);
     AssignComputedTestCafeBaseUrl "http://0.0.0.0:4200";
     Call (ArchitectRun (served "0.0.0.0" 4200 false None false));
     Call (CreateTestCafe "localhost" 1337 1338);
     AssignComputedTestCafeBaseUrl "http://0.0.0.0:4201";
     Call CreateRunner; Call (RunnerSrc "apps/app-e2e");
     Call (RunnerBrowsers (Some ["chrome"])); Call RunnerRun; Call TestCafeClose]
  /\ emitted done = [{| success := true |}]
  /\ computedTestCafeBaseUrl (after (all_effects done) this)
     = Some "http://0.0.0.0:4201".
Proof. repeat split. Qed.

(** *** What the runner is given *)

Lemma after_app (a b : list Effect) (this : TestCafeBuilder) :
  after (a ++ b) this = after b (after a this).
Proof. unfold after. apply fold_left_app. Qed.

Lemma baseUrl_untouched (es : list Effect) (this : TestCafeBuilder) :
  Forall (fun e => runner_effect e = true) es ->
  computedTestCafeBaseUrl (after es this) = computedTestCafeBaseUrl this.
Proof.
  intros H. revert this. unfold after.
  induction H as [|e es He _ IH]; intros this; [reflexivity|].
  simpl. rewrite IH. destruct e; simpl; try reflexivity; discriminate.
Qed.




(** **** The base URL is assigned before the target is executed *)

Lemma recordBaseUrl_shape (imports : Imports) (devServerTarget : string)
  (config : BuilderConfiguration DevServerBuilderOptions) :
  Js.truthy_string devServerTarget = true ->
  (exists u, recordBaseUrl imports devServerTarget config
             = Rx.perform (AssignComputedTestCafeBaseUrl u))
  \/ (exists e, recordBaseUrl imports devServerTarget config = Rx.throw e).
Proof.
  intros Htruthy. unfold recordBaseUrl. rewrite Htruthy. cbn [andb].
  destruct (Js.truthy_opt (publicHost (options config))).
  - destruct (NodeUrl.parse _ _) as [e|clientUrl]; [right | left]; eauto.
  - left. eauto.
Qed.

Lemma assigned_later (imports : Imports) (devServerTarget : string)
  (past past' : list Effect)
  (config : BuilderConfiguration DevServerBuilderOptions) :
  incl past past' -> assigned imports devServerTarget past config ->
  assigned imports devServerTarget past' config.
Proof. intros Hincl (u & Hu & Hin). exists u. auto. Qed.

(** What comes out of the tap has had its URL assigned. *)
Lemma tap_assigned (imports : Imports) (devServerTarget : string)
  (o : Observable (BuilderConfiguration DevServerBuilderOptions)) :
  Js.truthy_string devServerTarget = true ->
  forall past,
  each_value (assigned imports devServerTarget) past
    (Rx.tap (recordBaseUrl imports devServerTarget) o).
Proof.
  intros Htruthy. induction o; intros past; cbn [Rx.tap each_value]; auto.
  destruct (recordBaseUrl_shape imports devServerTarget a Htruthy)
    as [[u Hu]|[e He]].
  - rewrite Hu. cbn [Rx.perform fst snd Rx.effects_before each_value].
    split; [|apply IHo]. exists u. split; [exact Hu|].
    apply in_or_app. right. now left.
  - rewrite He. exact I.
Qed.

Lemma never_run_assigned (imports : Imports) (devServerTarget : string)
  (es : list Effect) :
  Forall (fun e => forall config, e <> Call (ArchitectRun config)) es ->
  Forall (fun e => forall past, runs_assigned imports devServerTarget past e) es.
Proof.
  intros H. eapply Forall_impl; [|exact H].
  intros e He past config E. exfalso. eapply He; eauto.
Qed.

Lemma runs_assigned_later (imports : Imports) (devServerTarget : string)
  (past past' : list Effect) (e : Effect) :
  incl past past' -> runs_assigned imports devServerTarget past e ->
  runs_assigned imports devServerTarget past' e.
Proof. intros Hincl H config E. eapply assigned_later; eauto. Qed.

Lemma startDevServer_stream_assigned (imports : Imports) (this : TestCafeBuilder)
  (devServerTarget : string) (isWatching : bool) (o : Observable BuildEvent) :
  Js.truthy_string devServerTarget = true ->
  snd (startDevServer imports this devServerTarget isWatching) = inr o ->
  forall past, each_effect (runs_assigned imports devServerTarget) past o.
Proof.
  intros Htruthy. unfold startDevServer, call. cbn.
  destruct (Architect.getBuilderConfiguration _ _) as [e|resolved]; cbn;
    [discriminate|].
  intros H past. injection H as <-.
  apply (each_effect_concatMap (runs_assigned imports devServerTarget)
           (assigned imports devServerTarget)).
  - intros p p' e. apply runs_assigned_later.
  - intros p p' c. apply assigned_later.
  - intros p c Hc. cbn. split.
    + intros config E. injection E as <-. exact Hc.
    + apply each_effect_of_forall. rewrite effects_subscribe. constructor.
  - apply each_effect_of_forall, never_run_assigned.
    apply validations_not_run; [discriminate|].
    intros c. apply recordBaseUrl_not_run.
  - now apply tap_assigned.
Qed.

Lemma run_assigned (imports : Imports) (this : TestCafeBuilder)
  (builderConfig : BuilderConfiguration TestCafeBuilderOptions) (target : string) :
  devServerTarget (options builderConfig) = Some target ->
  Js.truthy_string target = true ->
  forall past,
  each_effect (runs_assigned imports target) past
    (script (run imports this builderConfig)).
Proof.
  intros Htarget Htruthy.
  assert (Hsession : forall past,
    each_effect (runs_assigned imports target) past
      (initTestCafe imports this (root builderConfig)
         (browsers (options builderConfig)))).
  { apply each_effect_of_forall, never_run_assigned, initTestCafe_not_run. }
  rewrite run_piped. cbv zeta. unfold script. rewrite Htarget.
  cbn [Js.truthy_opt NodeUrl.or_empty]. rewrite Htruthy.
  pose proof (startDevServer_sync_not_run imports this target false) as Hsync.
  pose proof (startDevServer_stream_assigned imports this target false) as Hstream.
  destruct (startDevServer _ _ _ _) as [es [e|o]]; cbn [fst snd] in *.
  - apply each_effect_effects_before; [now apply never_run_assigned|].
    intros past. exact I.
  - apply each_effect_effects_before; [now apply never_run_assigned|].
    intros past. apply piped_order.
    + intros p p' e0. apply runs_assigned_later.
    + exact Hsession.
    + apply each_effect_map. now apply Hstream.
Qed.

Lemma run_assigns_first (imports : Imports) (this : TestCafeBuilder)
  (builderConfig : BuilderConfiguration TestCafeBuilderOptions) (target : string)
  (before later : list Effect)
  (config : BuilderConfiguration DevServerBuilderOptions) :
  devServerTarget (options builderConfig) = Some target ->
  Js.truthy_string target = true ->
  all_effects (run imports this builderConfig)
  = (before ++ Call (ArchitectRun config) :: later)%list ->
  assigned imports target before config.
Proof.
  intros Htarget Htruthy E. rewrite <- effects_script in E.
  exact (each_effect_split _ _ []
           (run_assigned imports this builderConfig target Htarget Htruthy [])
           before _ later E config eq_refl).
Qed.

(** **** A run in which nothing fails and nothing comes twice *)



(** While the outer stream has nothing more to deliver and does not
    fail, the inner one plays to its end. *)
Lemma active_quiet {A B : Type} (f : A -> sync (Observable B))
  (schedule : list Rx.turn) (ending : Rx.ending) :
  (forall e, ending <> Rx.Fails e) ->
  forall inner : Observable B,
  Rx.active f schedule (Rx.deliver [] ending) [] inner
  = Rx.concat inner (Rx.deliver [] ending).
Proof.
  intros Hending.
  assert (Hdrain : forall inner : Observable B,
    Rx.drain f (Rx.deliver [] ending) [] inner
    = Rx.concat inner (Rx.deliver [] ending)).
  { intros inner. destruct ending as [|e|]; cbn; try reflexivity.
    now destruct (Hending e). }
  induction schedule as [|[|] schedule IH]; intros inner; cbn [Rx.active].
  - apply Hdrain.
  - destruct ending as [|e|]; cbn; try reflexivity. now destruct (Hending e).
  - destruct inner; cbn [Rx.concat]; try reflexivity.
    + now rewrite IH.
    + now rewrite IH.
    + destruct ending as [|e|]; reflexivity.
    + apply Hdrain.
Qed.





Lemma take1_concat_one_shot {A : Type} (a b : Observable A) :
  one_shot a -> Rx.take 1 (Rx.concat a b) = Rx.take 1 a.
Proof.
  induction a; cbn [one_shot Rx.concat Rx.take]; intros H; try reflexivity.
  - now rewrite !take_0.
  - now rewrite IHa.
  - destruct H.
Qed.

Lemma one_shot_fromPromise {A : Type} (p : Promise A) : one_shot (Rx.fromPromise p).
Proof. induction p; cbn; auto. Qed.

Section Silent.
Context {A B : Type} (f : A -> sync (Observable B)).



End Silent.

Lemma initTestCafe_head (imports : Imports) (this : TestCafeBuilder)
  (srcPath : string) (browsers : option (list string)) :
  exists p,
    initTestCafe imports this srcPath browsers
    = Rx.Do (Call (CreateTestCafe "localhost" 1337 1338)) (Rx.fromPromise p).
Proof. unfold initTestCafe, call_async. cbn. eexists. reflexivity. Qed.




Lemma killProcess_tracked_witness :
  let imports :=
    imports_with (obliging_testcafe 0)
      (Js.Array [Js.Number 1; Js.Str "kill"; Js.Str "No such process"]) in
  let this := tracking {| architect := empty_architect |} None {| pid := 4711 |} in
  killProcess imports this
  = ([Call (TreeKill 4711 "SIGTERM"); AssignTscProcess None;
      Call (LoggerError (Js.Str "No such process"))], inr tt)
  /\ filter is_log (calls (fst (killProcess imports this)))
     = [LoggerError (Js.Str "No such process")]
  /\ tscProcess (after (fst (killProcess imports this)) this) = None.
Proof.
  pose proof (killProcess_tracked
                (imports_with (obliging_testcafe 0)
                   (Js.Array [Js.Number 1; Js.Str "kill"; Js.Str "No such process"]))
                {| architect := empty_architect |} None {| pid := 4711 |}) as H.
  cbv zeta in H. destruct H as (_ & _ & H3 & _ & H5 & _).
  split; [reflexivity|]. split; [|exact H3].
  exact (H5 _ eq_refl eq_refl eq_refl).
Defined.

(* ===================================================================== *)
(** ** Further properties of the builder *)
(* ===================================================================== *)

Lemma inr_eq {A B} (a b : B) : @inr A B a = inr b -> a = b.
Proof. congruence. Qed.

(** Without a dev-server target the stream of [run] is the session. *)
Lemma piped_alone (imports : Imports) (this : TestCafeBuilder)
  (builderConfig : BuilderConfiguration TestCafeBuilderOptions) :
  piped imports this builderConfig (Rx.of_ None)
  = Rx.catchError (fun error => Rx.Error (Js.new_Error error))
      (initTestCafe imports this (root builderConfig)
         (browsers (options builderConfig))).
Proof.
  unfold piped, Rx.concatMap, Rx.of_.
  destruct (initTestCafe_head imports this (root builderConfig)
              (browsers (options builderConfig))) as [p ->].
  cbn [Rx.idle Rx.called Rx.projected fst snd Rx.effects_before Rx.take].
  change (@Rx.Complete Effect (option BuildEvent))
    with (Rx.deliver (E := Effect) (@nil (option BuildEvent)) Rx.Completes).
  rewrite active_quiet by discriminate.
  cbn [Rx.deliver]. now rewrite concat_quiet, take1_fromPromise.
Qed.

(** X1. A run without a dev-server target (none given, or the empty
    string) is the TestCafe session and nothing else: it returns without
    throwing, the architect is not called, the builder keeps the base URL
    it had, the events are those of the session, and the stream ends as
    the session does, a rejection wrapped in a new [Error]. *)
Theorem run_without_target (imports : Imports) (this : TestCafeBuilder)
  (builderConfig : BuilderConfiguration TestCafeBuilderOptions) :
  Js.truthy_opt (devServerTarget (options builderConfig)) = false ->
  let session :=
    initTestCafe imports this (root builderConfig) (browsers (options builderConfig)) in
  fst (run imports this builderConfig) = []
  /\ all_effects (run imports this builderConfig) = Rx.effects session
  /\ emitted (run imports this builderConfig) = Rx.values session
  /\ computedTestCafeBaseUrl (after (all_effects (run imports this builderConfig)) this)
     = computedTestCafeBaseUrl this
  /\ exists stream,
       snd (run imports this builderConfig) = inr stream
       /\ Rx.outcome stream = rethrown (Rx.outcome session).
Proof.
  intros Hnone session.
  assert (Hrun : run imports this builderConfig
    = ([], inr (Rx.catchError (fun error => Rx.Error (Js.new_Error error)) session))).
  { rewrite run_piped. cbv zeta. rewrite Hnone. now rewrite piped_alone. }
  assert (Heffects : all_effects (run imports this builderConfig) = Rx.effects session).
  { rewrite Hrun. unfold all_effects. cbn [fst snd app]. apply effects_rethrow. }
  split; [now rewrite Hrun|].
  split; [exact Heffects|]. split.
  { rewrite Hrun. unfold emitted. cbn [snd]. apply values_rethrow. }
  split.
  { rewrite Heffects. apply baseUrl_untouched, initTestCafe_effects. }
  rewrite Hrun. cbn [snd]. eexists. split; [reflexivity|].
  apply outcome_rethrow.
Qed.

Lemma run_without_target_witness :
  let imports :=
    imports_with (crashing_testcafe (Js.Err "Error" "no browser")) Js.Undefined in
  let this := new {| architect := workspace accepting |} in
  fst (run imports this (e2e_config (Some ""))) = []
  /\ calls (all_effects (run imports this (e2e_config (Some ""))))
     = [CreateTestCafe "localhost" 1337 1338; CreateRunner;
        RunnerSrc "apps/app-e2e"; RunnerBrowsers (Some ["chrome"]); RunnerRun]
  /\ exists stream,
       snd (run imports this (e2e_config (Some ""))) = inr stream
       /\ Rx.outcome stream = Rx.Fails (Js.Err "Error" "Error: no browser").
Proof.
  pose proof (run_without_target
                (imports_with (crashing_testcafe (Js.Err "Error" "no browser"))
                   Js.Undefined)
                (new {| architect := workspace accepting |})
                (e2e_config (Some "")) eq_refl) as H.
  cbv zeta in H. destruct H as (H1 & H2 & _ & _ & H5).
  split; [exact H1|]. split; [rewrite H2; reflexivity|]. exact H5.
Defined.

(** *** Where a failure comes from *)

Lemma outcome_take_fails {A : Type} (n : nat) (o : Observable A) (e : Js.thrown) :
  Rx.outcome (Rx.take n o) = Rx.Fails e -> Rx.outcome o = Rx.Fails e.
Proof.
  revert n. induction o; intros [|n]; cbn [Rx.take Rx.outcome];
    try discriminate; auto.
  - apply IHo.
  - apply (IHo (S n)).
Qed.

Lemma outcome_concat_fails {A : Type} (a b : Observable A) (e : Js.thrown) :
  Rx.outcome (Rx.concat a b) = Rx.Fails e ->
  Rx.outcome a = Rx.Fails e \/ Rx.outcome b = Rx.Fails e.
Proof. induction a; cbn [Rx.concat Rx.outcome]; auto. Qed.

Lemma outcome_effects_before {A : Type} (es : list Effect) (o : Observable A) :
  Rx.outcome (Rx.effects_before es o) = Rx.outcome o.
Proof. induction es; cbn; auto. Qed.

Lemma outcome_tap_fails {A : Type} (f : A -> sync unit) (o : Observable A)
  (e : Js.thrown) :
  Rx.outcome (Rx.tap f o) = Rx.Fails e ->
  Rx.outcome o = Rx.Fails e \/ exists a, snd (f a) = inl e.
Proof.
  induction o; cbn [Rx.tap Rx.outcome]; auto.
  rewrite outcome_effects_before.
  destruct (snd (f a)) as [e'|[]] eqn:E; cbn [Rx.outcome]; [|exact IHo].
  intros H. injection H as ->. right. now exists a.
Qed.

Lemma outcome_called {A : Type} (o inner : Observable A) :
  snd (Rx.called o) = inr inner -> Rx.outcome inner = Rx.outcome o.
Proof. destruct o; cbn; intros H; injection H as <-; reflexivity. Qed.

(** A [concatMap] fails on the failure of its outer stream, on what a
    projection throws or on the failure of an inner stream. *)
Section Failure.
Context {A B : Type} (f : A -> sync (Observable B)) (e : Js.thrown).

Lemma outcome_projected_fails (R : Prop) (a : A)
  (k : Observable B -> Observable B) :
  (forall inner, Rx.outcome (k inner) = Rx.Fails e ->
                 Rx.outcome inner = Rx.Fails e \/ R \/ a_projection_fails f e) ->
  Rx.outcome (Rx.projected (f a) k) = Rx.Fails e ->
  R \/ a_projection_fails f e.
Proof.
  intros Hk. unfold Rx.projected. rewrite outcome_effects_before.
  destruct (f a) as [es [e'|inner]] eqn:E; cbn [fst snd Rx.outcome].
  - intros H. injection H as ->. right. exists a. left. now rewrite E.
  - intros H. destruct (Hk _ H) as [Hi|[Hr|Hp]]; auto.
    right. exists a. right. exists inner. now rewrite E.
Qed.

Lemma outcome_projectAll_fails (buffer : list A) (last : Observable B) :
  Rx.outcome (Rx.projectAll f buffer last) = Rx.Fails e ->
  Rx.outcome last = Rx.Fails e \/ a_projection_fails f e.
Proof.
  induction buffer as [|a buffer IH]; cbn [Rx.projectAll]; [auto|].
  apply outcome_projected_fails.
  intros inner H. apply outcome_concat_fails in H as [H|H]; [auto|].
  right. auto.
Qed.

Lemma outcome_drain_fails (o : Observable A) :
  forall (buffer : list A) (inner : Observable B),
  Rx.outcome (Rx.drain f o buffer inner) = Rx.Fails e ->
  (Rx.outcome o = Rx.Fails e \/ Rx.outcome inner = Rx.Fails e)
  \/ a_projection_fails f e.
Proof.
  induction o; intros buffer inner; cbn [Rx.drain Rx.outcome].
  - apply IHo.
  - apply IHo.
  - intros H. apply outcome_concat_fails in H as [H|H]; [auto|].
    apply outcome_projectAll_fails in H as [H|H]; [discriminate | auto].
  - auto.
  - intros H. apply outcome_concat_fails in H as [H|H]; [auto|].
    apply outcome_projectAll_fails in H as [H|H]; [discriminate | auto].
Qed.

Lemma outcome_idle_fails (open : Observable A -> Observable B -> Observable B)
  (o : Observable A) :
  (forall k inner, Rx.outcome (open k inner) = Rx.Fails e ->
                   (Rx.outcome k = Rx.Fails e \/ Rx.outcome inner = Rx.Fails e)
                   \/ a_projection_fails f e) ->
  Rx.outcome (Rx.idle f open o) = Rx.Fails e ->
  Rx.outcome o = Rx.Fails e \/ a_projection_fails f e.
Proof.
  intros Hopen. induction o; cbn [Rx.idle Rx.outcome]; auto.
  apply outcome_projected_fails.
  intros inner H. destruct (Hopen _ _ H) as [[Hk|Hi]|Hp]; auto.
Qed.

Lemma outcome_active_fails (schedule : list Rx.turn) :
  forall (o : Observable A) (buffer : list A) (inner : Observable B),
  Rx.outcome (Rx.active f schedule o buffer inner) = Rx.Fails e ->
  (Rx.outcome o = Rx.Fails e \/ Rx.outcome inner = Rx.Fails e)
  \/ a_projection_fails f e.
Proof.
  induction schedule as [|[|] schedule IH]; intros o buffer inner;
    cbn [Rx.active].
  - apply outcome_drain_fails.
  - destruct o; cbn [Rx.outcome]; auto; try apply outcome_drain_fails.
    + apply IH.
    + apply IH.
  - destruct inner; cbn [Rx.outcome]; auto; try apply outcome_drain_fails.
    + apply IH.
    + apply IH.
    + destruct buffer as [|a buffer].
      * intros H. apply outcome_idle_fails in H as [H|H]; auto.
        intros k inner. apply IH.
      * intros H.
        apply (outcome_projected_fails (Rx.outcome o = Rx.Fails e)) in H
          as [H|H]; auto.
        intros inner H'. destruct (IH _ _ _ H') as [[Ho|Hi]|Hp]; auto.
Qed.

Lemma outcome_concatMap_fails (schedule : list Rx.turn) (o : Observable A) :
  Rx.outcome (Rx.concatMap schedule f o) = Rx.Fails e ->
  Rx.outcome o = Rx.Fails e \/ a_projection_fails f e.
Proof.
  unfold Rx.concatMap. apply outcome_idle_fails.
  intros k inner. apply outcome_active_fails.
Qed.

End Failure.

Lemma startDevServer_fails (imports : Imports) (this : TestCafeBuilder)
  (target : string) (o : Observable BuildEvent) (e : Js.thrown) :
  snd (startDevServer imports this target false) = inr o ->
  Rx.outcome o = Rx.Fails e ->
  let architect := architect (context this) in
  exists resolved,
    Architect.getBuilderConfiguration architect (targetSpec target false)
    = inr resolved
    /\ (Rx.ends (Architect.getBuilderDescription architect resolved) = Rx.Fails e
        \/ (exists description,
              Rx.ends (Architect.validateBuilderOptions architect resolved
                         description) = Rx.Fails e)
        \/ (exists config, snd (recordBaseUrl imports target config) = inl e)
        \/ (exists config, Rx.ends (Architect.run architect config) = Rx.Fails e)).
Proof.
  unfold startDevServer, call. cbn.
  destruct (Architect.getBuilderConfiguration _ _) as [e0|resolved] eqn:Hconfig;
    cbn; [discriminate|].
  intros H Hfails. apply inr_eq in H. subst o.
  exists resolved. split; [reflexivity|].
  apply outcome_concatMap_fails in Hfails as [Hfails|(c & [Hc|(inner & Hc & Hi)])].
  - apply outcome_tap_fails in Hfails as [Hfails|[c Hc]].
    + apply outcome_concatMap_fails in Hfails
        as [Hfails|(d & [Hd|(inner & Hd & Hi)])].
      * left. unfold Rx.subscribe in Hfails. now rewrite outcome_deliver in Hfails.
      * cbn in Hd. discriminate.
      * cbn in Hd. apply inr_eq in Hd. subst inner.
        unfold Rx.subscribe in Hi. rewrite outcome_deliver in Hi.
        right. left. now exists d.
    + right. right. left. now exists c.
  - cbn in Hc. discriminate.
  - cbn in Hc. apply inr_eq in Hc. subst inner.
    unfold Rx.subscribe in Hi. rewrite outcome_deliver in Hi.
    right. right. right. now exists c.
Qed.

Lemma piped_fails_on (imports : Imports) (this : TestCafeBuilder)
  (builderConfig : BuilderConfiguration TestCafeBuilderOptions)
  (build : Observable (option BuildEvent)) (e : Js.thrown) :
  Rx.outcome (piped imports this builderConfig build) = Rx.Fails e ->
  exists original,
    e = Js.new_Error original
    /\ (Rx.outcome build = Rx.Fails original
        \/ Rx.outcome (initTestCafe imports this (root builderConfig)
                         (browsers (options builderConfig)))
           = Rx.Fails original).
Proof.
  unfold piped. rewrite outcome_rethrow.
  match goal with |- rethrown ?x = _ -> _ => destruct x as [|original|] eqn:E end;
    try discriminate.
  intros H. injection H as <-. exists original. split; [reflexivity|].
  apply outcome_take_fails in E.
  apply outcome_concatMap_fails in E as [E|(a & [Ha|(inner & Ha & Hi)])].
  - now left.
  - destruct (initTestCafe _ _ _ _); discriminate.
  - right. rewrite <- Hi. symmetry. now apply outcome_called.
Qed.

(** X2. Whatever fails on the stream of a run reaches the subscriber as
    a new [Error] whose message is the string form of what was thrown, and
    what was thrown is the failure of one of the collaborators: the
    rejection of the TestCafe session or, with a dev-server target, the
    failure of the stream of descriptions, of a validation or of an
    execution, or what [url.parse] threw in the tap.  An [Error] with
    message [m] arrives with message [Error: m].  A target that the
    architect cannot resolve is different: [run] itself throws what the
    architect threw, unwrapped, after that one call. *)
Theorem run_errors (imports : Imports) (this : TestCafeBuilder)
  (builderConfig : BuilderConfiguration TestCafeBuilderOptions) :
  (forall stream e,
      snd (run imports this builderConfig) = inr stream ->
      Rx.outcome stream = Rx.Fails e ->
      exists original,
        thrown_to imports this builderConfig original
        /\ e = Js.Err "Error" (Js.to_string original)
        /\ (forall m, m <> "" -> original = Js.Err "Error" m ->
            e = Js.Err "Error" ("Error: " ++ m)))
  /\ (forall target e,
        devServerTarget (options builderConfig) = Some target ->
        Js.truthy_string target = true ->
        Architect.getBuilderConfiguration (architect (context this))
          (targetSpec target false) = inl e ->
        run imports this builderConfig
        = ([Call (GetBuilderConfiguration (targetSpec target false))], inl e)).
Proof.
  split.
  - intros stream e Hstream Hfails.
    assert (Hmessage : forall original,
      Js.new_Error original = Js.Err "Error" (Js.to_string original)
      /\ (forall m, m <> "" -> original = Js.Err "Error" m ->
          Js.new_Error original = Js.Err "Error" ("Error: " ++ m))).
    { intros original. split; [reflexivity|].
      intros m Hm ->. unfold Js.new_Error, Js.to_string. cbn.
      destruct m; [congruence | reflexivity]. }
    revert Hstream. rewrite run_piped. cbv zeta.
    destruct (devServerTarget (options builderConfig)) as [target|] eqn:Htarget;
      cbn [Js.truthy_opt NodeUrl.or_empty];
      [destruct (Js.truthy_string target) eqn:Htruthy|].
    + destruct (startDevServer imports this target false) as [es [e0|o]] eqn:Hstart;
        [discriminate|].
      intros H. apply inr_eq in H. subst stream.
      apply piped_fails_on in Hfails as (original & -> & [Hdev|Hsession]).
      * exists original. split; [|apply Hmessage].
        right. exists target. rewrite outcome_map in Hdev.
        destruct (startDevServer_fails imports this target o original)
          as (resolved & Hresolved & Hsource); [now rewrite Hstart | exact Hdev|].
        exists resolved. auto.
      * exists original. split; [now left | apply Hmessage].
    + intros H. apply inr_eq in H. subst stream.
      apply piped_fails_on in Hfails as (original & -> & [Hnone|Hsession]);
        [discriminate|].
      exists original. split; [now left | apply Hmessage].
    + intros H. apply inr_eq in H. subst stream.
      apply piped_fails_on in Hfails as (original & -> & [Hnone|Hsession]);
        [discriminate|].
      exists original. split; [now left | apply Hmessage].
  - intros target e Htarget Htruthy Hthrows.
    unfold run, startDevServer, call. rewrite Htarget.
    cbn [Js.truthy_opt NodeUrl.or_empty]. rewrite Htruthy, Hthrows. reflexivity.
Qed.

Lemma run_errors_witness :
  (exists original,
     thrown_to (imports_with (obliging_testcafe 0) Js.Undefined)
       (new {| architect := workspace refusing |})
       (e2e_config (Some "app:serve")) original
     /\ Js.Err "Error" "SchemaValidationException: Schema validation failed."
        = Js.Err "Error" (Js.to_string original))
  /\ run (imports_with (obliging_testcafe 0) Js.Undefined)
       (new {| architect := empty_architect |}) (e2e_config (Some "app:serve"))
     = ([Call (GetBuilderConfiguration (targetSpec "app:serve" false))],
        inl (Js.Err "Error" "Project does not exist.")).
Proof.
  split.
  - destruct (run_errors (imports_with (obliging_testcafe 0) Js.Undefined)
                (new {| architect := workspace refusing |})
                (e2e_config (Some "app:serve"))) as [H _].
    destruct (H _ (Js.Err "Error"
                     "SchemaValidationException: Schema validation failed.")
                eq_refl eq_refl) as (original & Hthrown & Hmessage & _).
    exists original. split; [exact Hthrown | exact Hmessage].
  - pose proof (run_errors (imports_with (obliging_testcafe 0) Js.Undefined)
                  (new {| architect := empty_architect |})
                  (e2e_config (Some "app:serve"))) as [_ H].
    exact (H "app:serve" _ eq_refl eq_refl eq_refl).
Defined.
Lemma class_not_createTestCafe ev :
  dev_effect (Call ev) = true -> is_createTestCafe ev = false.
Proof. destruct ev; simpl; congruence. Qed.

Lemma initTestCafe_prefix (imports : Imports) (this : TestCafeBuilder)
  (srcPath : string) (browsers : option (list string)) :
  let session := initTestCafe imports this srcPath browsers in
  exists n,
    (1 <= n <= 6)%nat
    /\ calls (Rx.effects session) = firstn n (session_calls srcPath browsers)
    /\ (Rx.values session <> [] <-> n = 6%nat).
Proof.
  unfold initTestCafe. cbn.
  case_library;
    first [ exists 6%nat; split; [lia|]; split; [reflexivity|];
            split; [reflexivity | discriminate]
          | exists 5%nat; split; [lia|]; split; [reflexivity|];
            split; [congruence | discriminate]
          | exists 4%nat; split; [lia|]; split; [reflexivity|];
            split; [congruence | discriminate]
          | exists 3%nat; split; [lia|]; split; [reflexivity|];
            split; [congruence | discriminate]
          | exists 2%nat; split; [lia|]; split; [reflexivity|];
            split; [congruence | discriminate]
          | exists 1%nat; split; [lia|]; split; [reflexivity|];
            split; [congruence | discriminate] ].
Qed.

(** X3. The calls of a TestCafe session are a beginning of one fixed
    sequence: create the session on localhost, 1337 and 1338, create the
    runner, set the sources, set the browsers, run, close.  Nothing is
    skipped or reordered: the run is not started unless sources and
    browsers were accepted, and [close] is reached exactly when the
    session delivers its event. *)
Theorem session_calls_in_order (imports : Imports) (this : TestCafeBuilder)
  (srcPath : string) (browsers : option (list string)) :
  let session := initTestCafe imports this srcPath browsers in
  exists n,
    (1 <= n <= 6)%nat
    /\ calls (Rx.effects session) = firstn n (session_calls srcPath browsers)
    /\ (Rx.values session <> [] <-> n = 6%nat).
Proof. apply initTestCafe_prefix. Qed.


(** What a promise does before its first value is all that is left of it
    and of the outer stream once [take(1)] has its value. *)
Section OneValue.
Context {A B : Type} (P : Effect -> Prop) (f : A -> sync (Observable B)).

Lemma effects_take1_drain (o : Observable A) :
  forall (buffer : list A) (inner : Observable B),
  Forall P (Rx.effects o) -> Forall P (Rx.effects inner) -> one_shot inner ->
  Forall P (Rx.effects (Rx.take 1 (Rx.drain f o buffer inner))).
Proof.
  induction o; intros buffer inner Ho Hi Hone; cbn [Rx.drain Rx.effects] in *.
  - now apply IHo.
  - inversion Ho; subst. cbn [Rx.take Rx.effects]. constructor; [assumption|].
    now apply IHo.
  - rewrite take1_concat_one_shot by assumption. now apply effects_take.
  - constructor.
  - rewrite take1_concat_one_shot by assumption. now apply effects_take.
Qed.

Lemma effects_take1_active (schedule : list Rx.turn) :
  forall (o : Observable A) (buffer : list A) (inner : Observable B),
  Forall P (Rx.effects o) -> Forall P (Rx.effects inner) -> one_shot inner ->
  Forall P (Rx.effects (Rx.take 1 (Rx.active f schedule o buffer inner))).
Proof.
  induction schedule as [|[|] schedule IH]; intros o buffer inner Ho Hi Hone;
    cbn [Rx.active].
  - now apply effects_take1_drain.
  - destruct o; cbn [Rx.effects] in *.
    + now apply IH.
    + inversion Ho; subst. cbn [Rx.take Rx.effects]. constructor; [assumption|].
      now apply IH.
    + now apply effects_take1_drain.
    + constructor.
    + now apply effects_take1_drain.
  - destruct inner; cbn [Rx.effects one_shot] in *.
    + cbn [Rx.take Rx.effects]. rewrite take_0. constructor.
    + inversion Hi; subst. cbn [Rx.take Rx.effects]. constructor; [assumption|].
      now apply IH.
    + destruct Hone.
    + constructor.
    + now apply effects_take1_drain.
Qed.

End OneValue.

Lemma initTestCafe_rest (imports : Imports) (this : TestCafeBuilder)
  (srcPath : string) (browsers : option (list string)) :
  exists p,
    initTestCafe imports this srcPath browsers
    = Rx.Do (Call (CreateTestCafe "localhost" 1337 1338)) (Rx.fromPromise p)
    /\ Forall (fun e => forall ev, e = Call ev -> is_createTestCafe ev = false)
         (Rx.effects (Rx.fromPromise p)).
Proof.
  unfold initTestCafe, call_async. cbn. eexists. split; [reflexivity|].
  case_library; repeat (apply Forall_cons || apply Forall_nil);
    intros ev E; injection E as <-; reflexivity.
Qed.

Lemma count_none (p : Event -> bool) (es : list Effect) :
  Forall (fun e => forall ev, e = Call ev -> p ev = false) es ->
  count p es = 0%nat.
Proof.
  intros H. unfold count.
  induction H as [|e es He _ IH]; [reflexivity|].
  destruct e; simpl; auto.
  now rewrite (He _ eq_refl).
Qed.

(** The stream of [run] starts a session when the dev-server stream
    delivers its first value, and no other. *)
Lemma piped_sessions (imports : Imports) (this : TestCafeBuilder)
  (builderConfig : BuilderConfiguration TestCafeBuilderOptions)
  (build : Observable (option BuildEvent)) :
  Forall (fun e => dev_effect e = true) (Rx.effects build) ->
  count is_createTestCafe (Rx.effects (piped imports this builderConfig build))
  = if has_value build then 1%nat else 0%nat.
Proof.
  intros Hbuild. unfold piped. rewrite effects_rethrow. unfold Rx.concatMap.
  assert (Hdev : forall es, Forall (fun e => dev_effect e = true) es ->
    Forall (fun e => forall ev, e = Call ev -> is_createTestCafe ev = false) es).
  { intros es H. eapply Forall_impl; [|exact H].
    intros e He ev ->. now apply class_not_createTestCafe. }
  destruct (initTestCafe_rest imports this (root builderConfig)
              (browsers (options builderConfig))) as (p & -> & Hrest).
  induction build; cbn [Rx.idle Rx.take Rx.effects has_value] in *;
    try reflexivity.
  - cbn [Rx.called Rx.projected fst snd Rx.effects_before Rx.take Rx.effects].
    change (Call (CreateTestCafe "localhost" 1337 1338) :: ?l)
      with ([Call (CreateTestCafe "localhost" 1337 1338)] ++ l)%list.
    rewrite count_app. cbn [count calls filter is_createTestCafe length].
    rewrite count_none; [reflexivity|].
    apply effects_take1_active; [now apply Hdev | exact Hrest|].
    apply one_shot_fromPromise.
  - inversion Hbuild; subst.
    change (e :: ?l) with ([e] ++ l)%list. rewrite count_app.
    rewrite (count_none _ [e]) by (apply Hdev; now constructor).
    now apply IHbuild.
Qed.

(** X4. A run starts at most one TestCafe session, however many events
    the dev server delivers: exactly one without a dev-server target or
    when the dev-server stream delivers an event, none when the target is
    not resolved or its stream ends before any event. *)
Theorem run_starts_one_session (imports : Imports) (this : TestCafeBuilder)
  (builderConfig : BuilderConfiguration TestCafeBuilderOptions) :
  let target := devServerTarget (options builderConfig) in
  count is_createTestCafe (all_effects (run imports this builderConfig))
  = (if Js.truthy_opt target then
       match snd (startDevServer imports this (NodeUrl.or_empty target) false) with
       | inr o => if has_value o then 1 else 0
       | inl _ => 0
       end
     else 1)%nat
  /\ (count is_createTestCafe (all_effects (run imports this builderConfig)) <= 1)%nat.
Proof.
  intros target.
  assert (Heq : count is_createTestCafe (all_effects (run imports this builderConfig))
    = (if Js.truthy_opt target then
         match snd (startDevServer imports this (NodeUrl.or_empty target) false) with
         | inr o => if has_value o then 1 else 0
         | inl _ => 0
         end
       else 1)%nat).
  { rewrite run_piped. cbv zeta. fold target.
    destruct (Js.truthy_opt target).
    - pose proof (startDevServer_effects imports this (NodeUrl.or_empty target) false)
        as Hdev.
      unfold all_effects in *.
      destruct (startDevServer _ _ _ _) as [es [e|o]]; cbn [fst snd] in *;
        apply Forall_app in Hdev as [Hsync Hstream]; rewrite count_app;
        rewrite (count_outside is_createTestCafe dev_effect _
                   class_not_createTestCafe Hsync); [reflexivity|].
      rewrite piped_sessions by (now rewrite effects_map).
      now rewrite has_value_map.
    - unfold all_effects. cbn [fst snd app].
      now rewrite piped_sessions by constructor. }
  split; [exact Heq|]. rewrite Heq.
  destruct (Js.truthy_opt target); [|lia].
  destruct (snd (startDevServer _ _ _ _)) as [e|o]; [lia|].
  destruct (has_value o); lia.
Qed.

(** *** The base URL at the first execution *)

Lemma tap_tapped (imports : Imports) (devServerTarget : string)
  (o : Observable (BuilderConfiguration DevServerBuilderOptions)) :
  Js.truthy_string devServerTarget = true ->
  forall pending,
  tapped imports devServerTarget pending
    (Rx.tap (recordBaseUrl imports devServerTarget) o).
Proof.
  intros Htruthy. induction o; intros pending; cbn [Rx.tap tapped]; auto.
  destruct (recordBaseUrl_shape imports devServerTarget a Htruthy)
    as [[u Hu]|[e He]].
  - rewrite Hu. cbn [Rx.perform fst snd Rx.effects_before tapped].
    split; [|apply IHo]. exists u. split; [reflexivity | exact Hu].
  - rewrite He. exact I.
Qed.

Lemma started_later (past : list Effect) (e : Effect) :
  run_started past -> run_started (past ++ [e]).
Proof. intros [c Hc]. exists c. apply in_or_app. now left. Qed.

(** Once an execution has been asked for, nothing is the first one. *)
Lemma started_vacuous {A} (imports : Imports) (devServerTarget : string)
  (o : Observable A) :
  forall past, run_started past ->
  each_effect (first_run_assigned imports devServerTarget) past o.
Proof.
  induction o; intros past Hstarted; cbn [each_effect]; auto.
  split.
  - intros config _ Hnot. now destruct Hnot.
  - apply IHo. now apply started_later.
Qed.

(** The first execution of [startDevServer] is that of the first
    configuration that comes out of the tap, at once. *)
Lemma first_execution_assigned (imports : Imports) (devServerTarget : string)
  (architect : Architect.t) (schedule : list Rx.turn)
  (o : Observable (BuilderConfiguration DevServerBuilderOptions)) :
  forall past pending,
  tapped imports devServerTarget pending o ->
  (forall u, pending = Some u ->
             exists earlier, past = (earlier ++ [AssignComputedTestCafeBaseUrl u])%list) ->
  Forall (fun e => forall config, e <> Call (ArchitectRun config)) (Rx.effects o) ->
  each_effect (first_run_assigned imports devServerTarget) past
    (Rx.concatMap schedule
       (fun config =>
          Rx.perform (Call (ArchitectRun config)) ;;;
          Rx.ret (Rx.subscribe (Architect.run architect config)))
       o).
Proof.
  unfold Rx.concatMap.
  induction o; intros past pending Htapped Hpending Hne;
    cbn [Rx.idle]; try exact I.
  - destruct Htapped as [(u & Hu & Hrecord) _].
    cbn. split.
    + intros config E _. injection E as <-.
      destruct (Hpending u Hu) as [earlier ->]. eauto.
    + apply started_vacuous. exists a. apply in_or_app. right. now left.
  - cbn [each_effect]. cbn [Rx.effects tapped] in *. inversion Hne; subst. split.
    + intros config E. exfalso. eapply H1; eauto.
    + eapply IHo; [exact Htapped | | assumption].
      intros u Hu. destruct e; try discriminate.
      injection Hu as ->. now exists past.
Qed.

(** Every event of the dev server comes after an execution. *)
Lemma events_after_execution (architect : Architect.t) (schedule : list Rx.turn)
  (o : Observable (BuilderConfiguration DevServerBuilderOptions))
  (past : list Effect) :
  each_value (fun past _ => run_started past) past
    (Rx.concatMap schedule
       (fun config =>
          Rx.perform (Call (ArchitectRun config)) ;;;
          Rx.ret (Rx.subscribe (Architect.run architect config)))
       o).
Proof.
  apply each_value_concatMap.
  - intros p p' _ Hincl [c Hc]. exists c. auto.
  - intros p c. cbn. apply each_value_deliver. intros _ _.
    exists c. apply in_or_app. right. now left.
Qed.

Lemma piped_first_run (imports : Imports) (this : TestCafeBuilder)
  (builderConfig : BuilderConfiguration TestCafeBuilderOptions) (target : string)
  (build : Observable (option BuildEvent)) :
  forall past,
  each_effect (first_run_assigned imports target) past build ->
  each_value (fun past _ => run_started past) past build ->
  each_effect (first_run_assigned imports target) past
    (piped imports this builderConfig build).
Proof.
  unfold piped, Rx.concatMap.
  induction build; intros past Hbuild Hvalues;
    cbn [Rx.idle Rx.take Rx.catchError each_effect each_value] in *;
    try exact I.
  - apply started_vacuous. tauto.
  - destruct Hbuild. split; auto.
Qed.

Lemma run_first_assigned (imports : Imports) (this : TestCafeBuilder)
  (builderConfig : BuilderConfiguration TestCafeBuilderOptions) (target : string) :
  devServerTarget (options builderConfig) = Some target ->
  Js.truthy_string target = true ->
  forall past,
  each_effect (first_run_assigned imports target) past
    (script (run imports this builderConfig)).
Proof.
  intros Htarget Htruthy.
  rewrite run_piped. cbv zeta. unfold script. rewrite Htarget.
  cbn [Js.truthy_opt NodeUrl.or_empty]. rewrite Htruthy.
  pose proof (startDevServer_sync_not_run imports this target false) as Hsync.
  revert Hsync. unfold startDevServer, call. cbn.
  destruct (Architect.getBuilderConfiguration _ _) as [e|resolved]; cbn;
    intros Hsync.
  - intros past. split; [intros config E; discriminate | exact I].
  - intros past. split; [intros config E; discriminate|].
    split; [intros config E; discriminate|].
    apply piped_first_run.
    + apply each_effect_map.
      apply (first_execution_assigned imports target _ _ _ _ None).
      * now apply tap_tapped.
      * discriminate.
      * apply validations_not_run; [discriminate|].
        intros c. apply recordBaseUrl_not_run.
    + apply each_value_map. apply events_after_execution.
Qed.

(** X5. In a run with a dev-server target, every execution of the target
    comes after the assignment of the base URL derived from the very
    configuration that is executed, and the first execution comes right
    after it: when the dev server is first started, the builder holds the
    URL of that server.  A configuration whose URL cannot be derived
    (because [url.parse] throws) is not executed. *)
Theorem baseUrl_recorded_before_execution (imports : Imports)
  (this : TestCafeBuilder)
  (builderConfig : BuilderConfiguration TestCafeBuilderOptions)
  (target : string) (before later : list Effect)
  (config : BuilderConfiguration DevServerBuilderOptions) :
  devServerTarget (options builderConfig) = Some target ->
  Js.truthy_string target = true ->
  all_effects (run imports this builderConfig)
  = (before ++ Call (ArchitectRun config) :: later)%list ->
  exists u,
    recordBaseUrl imports target config
    = Rx.perform (AssignComputedTestCafeBaseUrl u)
    /\ In (AssignComputedTestCafeBaseUrl u) before
    /\ ((forall earlier, ~ In (Call (ArchitectRun earlier)) before) ->
        computedTestCafeBaseUrl (after before this) = Some u).
Proof.
  intros Htarget Htruthy E.
  destruct (run_assigns_first imports this builderConfig target before later config
              Htarget Htruthy E) as (u & Hu & Hin).
  exists u. split; [exact Hu|]. split; [exact Hin|].
  intros Hfirst. rewrite <- effects_script in E.
  destruct (each_effect_split _ _ []
              (run_first_assigned imports this builderConfig target Htarget Htruthy [])
              before _ later E config eq_refl)
    as (earlier & u' & Hbefore & Hrecord).
  { intros [c Hc]. exact (Hfirst c Hc). }
  cbn [app] in Hbefore. rewrite Hu in Hrecord. injection Hrecord as <-.
  rewrite Hbefore, after_app. reflexivity.
Qed.

Lemma baseUrl_recorded_before_execution_witness :
  exists u,
    recordBaseUrl (imports_with (obliging_testcafe 0) Js.Undefined)
      "app:serve:production" (served "0.0.0.0" 4200 false None false)
    = Rx.perform (AssignComputedTestCafeBaseUrl u)
    /\ computedTestCafeBaseUrl
         (after
            [Call (GetBuilderConfiguration (targetSpec "app:serve:production" false));
             Call (GetBuilderDescription (served "0.0.0.0" 4200 false None false));
             Call (ValidateBuilderOptions (served "0.0.0.0" 4200 false None false)
                     dev_server_description);
             AssignComputedTestCafeBaseUrl "http://0.0.0.0:4200"]
            (new {| architect := workspace accepting |}))
       = Some u.
Proof.
  destruct (baseUrl_recorded_before_execution
              (imports_with (obliging_testcafe 0) Js.Undefined)
              (new {| architect := workspace accepting |})
              (e2e_config (Some "app:serve:production"))
              "app:serve:production"
              [Call (GetBuilderConfiguration (targetSpec "app:serve:production" false));
               Call (GetBuilderDescription (served "0.0.0.0" 4200 false None false));
               Call (ValidateBuilderOptions (served "0.0.0.0" 4200 false None false)
                       dev_server_description);
               AssignComputedTestCafeBaseUrl "http://0.0.0.0:4200"]
              (Rx.effects
                 (initTestCafe (imports_with (obliging_testcafe 0) Js.Undefined)
                    (new {| architect := workspace accepting |})
                    "apps/app-e2e" (Some ["chrome"])))
              (served "0.0.0.0" 4200 false None false)
              eq_refl eq_refl eq_refl) as (u & Hu & _ & Hheld).
  exists u. split; [exact Hu|]. apply Hheld.
  intros earlier [E|[E|[E|[E|[]]]]]; discriminate E.
Defined.
(** *** Errors that [killProcess] drops *)

(** X6. On a tracked handle, an error that is neither an array with
    truthy first and third elements nor an object with a truthy
    [message] is dropped: a string, a number, a boolean, a short array or
    an object without message is not logged.  The signal is sent, the
    handle is cleared and nothing is thrown all the same. *)
Theorem killProcess_drops_other_errors (imports : Imports)
  (context : BuilderContext) (baseUrl : option string) (process : ChildProcess) :
  match treeKill imports (pid process) "SIGTERM" with
  | Js.Array items =>
      Js.truthy (nth 0 items Js.Undefined) && Js.truthy (nth 2 items Js.Undefined)
      = false
  | Js.Object fields => Js.truthy (Js.lookup "message" fields) = false
  | _ => True
  end ->
  killProcess imports (tracking context baseUrl process)
  = ([Call (TreeKill (pid process) "SIGTERM"); AssignTscProcess None], inr tt).
Proof.
  unfold killProcess. cbn [tracking tscProcess].
  unfold Rx.bind, Rx.perform, Rx.ret.
  destruct (treeKill imports (pid process) "SIGTERM") as [| |b|z|s|items|fields];
    cbn; intros H; try reflexivity.
  - destruct b; reflexivity.
  - destruct (negb (z =? 0)); reflexivity.
  - destruct (negb (String.eqb s "")); reflexivity.
  - rewrite H. reflexivity.
  - rewrite H. reflexivity.
Qed.

Lemma killProcess_drops_other_errors_witness :
  killProcess (imports_with (obliging_testcafe 0) (Js.Str "kill ESRCH"))
    (tracking {| architect := empty_architect |} None {| pid := 4711 |})
  = ([Call (TreeKill 4711 "SIGTERM"); AssignTscProcess None], inr tt).
Proof.
  apply (killProcess_drops_other_errors
           (imports_with (obliging_testcafe 0) (Js.Str "kill ESRCH"))
           {| architect := empty_architect |} None {| pid := 4711 |}).
  exact I.
Defined.

(** *** Any target string *)

Lemma split_nonempty (sep : ascii) (s : string) : Js.split sep s <> [].
Proof.
  destruct s as [|c r]; simpl; [discriminate|].
  destruct (Ascii.eqb c sep); [discriminate|].
  destruct (Js.split sep r); discriminate.
Qed.

Lemma split_join (sep : ascii) (s : string) :
  join (String sep "") (Js.split sep s) = s.
Proof.
  induction s as [|c r IH]; [reflexivity|].
  simpl. destruct (Ascii.eqb_spec c sep) as [->|Hc].
  - pose proof (split_nonempty sep r) as Hne.
    destruct (Js.split sep r) as [|p ps]; [congruence|].
    cbn [join]. cbn [join] in IH. now rewrite IH.
  - pose proof (split_nonempty sep r) as Hne.
    destruct (Js.split sep r) as [|p ps]; [congruence|].
    destruct ps as [|q ps].
    + cbn [join] in *. now rewrite IH.
    + change (String c (join (String sep "") (p :: q :: ps)) = String c r).
      now rewrite IH.
Qed.

Lemma split_pieces (sep : ascii) (s : string) :
  Forall (fun piece => Js.includes sep piece = false) (Js.split sep s).
Proof.
  induction s as [|c r IH]; simpl; [repeat constructor|].
  destruct (Ascii.eqb c sep) eqn:Hc; [constructor; [reflexivity | exact IH]|].
  destruct (Js.split sep r) as [|p ps]; [repeat constructor; simpl; now rewrite Hc|].
  inversion IH; subst. constructor; [|assumption].
  simpl. now rewrite Hc.
Qed.

Lemma split_append (sep : ascii) (s r : string) :
  Js.split sep (s ++ String sep r) = (Js.split sep s ++ Js.split sep r)%list.
Proof.
  induction s as [|c s IH]; simpl.
  - now rewrite Ascii.eqb_refl.
  - rewrite IH. destruct (Ascii.eqb c sep); [reflexivity|].
    pose proof (split_nonempty sep s) as Hne.
    destruct (Js.split sep s) as [|p ps]; [congruence | reflexivity].
Qed.

Lemma nth_error_app_left {A} (l l' : list A) (n : nat) :
  (n < List.length l)%nat -> nth_error (l ++ l') n = nth_error l n.
Proof. intros H. now apply nth_error_app1. Qed.

(** X7. For every target string: the segments between the colons, put
    back together with colons, give the string, and no segment holds a
    colon; the project is always defined; a string without colon gives
    that string as project and leaves target and configuration
    undefined; and whatever follows a third segment is ignored. *)
Theorem targetSpec_of_any_string (s : string) (isWatching : bool) :
  join ":" (Js.split ":" s) = s
  /\ Forall (fun piece => Js.includes ":" piece = false) (Js.split ":" s)
  /\ (exists p, project (targetSpec s isWatching) = Some p)
  /\ (Js.includes ":" s = false ->
      project (targetSpec s isWatching) = Some s
      /\ target (targetSpec s isWatching) = None
      /\ configuration (targetSpec s isWatching) = None)
  /\ (forall extra,
        (3 <= List.length (Js.split ":" s))%nat ->
        targetSpec (s ++ ":" ++ extra) isWatching = targetSpec s isWatching).
Proof.
  split; [apply split_join|]. split; [apply split_pieces|]. split.
  { unfold targetSpec. cbn [project].
    pose proof (split_nonempty ":" s) as Hne.
    destruct (Js.split ":" s) as [|p ps]; [congruence|]. now exists p. }
  split.
  { intros Hs. unfold targetSpec. cbn [project target configuration].
    rewrite (split_without_separator ":" s Hs). repeat split. }
  intros extra Hlen. unfold targetSpec.
  change (s ++ ":" ++ extra) with (s ++ String ":" extra).
  rewrite split_append, !nth_error_app_left by lia. reflexivity.
Qed.

(* ===================================================================== *)
(** ** Properties of the schematic *)
(* ===================================================================== *)

(** *** Own properties *)

Lemma has_in (k : string) (fields : list (string * Js.value)) :
  Obj.has k fields = true <-> In k (List.map fst fields).
Proof.
  unfold Obj.has. rewrite existsb_exists. split.
  - intros ([k' v] & Hin & E). apply String.eqb_eq in E. subst. simpl.
    apply in_map_iff. now exists (k', v).
  - intros H. apply in_map_iff in H as ([k' v] & E & Hin). simpl in E. subst.
    exists (k, v). split; [assumption | apply String.eqb_refl].
Qed.

Lemma lookup_missing (k : string) (fields : list (string * Js.value)) :
  Obj.has k fields = false -> Js.lookup k fields = Js.Undefined.
Proof.
  induction fields as [|[k' v] rest IH]; simpl; [reflexivity|].
  destruct (String.eqb k k'); [discriminate | exact IH].
Qed.

Lemma lookup_defined (k : string) (fields : list (string * Js.value)) :
  Js.lookup k fields <> Js.Undefined -> Obj.has k fields = true.
Proof.
  intros H. destruct (Obj.has k fields) eqn:E; [reflexivity|].
  now rewrite lookup_missing in H.
Qed.

Lemma lookup_replace (k k' : string) (x : Js.value)
  (fields : list (string * Js.value)) :
  Obj.has k fields = true ->
  Js.lookup k' (Obj.replace k x fields)
  = if String.eqb k' k then x else Js.lookup k' fields.
Proof.
  induction fields as [|[k0 v] rest IH]; simpl; [discriminate|].
  destruct (String.eqb_spec k k0) as [->|Hk]; simpl.
  - intros _. destruct (String.eqb k' k0); reflexivity.
  - intros H. rewrite (IH H).
    destruct (String.eqb_spec k' k0) as [->|Hk'].
    + apply String.eqb_neq in Hk. rewrite String.eqb_sym in Hk. now rewrite Hk.
    + reflexivity.
Qed.

Lemma has_replace (k k' : string) (x : Js.value)
  (fields : list (string * Js.value)) :
  Obj.has k' (Obj.replace k x fields) = Obj.has k' fields.
Proof.
  induction fields as [|[k0 v] rest IH]; [reflexivity|].
  cbn [Obj.replace]. destruct (String.eqb k k0); [reflexivity|].
  unfold Obj.has in *. cbn [existsb fst]. now rewrite IH.
Qed.

Lemma keys_replace (k : string) (x : Js.value) (fields : list (string * Js.value)) :
  List.map fst (Obj.replace k x fields) = List.map fst fields.
Proof.
  induction fields as [|[k0 v] rest IH]; simpl; [reflexivity|].
  destruct (String.eqb k k0); simpl; congruence.
Qed.

Lemma lookup_app (k : string) (a b : list (string * Js.value)) :
  Js.lookup k (a ++ b)
  = if Obj.has k a then Js.lookup k a else Js.lookup k b.
Proof.
  induction a as [|[k0 v] rest IH]; simpl; [reflexivity|].
  destruct (String.eqb k k0); simpl; [reflexivity | exact IH].
Qed.

Lemma has_app (k : string) (a b : list (string * Js.value)) :
  Obj.has k (a ++ b) = Obj.has k a || Obj.has k b.
Proof. unfold Obj.has. apply existsb_app. Qed.

(** What [define] leaves behind. *)
Lemma define_spec (fields fields' : list (string * Js.value)) (k : string)
  (x : Js.value) :
  Obj.define fields k x = Obj.Returns fields' ->
  (forall k', Js.lookup k' fields'
              = if String.eqb k' k then x else Js.lookup k' fields)
  /\ (forall k', Obj.has k' fields' = Obj.has k' fields || String.eqb k' k)
  /\ (NoDup (List.map fst fields) -> NoDup (List.map fst fields')).
Proof.
  unfold Obj.define. destruct (Obj.has k fields) eqn:Hhas.
  - intros E. injection E as <-. split; [|split].
    + intros k'. now apply lookup_replace.
    + intros k'. rewrite has_replace.
      destruct (String.eqb_spec k' k) as [->|]; [now rewrite Hhas | now rewrite orb_false_r].
    + now rewrite keys_replace.
  - destruct (Obj.index_like k); [discriminate|].
    intros E. injection E as <-. split; [|split].
    + intros k'. rewrite lookup_app. simpl.
      destruct (String.eqb_spec k' k) as [->|].
      * now rewrite Hhas.
      * destruct (Obj.has k' fields) eqn:H'; [reflexivity|].
        now rewrite lookup_missing.
    + intros k'. rewrite has_app. simpl. now rewrite orb_false_r.
    + intros Hnodup. rewrite map_app. simpl.
      apply NoDup_app; [exact Hnodup | repeat constructor; intros [] |].
      intros a Hin [<-|[]]. apply has_in in Hin. congruence.
Qed.

Lemma define_returns (fields : list (string * Js.value)) (k : string)
  (x : Js.value) :
  Obj.index_like k = false -> exists fields', Obj.define fields k x = Obj.Returns fields'.
Proof.
  intros H. unfold Obj.define. rewrite H.
  destruct (Obj.has k fields); eauto.
Qed.

Lemma get_plain (fields : list (string * Js.value)) (k : string) :
  Obj.inherited k = false ->
  Obj.get (Js.Object fields) k = Obj.Returns (Js.lookup k fields).
Proof.
  intros H. unfold Obj.get. rewrite H.
  destruct (Obj.has k fields) eqn:E; [reflexivity|].
  now rewrite lookup_missing.
Qed.

Lemma get_own (fields : list (string * Js.value)) (k : string) :
  Obj.has k fields = true ->
  Obj.get (Js.Object fields) k = Obj.Returns (Js.lookup k fields).
Proof. intros H. unfold Obj.get. now rewrite H. Qed.

(** *** [installDependencies] *)

Lemma set_object (fields : list (string * Js.value)) (k : string) (x : Js.value) :
  ordinary_name k = true ->
  exists fields',
    Obj.set (Js.Object fields) k x = Obj.Returns (Js.Object fields')
    /\ Obj.define fields k x = Obj.Returns fields'.
Proof.
  unfold ordinary_name. intros H. apply andb_true_iff in H as [Hi Hp].
  apply negb_true_iff in Hi, Hp.
  destruct (define_returns fields k x Hi) as [fields' E].
  exists fields'. split; [|exact E].
  unfold Obj.set. rewrite Hp, andb_false_r, E. reflexivity.
Qed.

Lemma listed_cases (k : string) (wanted : list TestCafeProject.Dependency)
  (otherwise : Js.value) :
  listed k wanted otherwise
  = if existsb (fun d => String.eqb k (TestCafeProject.package d)) wanted
    then listed k wanted Js.Undefined else otherwise.
Proof.
  unfold listed. revert otherwise.
  assert (Hany : forall init init',
    existsb (fun d => String.eqb k (TestCafeProject.package d)) wanted = true ->
    fold_left (fun acc d => if String.eqb k (TestCafeProject.package d)
                            then Js.Str (TestCafeProject.version d) else acc) wanted init
    = fold_left (fun acc d => if String.eqb k (TestCafeProject.package d)
                              then Js.Str (TestCafeProject.version d) else acc) wanted init').
  { induction wanted as [|d rest IH]; simpl; [discriminate|].
    intros init init' H. destruct (String.eqb k (TestCafeProject.package d)) eqn:E.
    - reflexivity.
    - apply IH. exact H. }
  intros otherwise.
  destruct (existsb _ wanted) eqn:E; [now apply Hany|].
  clear Hany. revert otherwise. induction wanted as [|d rest IH]; simpl; [reflexivity|].
  intros otherwise. simpl in E. apply orb_false_iff in E as [E1 E2].
  rewrite E1. now apply IH.
Qed.

Lemma addedDependencies_from (wanted : list TestCafeProject.Dependency) :
  Forall (fun d => ordinary_name (TestCafeProject.package d) = true) wanted ->
  forall entries0,
  NoDup (List.map fst entries0) ->
  exists entries,
    fold_left
      (fun dictionary value =>
         d <~ dictionary ;;
         Obj.set d (TestCafeProject.package value)
           (Js.Str (TestCafeProject.version value)))
      wanted (Obj.Returns (Js.Object entries0))
    = Obj.Returns (Js.Object entries)
    /\ NoDup (List.map fst entries)
    /\ (forall k, Js.lookup k entries = listed k wanted (Js.lookup k entries0))
    /\ (forall k, Obj.has k entries
                  = Obj.has k entries0
                    || existsb (fun d => String.eqb k (TestCafeProject.package d)) wanted).
Proof.
  intros Hall. induction Hall as [|d rest Hd _ IH]; intros entries0 Hnodup.
  - exists entries0. simpl. repeat split; auto. intros k. now rewrite orb_false_r.
  - destruct (set_object entries0 (TestCafeProject.package d)
                (Js.Str (TestCafeProject.version d)) Hd) as (entries1 & Hset & Hdef).
    destruct (define_spec _ _ _ _ Hdef) as (Hlookup & Hhas & Hkeep).
    destruct (IH entries1 (Hkeep Hnodup)) as (entries & E & Hn & Hl & Hh).
    exists entries. cbn [fold_left Obj.bind]. rewrite Hset. split; [exact E|].
    split; [exact Hn|]. split.
    + intros k. rewrite Hl, Hlookup. reflexivity.
    + intros k. rewrite Hh, Hhas. cbn [existsb]. now rewrite orb_assoc.
Qed.

Lemma define_all_spec (extra : list (string * Js.value)) :
  NoDup (List.map fst extra) ->
  (forall k, Obj.has k extra = true -> Obj.index_like k = false) ->
  forall base,
  exists merged,
    Obj.define_all base extra = Obj.Returns merged
    /\ (forall k, Js.lookup k merged
                  = if Obj.has k extra then Js.lookup k extra else Js.lookup k base)
    /\ (forall k, Obj.has k merged = Obj.has k base || Obj.has k extra).
Proof.
  induction extra as [|[k0 x0] rest IH]; intros Hnodup Hkeys base.
  - exists base. repeat split; auto. intros k. simpl. now rewrite orb_false_r.
  - simpl in Hnodup. apply NoDup_cons_iff in Hnodup as [Hfresh Hnodup].
    assert (Hk0 : Obj.index_like k0 = false).
    { apply Hkeys. unfold Obj.has. simpl. now rewrite String.eqb_refl. }
    destruct (define_returns base k0 x0 Hk0) as [base1 Hdef].
    destruct (define_spec _ _ _ _ Hdef) as (Hlookup & Hhas & _).
    destruct (IH Hnodup) with (base := base1) as (merged & E & Hl & Hh).
    { intros k Hk. apply Hkeys. unfold Obj.has in *. simpl. now rewrite Hk, orb_true_r. }
    exists merged. unfold Obj.define_all in *. cbn [fold_left Obj.bind fst snd].
    rewrite Hdef. split; [exact E|]. split.
    + intros k. rewrite Hl, Hlookup. unfold Obj.has at 2. cbn [existsb fst Js.lookup].
      fold (Obj.has k rest).
      destruct (String.eqb_spec k k0) as [->|Hne]; [|reflexivity].
      assert (Obj.has k0 rest = false) as ->; [|reflexivity].
      destruct (Obj.has k0 rest) eqn:H0; [|reflexivity].
      apply has_in in H0. contradiction.
    + intros k. rewrite Hh, Hhas. unfold Obj.has at 4. cbn [existsb fst].
      fold (Obj.has k rest). now rewrite orb_assoc.
Qed.

Lemma updatePackageJson_spec (wanted : list TestCafeProject.Dependency)
  (fields deps : list (string * Js.value)) :
  Forall (fun d => ordinary_name (TestCafeProject.package d) = true) wanted ->
  Js.lookup "devDependencies" fields = Js.Object deps ->
  exists fields' deps',
    TestCafeProject.updatePackageJson wanted (Js.Object fields)
    = Obj.Returns (Js.Object fields')
    /\ Js.lookup "devDependencies" fields' = Js.Object deps'
    /\ (forall k, k <> "devDependencies" -> Js.lookup k fields' = Js.lookup k fields)
    /\ (forall k, Obj.has k fields' = Obj.has k fields)
    /\ (forall k, Js.lookup k deps' = listed k wanted (Js.lookup k deps))
    /\ (forall k, Obj.has k deps'
                  = Obj.has k deps
                    || existsb (fun d => String.eqb k (TestCafeProject.package d)) wanted).
Proof.
  intros Hall Hdeps.
  assert (Hown : Obj.has "devDependencies" fields = true)
    by (apply lookup_defined; rewrite Hdeps; discriminate).
  destruct (addedDependencies_from wanted Hall [] (NoDup_nil _))
    as (entries & Hadded & Hnodup & Hl & Hh).
  destruct (define_all_spec entries Hnodup) with (base := deps)
    as (merged & Hmerged & Hml & Hmh).
  { intros k Hk. rewrite Hh in Hk. cbn [Obj.has existsb orb] in Hk.
    apply existsb_exists in Hk as (d & Hin & E). apply String.eqb_eq in E. subst k.
    rewrite Forall_forall in Hall. specialize (Hall d Hin).
    unfold ordinary_name in Hall. apply andb_true_iff in Hall as [Hi _].
    now apply negb_true_iff in Hi. }
  exists (Obj.replace "devDependencies" (Js.Object merged) fields), merged.
  split.
  { unfold TestCafeProject.updatePackageJson, TestCafeProject.addedDependencies.
    rewrite Hadded. cbn [Obj.bind Obj.spread].
    rewrite (get_own fields "devDependencies" Hown), Hdeps.
    cbn [Obj.bind Obj.spread]. rewrite Hmerged. cbn [Obj.bind].
    unfold Obj.define. rewrite Hown. reflexivity. }
  split; [rewrite (lookup_replace _ _ _ _ Hown); reflexivity|].
  split.
  { intros k Hk. rewrite (lookup_replace _ _ _ _ Hown).
    apply String.eqb_neq in Hk. now rewrite Hk. }
  split; [intros k; apply has_replace|].
  split.
  - intros k. rewrite Hml, Hh, Hl. cbn [Obj.has existsb orb Js.lookup].
    now rewrite (listed_cases k wanted (Js.lookup k deps)).
  - intros k. rewrite Hmh, Hh. reflexivity.
Qed.

(** X8. [installDependencies] merges the listed packages into
    [devDependencies] and touches nothing else.  Given a [package.json]
    whose [devDependencies] is an object, and a list of packages with
    ordinary names, the function applied to the file returns an object
    with the same keys, all values but [devDependencies] as before, and
    in [devDependencies] every listed package at its listed version (the
    last one listed, if listed twice) and every other entry as before. *)
Theorem installDependencies_merges (wanted : list TestCafeProject.Dependency)
  (fields deps : list (string * Js.value)) :
  Forall (fun d => ordinary_name (TestCafeProject.package d) = true) wanted ->
  Js.lookup "devDependencies" fields = Js.Object deps ->
  exists fields' deps',
    TestCafeProject.updatePackageJson wanted (Js.Object fields)
    = Obj.Returns (Js.Object fields')
    /\ Js.lookup "devDependencies" fields' = Js.Object deps'
    /\ (forall k, k <> "devDependencies" -> Js.lookup k fields' = Js.lookup k fields)
    /\ (forall k, Obj.has k fields' = Obj.has k fields)
    /\ (forall k, Js.lookup k deps' = listed k wanted (Js.lookup k deps))
    /\ (forall k, Obj.has k deps'
                  = Obj.has k deps
                    || existsb (fun d => String.eqb k (TestCafeProject.package d)) wanted).
Proof. apply updatePackageJson_spec. Qed.

Lemma installDependencies_merges_witness :
  exists fields' deps',
    TestCafeProject.updatePackageJson
      [ {| TestCafeProject.package := "testcafe"; TestCafeProject.version := "0.23.0" |};
        {| TestCafeProject.package := "testcafe"; TestCafeProject.version := "1.0.0" |} ]
      (Js.Object [ ("name", Js.Str "workspace");
                   ("devDependencies", Js.Object [ ("typescript", Js.Str "3.1.0") ]) ])
    = Obj.Returns (Js.Object fields')
    /\ Js.lookup "devDependencies" fields' = Js.Object deps'
    /\ Js.lookup "testcafe" deps' = Js.Str "1.0.0"
    /\ Js.lookup "typescript" deps' = Js.Str "3.1.0".
Proof.
  destruct (installDependencies_merges
              [ {| TestCafeProject.package := "testcafe";
                   TestCafeProject.version := "0.23.0" |};
                {| TestCafeProject.package := "testcafe";
                   TestCafeProject.version := "1.0.0" |} ]
              [ ("name", Js.Str "workspace");
                ("devDependencies", Js.Object [ ("typescript", Js.Str "3.1.0") ]) ]
              [ ("typescript", Js.Str "3.1.0") ])
    as (fields' & deps' & H1 & H2 & _ & _ & H5 & _).
  - repeat constructor.
  - reflexivity.
  - exists fields', deps'. split; [exact H1|]. split; [exact H2|].
    split; [exact (H5 "testcafe") | exact (H5 "typescript")].
Defined.

(** *** [checkDependenciesInstalled] *)

Lemma checkDependenciesInstalled_list (testcafeVersion nxVersion : string)
  (fields deps : list (string * Js.value)) :
  Js.lookup "devDependencies" fields = Js.Object deps ->
  TestCafeProject.checkDependenciesInstalled testcafeVersion nxVersion
    (Js.Object fields)
  = Obj.Returns
      ((if Js.truthy (Js.lookup "cypress" deps) then []
        else [ {| TestCafeProject.package := "cypress";
                  TestCafeProject.version := testcafeVersion |};
               {| TestCafeProject.package := "@types/jquery";
                  TestCafeProject.version := "3.3.6" |} ])
       ++ (if Js.truthy (Js.lookup "@nrwl/builders" deps) then []
           else [ {| TestCafeProject.package := "@nrwl/builders";
                     TestCafeProject.version := nxVersion |} ]))%list.
Proof.
  intros Hdeps. unfold TestCafeProject.checkDependenciesInstalled.
  rewrite !(get_plain fields "devDependencies" eq_refl), Hdeps. cbn [Obj.bind].
  rewrite (get_plain deps "cypress" eq_refl),
    (get_plain deps "@nrwl/builders" eq_refl). cbn [Obj.bind].
  destruct (Js.truthy (Js.lookup "cypress" deps)),
    (Js.truthy (Js.lookup "@nrwl/builders" deps)); reflexivity.
Qed.

Lemma checked_names_ordinary (testcafeVersion nxVersion : string) (c b : bool) :
  Forall (fun d => ordinary_name (TestCafeProject.package d) = true)
    ((if c then []
      else [ {| TestCafeProject.package := "cypress";
                TestCafeProject.version := testcafeVersion |};
             {| TestCafeProject.package := "@types/jquery";
                TestCafeProject.version := "3.3.6" |} ])
     ++ (if b then []
         else [ {| TestCafeProject.package := "@nrwl/builders";
                   TestCafeProject.version := nxVersion |} ]))%list.
Proof. destruct c, b; repeat constructor. Qed.

Lemma checked_then_installed (testcafeVersion nxVersion : string)
  (fields deps : list (string * Js.value)) :
  Js.lookup "devDependencies" fields = Js.Object deps ->
  let cypress := Js.lookup "cypress" deps in
  let builders := Js.lookup "@nrwl/builders" deps in
  exists wanted fields' deps',
    TestCafeProject.checkDependenciesInstalled testcafeVersion nxVersion
      (Js.Object fields) = Obj.Returns wanted
    /\ (wanted = [] <-> Js.truthy cypress && Js.truthy builders = true)
    /\ TestCafeProject.updatePackageJson wanted (Js.Object fields)
       = Obj.Returns (Js.Object fields')
    /\ Js.lookup "devDependencies" fields' = Js.Object deps'
    /\ (forall k, k <> "devDependencies" -> Js.lookup k fields' = Js.lookup k fields)
    /\ Js.lookup "cypress" deps'
       = (if Js.truthy cypress then cypress else Js.Str testcafeVersion)
    /\ Js.lookup "@types/jquery" deps'
       = (if Js.truthy cypress then Js.lookup "@types/jquery" deps else Js.Str "3.3.6")
    /\ Js.lookup "@nrwl/builders" deps'
       = (if Js.truthy builders then builders else Js.Str nxVersion)
    /\ (forall k, k <> "cypress" -> k <> "@types/jquery" -> k <> "@nrwl/builders" ->
                  Js.lookup k deps' = Js.lookup k deps).
Proof.
  intros Hdeps cypress builders.
  pose proof (checkDependenciesInstalled_list testcafeVersion nxVersion
                fields deps Hdeps) as Hcheck.
  fold cypress builders in Hcheck.
  destruct (updatePackageJson_spec _ fields deps
              (checked_names_ordinary testcafeVersion nxVersion
                 (Js.truthy cypress) (Js.truthy builders)) Hdeps)
    as (fields' & deps' & Hupdate & Hdev & Hother & _ & Hlisted & _).
  eexists. exists fields', deps'.
  split; [exact Hcheck|]. split.
  { destruct (Js.truthy cypress), (Js.truthy builders); cbn;
      split; congruence. }
  split; [exact Hupdate|]. split; [exact Hdev|]. split; [exact Hother|].
  split; [|split; [|split]].
  - rewrite Hlisted. fold cypress.
    destruct (Js.truthy cypress), (Js.truthy builders); reflexivity.
  - rewrite Hlisted.
    destruct (Js.truthy cypress), (Js.truthy builders); reflexivity.
  - rewrite Hlisted. fold builders.
    destruct (Js.truthy cypress), (Js.truthy builders); reflexivity.
  - intros k H1 H2 H3. rewrite Hlisted.
    apply String.eqb_neq in H1, H2, H3.
    destruct (Js.truthy cypress), (Js.truthy builders); cbn;
      rewrite ?H1, ?H2, ?H3; reflexivity.
Qed.

(** X9. Given a [package.json] whose [devDependencies] is an object, the
    check asks for nothing when [cypress] and [@nrwl/builders] are both
    there with truthy values.  Otherwise what it asks for, once merged,
    gives: [cypress] at the TestCafe version when it was missing, and
    then also [@types/jquery] at 3.3.6 whatever it was before;
    [@nrwl/builders] at the Nx version when it was missing; every other
    entry, a [testcafe] entry included, and every other key of the file
    as before. *)
Theorem dependencies_checked_then_installed (testcafeVersion nxVersion : string)
  (fields deps : list (string * Js.value)) :
  Js.lookup "devDependencies" fields = Js.Object deps ->
  let cypress := Js.lookup "cypress" deps in
  let builders := Js.lookup "@nrwl/builders" deps in
  exists wanted fields' deps',
    TestCafeProject.checkDependenciesInstalled testcafeVersion nxVersion
      (Js.Object fields) = Obj.Returns wanted
    /\ (wanted = [] <-> Js.truthy cypress && Js.truthy builders = true)
    /\ TestCafeProject.updatePackageJson wanted (Js.Object fields)
       = Obj.Returns (Js.Object fields')
    /\ Js.lookup "devDependencies" fields' = Js.Object deps'
    /\ (forall k, k <> "devDependencies" -> Js.lookup k fields' = Js.lookup k fields)
    /\ Js.lookup "cypress" deps'
       = (if Js.truthy cypress then cypress else Js.Str testcafeVersion)
    /\ Js.lookup "@types/jquery" deps'
       = (if Js.truthy cypress then Js.lookup "@types/jquery" deps else Js.Str "3.3.6")
    /\ Js.lookup "@nrwl/builders" deps'
       = (if Js.truthy builders then builders else Js.Str nxVersion)
    /\ (forall k, k <> "cypress" -> k <> "@types/jquery" -> k <> "@nrwl/builders" ->
                  Js.lookup k deps' = Js.lookup k deps).
Proof. apply checked_then_installed. Qed.

Lemma dependencies_checked_then_installed_witness :
  exists wanted fields' deps',
    TestCafeProject.checkDependenciesInstalled "0.23.0" "7.0.0"
      (Js.Object [ ("devDependencies",
                    Js.Object [ ("@types/jquery", Js.Str "2.0.0");
                                ("testcafe", Js.Str "0.20.0") ]) ])
    = Obj.Returns wanted
    /\ TestCafeProject.updatePackageJson wanted
         (Js.Object [ ("devDependencies",
                       Js.Object [ ("@types/jquery", Js.Str "2.0.0");
                                   ("testcafe", Js.Str "0.20.0") ]) ])
       = Obj.Returns (Js.Object fields')
    /\ Js.lookup "devDependencies" fields' = Js.Object deps'
    /\ Js.lookup "cypress" deps' = Js.Str "0.23.0"
    /\ Js.lookup "@types/jquery" deps' = Js.Str "3.3.6"
    /\ Js.lookup "testcafe" deps' = Js.Str "0.20.0".
Proof.
  destruct (dependencies_checked_then_installed "0.23.0" "7.0.0"
              [ ("devDependencies",
                 Js.Object [ ("@types/jquery", Js.Str "2.0.0");
                             ("testcafe", Js.Str "0.20.0") ]) ]
              [ ("@types/jquery", Js.Str "2.0.0"); ("testcafe", Js.Str "0.20.0") ]
              eq_refl)
    as (wanted & fields' & deps' & H1 & _ & H3 & H4 & _ & H6 & H7 & _ & H9).
  exists wanted, fields', deps'.
  split; [exact H1|]. split; [exact H3|]. split; [exact H4|].
  split; [exact H6|]. split; [exact H7|].
  apply (H9 "testcafe"); discriminate.
Defined.

(** X10. Checking again after the merge asks for nothing: with a
    [package.json] whose [devDependencies] is an object, and with
    non-empty TestCafe and Nx versions, the check on the file that the
    merge returns gives the empty list. *)
Theorem dependencies_settle (testcafeVersion nxVersion : string)
  (fields deps : list (string * Js.value)) :
  testcafeVersion <> "" ->
  nxVersion <> "" ->
  Js.lookup "devDependencies" fields = Js.Object deps ->
  exists wanted packageJson',
    TestCafeProject.checkDependenciesInstalled testcafeVersion nxVersion
      (Js.Object fields) = Obj.Returns wanted
    /\ TestCafeProject.updatePackageJson wanted (Js.Object fields)
       = Obj.Returns packageJson'
    /\ TestCafeProject.checkDependenciesInstalled testcafeVersion nxVersion
         packageJson' = Obj.Returns [].
Proof.
  intros Htv Hnv Hdeps.
  destruct (checked_then_installed testcafeVersion nxVersion fields deps Hdeps)
    as (wanted & fields' & deps' & Hcheck & _ & Hupdate & Hdev & _ & Hc & _ & Hb & _).
  exists wanted, (Js.Object fields'). split; [exact Hcheck|]. split; [exact Hupdate|].
  rewrite (checkDependenciesInstalled_list _ _ fields' deps' Hdev), Hc, Hb.
  apply truthy_string_spec in Htv, Hnv. unfold Js.truthy_string in Htv, Hnv.
  assert (Js.truthy (if Js.truthy (Js.lookup "cypress" deps)
                     then Js.lookup "cypress" deps else Js.Str testcafeVersion)
          = true) as ->.
  { destruct (Js.truthy (Js.lookup "cypress" deps)) eqn:E; [exact E | exact Htv]. }
  assert (Js.truthy (if Js.truthy (Js.lookup "@nrwl/builders" deps)
                     then Js.lookup "@nrwl/builders" deps else Js.Str nxVersion)
          = true) as ->.
  { destruct (Js.truthy (Js.lookup "@nrwl/builders" deps)) eqn:E;
      [exact E | exact Hnv]. }
  reflexivity.
Qed.

Lemma dependencies_settle_witness :
  exists wanted packageJson',
    TestCafeProject.checkDependenciesInstalled "0.23.0" "7.0.0"
      (Js.Object [ ("devDependencies", Js.Object []) ]) = Obj.Returns wanted
    /\ TestCafeProject.updatePackageJson wanted
         (Js.Object [ ("devDependencies", Js.Object []) ])
       = Obj.Returns packageJson'
    /\ TestCafeProject.checkDependenciesInstalled "0.23.0" "7.0.0" packageJson'
       = Obj.Returns [].
Proof.
  apply (dependencies_settle "0.23.0" "7.0.0"
           [ ("devDependencies", Js.Object []) ] []);
    [discriminate | discriminate | reflexivity].
Defined.

(** X11. Without [devDependencies] the check throws: on a [package.json]
    that has no such key, or has [null] there, reading [cypress] is a
    [TypeError] and no list is built. *)
Theorem dependencies_need_devDependencies (testcafeVersion nxVersion : string)
  (fields : list (string * Js.value)) :
  (Obj.has "devDependencies" fields = false ->
   TestCafeProject.checkDependenciesInstalled testcafeVersion nxVersion
     (Js.Object fields)
   = Obj.Throws (Js.Err "TypeError" "Cannot read property 'cypress' of undefined"))
  /\ (Js.lookup "devDependencies" fields = Js.Null ->
      TestCafeProject.checkDependenciesInstalled testcafeVersion nxVersion
        (Js.Object fields)
      = Obj.Throws (Js.Err "TypeError" "Cannot read property 'cypress' of null")).
Proof.
  unfold TestCafeProject.checkDependenciesInstalled. split; intros H.
  - rewrite (get_plain fields "devDependencies" eq_refl), (lookup_missing _ _ H).
    reflexivity.
  - rewrite (get_plain fields "devDependencies" eq_refl), H. reflexivity.
Qed.

Lemma dependencies_need_devDependencies_witness :
  TestCafeProject.checkDependenciesInstalled "0.23.0" "7.0.0"
    (Js.Object [ ("name", Js.Str "workspace");
                 ("dependencies", Js.Object [ ("rxjs", Js.Str "6.0.0") ]) ])
  = Obj.Throws (Js.Err "TypeError" "Cannot read property 'cypress' of undefined").
Proof.
  apply (dependencies_need_devDependencies "0.23.0" "7.0.0"
           [ ("name", Js.Str "workspace");
             ("dependencies", Js.Object [ ("rxjs", Js.Str "6.0.0") ]) ]).
  reflexivity.
Defined.

(** *** [updateAngularJson] and [checkArchitectTarget] *)

Lemma set_spec (fields : list (string * Js.value)) (k : string) (x : Js.value) :
  Obj.has k fields = true \/ ordinary_name k = true ->
  exists fields',
    Obj.set (Js.Object fields) k x = Obj.Returns (Js.Object fields')
    /\ (forall k', Js.lookup k' fields'
                   = if String.eqb k' k then x else Js.lookup k' fields)
    /\ (forall k', Obj.has k' fields' = Obj.has k' fields || String.eqb k' k).
Proof.
  intros [Hown|Hord].
  - exists (Obj.replace k x fields).
    assert (Hdef : Obj.define fields k x = Obj.Returns (Obj.replace k x fields))
      by (unfold Obj.define; now rewrite Hown).
    destruct (define_spec _ _ _ _ Hdef) as (Hl & Hh & _).
    split; [|split; assumption].
    unfold Obj.set. rewrite Hown. cbn [negb andb]. now rewrite Hdef.
  - destruct (set_object fields k x Hord) as (fields' & Hset & Hdef).
    destruct (define_spec _ _ _ _ Hdef) as (Hl & Hh & _).
    exists fields'. split; [exact Hset|]. split; assumption.
Qed.

Lemma updateAngularJson_spec (options : TestCafeProject.TestCafeProjectSchema)
  (fields projects config architect : list (string * Js.value)) :
  let e2eProjectName := TestCafeProject.e2eProjectName options in
  Js.lookup "projects" fields = Js.Object projects ->
  Js.lookup e2eProjectName projects = Js.Object config ->
  Js.lookup "architect" config = Js.Object architect ->
  exists fields' projects' config' architect',
    TestCafeProject.updateAngularJson options (Js.Object fields)
    = Obj.Returns (Js.Object fields')
    /\ Js.lookup "projects" fields' = Js.Object projects'
    /\ Js.lookup e2eProjectName projects' = Js.Object config'
    /\ Js.lookup "root" config' = Js.Str (TestCafeProject.e2eProjectRoot options)
    /\ Js.lookup "architect" config' = Js.Object architect'
    /\ Js.lookup "e2e" architect' = TestCafeProject.e2eTarget options
    /\ (forall k, k <> "e2e" -> Js.lookup k architect' = Js.lookup k architect)
    /\ (forall k, k <> "root" -> k <> "architect" ->
                  Js.lookup k config' = Js.lookup k config)
    /\ (forall k, k <> e2eProjectName -> Js.lookup k projects' = Js.lookup k projects)
    /\ (forall k, k <> "projects" -> Js.lookup k fields' = Js.lookup k fields).
Proof.
  intros e2eProjectName Hprojects Hconfig Harchitect.
  assert (Hp : Obj.has "projects" fields = true)
    by (apply lookup_defined; rewrite Hprojects; discriminate).
  assert (Hc : Obj.has e2eProjectName projects = true)
    by (apply lookup_defined; rewrite Hconfig; discriminate).
  destruct (set_spec config "root" (Js.Str (TestCafeProject.e2eProjectRoot options))
              (or_intror eq_refl)) as (config1 & Hset1 & Hl1 & Hh1).
  assert (Ha1 : Obj.has "architect" config1 = true).
  { apply lookup_defined. rewrite Hl1. cbn. rewrite Harchitect. discriminate. }
  destruct (set_spec architect "e2e" (TestCafeProject.e2eTarget options)
              (or_intror eq_refl)) as (architect' & Hset2 & Hl2 & _).
  destruct (set_spec config1 "architect" (Js.Object architect') (or_introl Ha1))
    as (config2 & Hset3 & Hl3 & _).
  destruct (set_spec projects e2eProjectName (Js.Object config2) (or_introl Hc))
    as (projects' & Hset4 & Hl4 & _).
  destruct (set_spec fields "projects" (Js.Object projects') (or_introl Hp))
    as (fields' & Hset5 & Hl5 & _).
  exists fields', projects', config2, architect'.
  split.
  { unfold TestCafeProject.updateAngularJson. fold e2eProjectName.
    rewrite (get_own fields "projects" Hp), Hprojects. cbn [Obj.bind].
    rewrite (get_own projects e2eProjectName Hc), Hconfig. cbn [Obj.bind].
    rewrite Hset1. cbn [Obj.bind].
    assert (Hget : Obj.get (Js.Object config1) "architect"
                   = Obj.Returns (Js.Object architect)).
    { rewrite (get_own config1 "architect" Ha1), Hl1.
      change (String.eqb "architect" "root") with false. cbv iota.
      now rewrite Harchitect. }
    rewrite Hget. cbn [Obj.bind].
    rewrite Hset2. cbn [Obj.bind]. rewrite Hset3. cbn [Obj.bind].
    rewrite Hset4. cbn [Obj.bind]. exact Hset5. }
  split; [rewrite Hl5; reflexivity|].
  split; [rewrite Hl4; now rewrite String.eqb_refl|].
  split; [rewrite Hl3, Hl1; reflexivity|].
  split; [rewrite Hl3; reflexivity|].
  split; [rewrite Hl2; reflexivity|].
  split; [intros k Hk; rewrite Hl2; apply String.eqb_neq in Hk; now rewrite Hk|].
  split.
  { intros k H1 H2. rewrite Hl3, Hl1.
    apply String.eqb_neq in H1, H2. now rewrite H1, H2. }
  split.
  - intros k Hk. rewrite Hl4. apply String.eqb_neq in Hk. now rewrite Hk.
  - intros k Hk. rewrite Hl5. apply String.eqb_neq in Hk. now rewrite Hk.
Qed.

(** X12. On an [angular.json] in which the e2e project exists and has an
    [architect] object, [updateAngularJson] sets the root of that project
    and puts the TestCafe target in place of whatever [e2e] target was
    there, nothing of the old one being kept.  The other targets of the
    project, its other keys, the other projects and the other keys of the
    file stay as they were. *)
Theorem updateAngularJson_writes (options : TestCafeProject.TestCafeProjectSchema)
  (fields projects config architect : list (string * Js.value)) :
  let e2eProjectName := TestCafeProject.e2eProjectName options in
  Js.lookup "projects" fields = Js.Object projects ->
  Js.lookup e2eProjectName projects = Js.Object config ->
  Js.lookup "architect" config = Js.Object architect ->
  exists fields' projects' config' architect',
    TestCafeProject.updateAngularJson options (Js.Object fields)
    = Obj.Returns (Js.Object fields')
    /\ Js.lookup "projects" fields' = Js.Object projects'
    /\ Js.lookup e2eProjectName projects' = Js.Object config'
    /\ Js.lookup "root" config' = Js.Str (TestCafeProject.e2eProjectRoot options)
    /\ Js.lookup "architect" config' = Js.Object architect'
    /\ Js.lookup "e2e" architect' = TestCafeProject.e2eTarget options
    /\ (forall k, k <> "e2e" -> Js.lookup k architect' = Js.lookup k architect)
    /\ (forall k, k <> "root" -> k <> "architect" ->
                  Js.lookup k config' = Js.lookup k config)
    /\ (forall k, k <> e2eProjectName -> Js.lookup k projects' = Js.lookup k projects)
    /\ (forall k, k <> "projects" -> Js.lookup k fields' = Js.lookup k fields).
Proof. apply updateAngularJson_spec. Qed.

Lemma updateAngularJson_writes_witness :
  exists fields' projects' config' architect',
    TestCafeProject.updateAngularJson shop_e2e (Js.Object angular_json)
    = Obj.Returns (Js.Object fields')
    /\ Js.lookup "projects" fields' = Js.Object projects'
    /\ Js.lookup "shop-e2e" projects' = Js.Object config'
    /\ Js.lookup "root" config' = Js.Str "apps/shop-e2e"
    /\ Js.lookup "architect" config' = Js.Object architect'
    /\ Js.lookup "e2e" architect' = TestCafeProject.e2eTarget shop_e2e
    /\ Js.lookup "lint" architect' = Js.Object []
    /\ Js.lookup "projectType" config' = Js.Str "application"
    /\ Js.lookup "version" fields' = Js.Number 1.
Proof.
  destruct (updateAngularJson_writes shop_e2e angular_json
              [ ("shop", Js.Object [ ("root", Js.Str "apps/shop");
                                     ("architect", Js.Object [ ("serve", Js.Object []) ]) ]);
                ("shop-e2e",
                 Js.Object [ ("root", Js.Str "");
                             ("projectType", Js.Str "application");
                             ("architect",
                              Js.Object [ ("e2e", Js.Object [ ("builder", Js.Str "protractor") ]);
                                          ("lint", Js.Object []) ]) ]) ]
              [ ("root", Js.Str "");
                ("projectType", Js.Str "application");
                ("architect",
                 Js.Object [ ("e2e", Js.Object [ ("builder", Js.Str "protractor") ]);
                             ("lint", Js.Object []) ]) ]
              [ ("e2e", Js.Object [ ("builder", Js.Str "protractor") ]);
                ("lint", Js.Object []) ])
    as (fields' & projects' & config' & architect'
        & H1 & H2 & H3 & H4 & H5 & H6 & H7 & H8 & _ & H10).
  - reflexivity.
  - reflexivity.
  - reflexivity.
  - exists fields', projects', config', architect'.
    split; [exact H1|]. split; [exact H2|]. split; [exact H3|].
    split; [exact H4|]. split; [exact H5|]. split; [exact H6|].
    split; [rewrite H7; [reflexivity|discriminate]|].
    split; [rewrite H8; [reflexivity|discriminate|discriminate]|].
    rewrite H10; [reflexivity|discriminate].
Defined.

Lemma at_path_cons (k : string) (path : list string) (v x : Js.value) :
  Obj.get v k = Obj.Returns x -> at_path (k :: path) v = at_path path x.
Proof. intros H. unfold at_path. cbn [fold_left Obj.bind]. now rewrite H. Qed.

Lemma get_object (fields fields' : list (string * Js.value)) (k : string) :
  Js.lookup k fields = Js.Object fields' ->
  Obj.get (Js.Object fields) k = Obj.Returns (Js.Object fields').
Proof.
  intros H. rewrite get_own; [now rewrite H|].
  apply lookup_defined. rewrite H. discriminate.
Qed.

Lemma append_truthy (s : string) (c : ascii) (r : string) :
  Js.truthy_string (s ++ String c r) = true.
Proof. destruct s; reflexivity. Qed.

Lemma written_targets_spec (options : TestCafeProject.TestCafeProjectSchema)
  (fields projects config architect : list (string * Js.value))
  (isWatching : bool) :
  let e2eProjectName := TestCafeProject.e2eProjectName options in
  let name := TestCafeProject.name options in
  Js.includes ":" name = false ->
  Js.lookup "projects" fields = Js.Object projects ->
  Js.lookup e2eProjectName projects = Js.Object config ->
  Js.lookup "architect" config = Js.Object architect ->
  exists json' plain production,
    TestCafeProject.updateAngularJson options (Js.Object fields) = Obj.Returns json'
    /\ at_path ["projects"; e2eProjectName; "architect"; "e2e";
                "options"; "devServerTarget"] json'
       = Obj.Returns (Js.Str plain)
    /\ at_path ["projects"; e2eProjectName; "architect"; "e2e";
                "configurations"; "production"; "devServerTarget"] json'
       = Obj.Returns (Js.Str production)
    /\ Js.truthy_string plain = true
    /\ Js.truthy_string production = true
    /\ project (targetSpec plain isWatching) = Some name
    /\ target (targetSpec plain isWatching) = Some "serve"
    /\ configuration (targetSpec plain isWatching) = None
    /\ project (targetSpec production isWatching) = Some name
    /\ target (targetSpec production isWatching) = Some "serve"
    /\ configuration (targetSpec production isWatching) = Some "production".
Proof.
  intros e2eProjectName name Hname Hprojects Hconfig Harchitect.
  destruct (updateAngularJson_spec options fields projects config architect
              Hprojects Hconfig Harchitect)
    as (fields' & projects' & config' & architect'
        & H1 & H2 & H3 & _ & H5 & H6 & _).
  fold e2eProjectName in H3.
  exists (Js.Object fields'), (name ++ ":serve"), (name ++ ":serve:production").
  split; [exact H1|].
  assert (Hpath : forall rest,
             at_path ("projects" :: e2eProjectName :: "architect" :: "e2e" :: rest)
               (Js.Object fields')
             = at_path rest (TestCafeProject.e2eTarget options)).
  { intros rest.
    rewrite (at_path_cons _ _ _ _ (get_object _ _ _ H2)).
    rewrite (at_path_cons _ _ _ _ (get_object _ _ _ H3)).
    rewrite (at_path_cons _ _ _ _ (get_object _ _ _ H5)).
    apply at_path_cons. unfold TestCafeProject.e2eTarget in *.
    now apply get_object. }
  split; [rewrite Hpath; reflexivity|].
  split; [rewrite Hpath; reflexivity|].
  split; [apply append_truthy|]. split; [apply append_truthy|].
  unfold targetSpec. cbn [project target configuration].
  change (name ++ ":serve:production")
    with (name ++ String ":" ("serve" ++ String ":" "production")).
  change (name ++ ":serve") with (name ++ String ":" "serve").
  rewrite !split_at_separator by (assumption || reflexivity).
  repeat split.
Qed.

(** X13. The two [devServerTarget] strings that [updateAngularJson]
    writes are read back by the builder as targets of the application:
    when the application's name holds no colon, both are non-empty, so
    that [run] starts a dev server, and [startDevServer] splits them into
    the project [name], the target [serve] and no configuration,
    respectively the configuration [production]. *)
Theorem written_targets_parse (options : TestCafeProject.TestCafeProjectSchema)
  (fields projects config architect : list (string * Js.value))
  (isWatching : bool) :
  let e2eProjectName := TestCafeProject.e2eProjectName options in
  let name := TestCafeProject.name options in
  Js.includes ":" name = false ->
  Js.lookup "projects" fields = Js.Object projects ->
  Js.lookup e2eProjectName projects = Js.Object config ->
  Js.lookup "architect" config = Js.Object architect ->
  exists json' plain production,
    TestCafeProject.updateAngularJson options (Js.Object fields) = Obj.Returns json'
    /\ at_path ["projects"; e2eProjectName; "architect"; "e2e";
                "options"; "devServerTarget"] json'
       = Obj.Returns (Js.Str plain)
    /\ at_path ["projects"; e2eProjectName; "architect"; "e2e";
                "configurations"; "production"; "devServerTarget"] json'
       = Obj.Returns (Js.Str production)
    /\ Js.truthy_string plain = true
    /\ Js.truthy_string production = true
    /\ project (targetSpec plain isWatching) = Some name
    /\ target (targetSpec plain isWatching) = Some "serve"
    /\ configuration (targetSpec plain isWatching) = None
    /\ project (targetSpec production isWatching) = Some name
    /\ target (targetSpec production isWatching) = Some "serve"
    /\ configuration (targetSpec production isWatching) = Some "production".
Proof. apply written_targets_spec. Qed.

Lemma written_targets_parse_witness :
  exists json' plain production,
    TestCafeProject.updateAngularJson shop_e2e (Js.Object angular_json)
    = Obj.Returns json'
    /\ at_path ["projects"; "shop-e2e"; "architect"; "e2e";
                "options"; "devServerTarget"] json'
       = Obj.Returns (Js.Str plain)
    /\ at_path ["projects"; "shop-e2e"; "architect"; "e2e";
                "configurations"; "production"; "devServerTarget"] json'
       = Obj.Returns (Js.Str production)
    /\ project (targetSpec plain false) = Some "shop"
    /\ configuration (targetSpec production false) = Some "production".
Proof.
  destruct (written_targets_parse shop_e2e angular_json
              [ ("shop", Js.Object [ ("root", Js.Str "apps/shop");
                                     ("architect", Js.Object [ ("serve", Js.Object []) ]) ]);
                ("shop-e2e",
                 Js.Object [ ("root", Js.Str "");
                             ("projectType", Js.Str "application");
                             ("architect",
                              Js.Object [ ("e2e", Js.Object [ ("builder", Js.Str "protractor") ]);
                                          ("lint", Js.Object []) ]) ]) ]
              [ ("root", Js.Str "");
                ("projectType", Js.Str "application");
                ("architect",
                 Js.Object [ ("e2e", Js.Object [ ("builder", Js.Str "protractor") ]);
                             ("lint", Js.Object []) ]) ]
              [ ("e2e", Js.Object [ ("builder", Js.Str "protractor") ]);
                ("lint", Js.Object []) ]
              false)
    as (json' & plain & production & H1 & H2 & H3 & _ & _ & H6 & _ & _ & _ & _ & H11).
  - reflexivity.
  - reflexivity.
  - reflexivity.
  - reflexivity.
  - exists json', plain, production.
    split; [exact H1|]. split; [exact H2|]. split; [exact H3|].
    split; [exact H6 | exact H11].
Defined.

Lemma get_missing (fields : list (string * Js.value)) (k : string) :
  Obj.has k fields = false -> Obj.inherited k = false ->
  Obj.get (Js.Object fields) k = Obj.Returns Js.Undefined.
Proof. intros H1 H2. unfold Obj.get. now rewrite H1, H2. Qed.

Lemma emptied_project_spec (options : TestCafeProject.TestCafeProjectSchema)
  (fields projects config : list (string * Js.value)) :
  let e2eProjectName := TestCafeProject.e2eProjectName options in
  Js.lookup "projects" fields = Js.Object projects ->
  Js.lookup e2eProjectName projects = Js.Object config ->
  (Obj.has "architect" config = false ->
   TestCafeProject.lacks_e2e (Js.Object config)
   = Obj.Throws (Obj.cannot "read" "e2e" "undefined"))
  /\ (forall architect,
        Js.lookup "architect" config = Js.Object architect ->
        Js.truthy (Js.lookup "e2e" architect) = false ->
        TestCafeProject.lacks_e2e (Js.Object config) = Obj.Returns true
        /\ exists fields1 projects1,
             TestCafeProject.emptyProject options (Js.Object fields)
             = Obj.Returns (Js.Object fields1)
             /\ Js.lookup "projects" fields1 = Js.Object projects1
             /\ Js.lookup e2eProjectName projects1 = Js.Object []
             /\ (forall k, k <> e2eProjectName ->
                           Js.lookup k projects1 = Js.lookup k projects)
             /\ (forall k, k <> "projects" -> Js.lookup k fields1 = Js.lookup k fields)
             /\ TestCafeProject.updateAngularJson options (Js.Object fields1)
                = Obj.Throws (Obj.cannot "set" "e2e" "undefined")).
Proof.
  intros e2eProjectName Hprojects Hconfig. split.
  - intros Hnone. unfold TestCafeProject.lacks_e2e.
    now rewrite (get_missing config "architect" Hnone eq_refl).
  - intros architect Harchitect Hfalsy. split.
    + unfold TestCafeProject.lacks_e2e.
      rewrite (get_object _ _ _ Harchitect). cbn [Obj.bind].
      assert (Hget : Obj.get (Js.Object architect) "e2e"
                     = Obj.Returns (Js.lookup "e2e" architect)).
      { destruct (Obj.has "e2e" architect) eqn:Hhas.
        - now apply get_own.
        - rewrite (get_missing architect "e2e" Hhas eq_refl).
          now rewrite (lookup_missing _ _ Hhas). }
      rewrite Hget. cbn [Obj.bind]. now rewrite Hfalsy.
    + assert (Hp : Obj.has "projects" fields = true)
        by (apply lookup_defined; rewrite Hprojects; discriminate).
      assert (Hc : Obj.has e2eProjectName projects = true)
        by (apply lookup_defined; rewrite Hconfig; discriminate).
      destruct (set_spec projects e2eProjectName (Js.Object []) (or_introl Hc))
        as (projects1 & Hset1 & Hl1 & _).
      destruct (set_spec fields "projects" (Js.Object projects1) (or_introl Hp))
        as (fields1 & Hset2 & Hl2 & _).
      assert (Hp1 : Js.lookup "projects" fields1 = Js.Object projects1)
        by (rewrite Hl2; reflexivity).
      assert (Hc1 : Js.lookup e2eProjectName projects1 = Js.Object [])
        by (rewrite Hl1; now rewrite String.eqb_refl).
      exists fields1, projects1.
      split.
      { unfold TestCafeProject.emptyProject. fold e2eProjectName.
        rewrite (get_object _ _ _ Hprojects). cbn [Obj.bind].
        rewrite Hset1. cbn [Obj.bind]. exact Hset2. }
      split; [exact Hp1|]. split; [exact Hc1|].
      split.
      { intros k Hk. rewrite Hl1. apply String.eqb_neq in Hk. now rewrite Hk. }
      split.
      { intros k Hk. rewrite Hl2. apply String.eqb_neq in Hk. now rewrite Hk. }
      unfold TestCafeProject.updateAngularJson. fold e2eProjectName.
      rewrite (get_object _ _ _ Hp1). cbn [Obj.bind].
      rewrite (get_object _ _ _ Hc1). reflexivity.
Qed.

(** X14. What [checkArchitectTarget] does to a project of [angular.json]
    whose configuration is an object, its test being applied to that
    configuration.  Without an [architect] the test throws a [TypeError].  With an [architect] object that holds no truthy
    [e2e], the test holds and the function it applies replaces the
    project by the empty object, leaving the other projects and the other
    keys of the file alone; [updateAngularJson] applied to that file
    then throws [TypeError: Cannot set property 'e2e' of undefined], as
    the emptied project has no [architect]. *)
Theorem checkArchitectTarget_empties_project
  (options : TestCafeProject.TestCafeProjectSchema)
  (fields projects config : list (string * Js.value)) :
  let e2eProjectName := TestCafeProject.e2eProjectName options in
  Js.lookup "projects" fields = Js.Object projects ->
  Js.lookup e2eProjectName projects = Js.Object config ->
  (Obj.has "architect" config = false ->
   TestCafeProject.lacks_e2e (Js.Object config)
   = Obj.Throws (Js.Err "TypeError" "Cannot read property 'e2e' of undefined"))
  /\ (forall architect,
        Js.lookup "architect" config = Js.Object architect ->
        Js.truthy (Js.lookup "e2e" architect) = false ->
        TestCafeProject.lacks_e2e (Js.Object config) = Obj.Returns true
        /\ exists fields1 projects1,
             TestCafeProject.emptyProject options (Js.Object fields)
             = Obj.Returns (Js.Object fields1)
             /\ Js.lookup "projects" fields1 = Js.Object projects1
             /\ Js.lookup e2eProjectName projects1 = Js.Object []
             /\ (forall k, k <> e2eProjectName ->
                           Js.lookup k projects1 = Js.lookup k projects)
             /\ (forall k, k <> "projects" -> Js.lookup k fields1 = Js.lookup k fields)
             /\ TestCafeProject.updateAngularJson options (Js.Object fields1)
                = Obj.Throws
                    (Js.Err "TypeError" "Cannot set property 'e2e' of undefined")).
Proof. apply emptied_project_spec. Qed.

Lemma checkArchitectTarget_empties_project_witness :
  let fields :=
    [ ("projects",
       Js.Object
         [ ("shop-e2e",
            Js.Object [ ("root", Js.Str "apps/shop-e2e");
                        ("architect", Js.Object [ ("lint", Js.Object []) ]) ]) ]) ] in
  TestCafeProject.lacks_e2e
    (Js.Object [ ("root", Js.Str "apps/shop-e2e");
                 ("architect", Js.Object [ ("lint", Js.Object []) ]) ])
  = Obj.Returns true
  /\ exists fields1,
       TestCafeProject.emptyProject shop_e2e (Js.Object fields)
       = Obj.Returns (Js.Object fields1)
       /\ TestCafeProject.updateAngularJson shop_e2e (Js.Object fields1)
          = Obj.Throws (Js.Err "TypeError" "Cannot set property 'e2e' of undefined").
Proof.
  intros fields.
  destruct (checkArchitectTarget_empties_project shop_e2e fields
              [ ("shop-e2e",
                 Js.Object [ ("root", Js.Str "apps/shop-e2e");
                             ("architect", Js.Object [ ("lint", Js.Object []) ]) ]) ]
              [ ("root", Js.Str "apps/shop-e2e");
                ("architect", Js.Object [ ("lint", Js.Object []) ]) ]
              eq_refl eq_refl) as [_ H].
  destruct (H [ ("lint", Js.Object []) ] eq_refl eq_refl)
    as (Htest & fields1 & projects1 & H1 & _ & _ & _ & _ & H6).
  split; [exact Htest|]. exists fields1. split; [exact H1 | exact H6].
Defined.

Lemma updateAngularJson_throws_spec (options : TestCafeProject.TestCafeProjectSchema)
  (fields : list (string * Js.value)) :
  let e2eProjectName := TestCafeProject.e2eProjectName options in
  (Obj.has "projects" fields = false ->
   TestCafeProject.updateAngularJson options (Js.Object fields)
   = Obj.Throws (Obj.cannot "read" e2eProjectName "undefined"))
  /\ (forall projects,
        Js.lookup "projects" fields = Js.Object projects ->
        (Obj.has e2eProjectName projects = false ->
         Obj.inherited e2eProjectName = false ->
         TestCafeProject.updateAngularJson options (Js.Object fields)
         = Obj.Throws (Obj.cannot "set" "root" "undefined"))
        /\ (Js.lookup e2eProjectName projects = Js.Null ->
            TestCafeProject.updateAngularJson options (Js.Object fields)
            = Obj.Throws (Obj.cannot "set" "root" "null"))
        /\ (forall config,
              Js.lookup e2eProjectName projects = Js.Object config ->
              (Obj.has "architect" config = false ->
               TestCafeProject.updateAngularJson options (Js.Object fields)
               = Obj.Throws (Obj.cannot "set" "e2e" "undefined"))
              /\ (Js.lookup "architect" config = Js.Null ->
                  TestCafeProject.updateAngularJson options (Js.Object fields)
                  = Obj.Throws (Obj.cannot "set" "e2e" "null")))).
Proof.
  intros e2eProjectName. split.
  - intros Hnone. unfold TestCafeProject.updateAngularJson.
    now rewrite (get_missing fields "projects" Hnone eq_refl).
  - intros projects Hprojects.
    assert (Hstart : forall k : Js.value -> Obj.result Js.value,
               (projects0 <~ Obj.get (Js.Object fields) "projects" ;; k projects0)
               = k (Js.Object projects))
      by (intros k; now rewrite (get_object _ _ _ Hprojects)).
    split; [|split].
    + intros Hnone Hplain. unfold TestCafeProject.updateAngularJson.
      rewrite Hstart. fold e2eProjectName.
      now rewrite (get_missing projects e2eProjectName Hnone Hplain).
    + intros Hnull. unfold TestCafeProject.updateAngularJson.
      rewrite Hstart. fold e2eProjectName.
      rewrite get_own, Hnull; [reflexivity|].
      apply lookup_defined. rewrite Hnull. discriminate.
    + intros config Hconfig.
      destruct (set_spec config "root" (Js.Str (TestCafeProject.e2eProjectRoot options))
                  (or_intror eq_refl)) as (config1 & Hset1 & Hl1 & Hh1).
      assert (Hroot : TestCafeProject.updateAngularJson options (Js.Object fields)
                      = (architect <~ Obj.get (Js.Object config1) "architect" ;;
                         architect' <~ Obj.set architect "e2e"
                                         (TestCafeProject.e2eTarget options) ;;
                         projectConfig2 <~ Obj.set (Js.Object config1) "architect"
                                             architect' ;;
                         projects' <~ Obj.set (Js.Object projects) e2eProjectName
                                        projectConfig2 ;;
                         Obj.set (Js.Object fields) "projects" projects')).
      { unfold TestCafeProject.updateAngularJson. rewrite Hstart.
        fold e2eProjectName. rewrite (get_object _ _ _ Hconfig). cbn [Obj.bind].
        now rewrite Hset1. }
      rewrite Hroot. split.
      * intros Hnone. rewrite get_missing; [reflexivity| |reflexivity].
        rewrite Hh1, Hnone. reflexivity.
      * intros Hnull.
        assert (Hl : Js.lookup "architect" config1 = Js.Null)
          by (rewrite Hl1; exact Hnull).
        rewrite get_own, Hl; [reflexivity|].
        apply lookup_defined. rewrite Hl. discriminate.
Qed.

(** X15. [updateAngularJson] creates nothing that is missing on the way
    to the target: it throws a [TypeError] when [angular.json] has no
    [projects] (reading the project of [undefined]), when the e2e project
    is not in it or is [null] (setting [root]), and when the project has
    no [architect] or a [null] one (setting [e2e], after [root] was
    set). *)
Theorem updateAngularJson_needs_project_and_architect
  (options : TestCafeProject.TestCafeProjectSchema)
  (fields : list (string * Js.value)) :
  let e2eProjectName := TestCafeProject.e2eProjectName options in
  (Obj.has "projects" fields = false ->
   TestCafeProject.updateAngularJson options (Js.Object fields)
   = Obj.Throws
       (Js.Err "TypeError"
          ("Cannot read property '" ++ e2eProjectName ++ "' of undefined")))
  /\ (forall projects,
        Js.lookup "projects" fields = Js.Object projects ->
        (Obj.has e2eProjectName projects = false ->
         Obj.inherited e2eProjectName = false ->
         TestCafeProject.updateAngularJson options (Js.Object fields)
         = Obj.Throws (Js.Err "TypeError" "Cannot set property 'root' of undefined"))
        /\ (Js.lookup e2eProjectName projects = Js.Null ->
            TestCafeProject.updateAngularJson options (Js.Object fields)
            = Obj.Throws (Js.Err "TypeError" "Cannot set property 'root' of null"))
        /\ (forall config,
              Js.lookup e2eProjectName projects = Js.Object config ->
              (Obj.has "architect" config = false ->
               TestCafeProject.updateAngularJson options (Js.Object fields)
               = Obj.Throws
                   (Js.Err "TypeError" "Cannot set property 'e2e' of undefined"))
              /\ (Js.lookup "architect" config = Js.Null ->
                  TestCafeProject.updateAngularJson options (Js.Object fields)
                  = Obj.Throws
                      (Js.Err "TypeError" "Cannot set property 'e2e' of null")))).
Proof. apply updateAngularJson_throws_spec. Qed.
